(** * FakeVehicleHardware: the fake vehicle-property backend

    A shallow embedding of
    [automotive/vehicle/aidl/impl/fake_impl/hardware/src/FakeVehicleHardware.cpp]
    and of the collaborators it drives (property store, recurrent timer,
    pending-request queue), followed by the properties of the facade.

    Conventions.
    - 32- and 64-bit integers (property ids, area ids, request ids,
      timestamps) are [Z]; the facade performs no arithmetic on them, so no
      wrap-around is ever taken.
    - A [VhalResult<T>] is [Ok x] or [Err code]; the free-text message that
      the C++ code streams into a [StatusError] is not modelled.
    - [std::shared_ptr] identity (result callbacks, timer callbacks, the
      property-change listener) is a [nat] handle.
    - [mValuePool->obtain(v)] returns a copy of [v]; it is the identity here.
    - A computation whose C++ behaviour is undefined (indexing an empty
      vector, a float-to-integer conversion out of range) yields [None].
    - The facade is modelled sequentially: one call runs to completion. *)

From Stdlib Require Import ZArith PrimFloat FloatOps SpecFloat.
From Stdlib Require Import Ascii String.
From stdpp Require Import gmap list fin_maps strings.

Open Scope Z_scope.

(** ** AIDL data types *)

Inductive StatusCode :=
  | OK | TRY_AGAIN | INVALID_ARG | NOT_AVAILABLE | ACCESS_DENIED | INTERNAL_ERROR.

Inductive VehiclePropertyStatus := AVAILABLE | UNAVAILABLE | ERROR.

Module VehicleApPowerStateReport.
Inductive t :=
  | WAIT_FOR_VHAL | DEEP_SLEEP_ENTRY | DEEP_SLEEP_EXIT | SHUTDOWN_POSTPONE
  | SHUTDOWN_START | ON | SHUTDOWN_PREPARE | SHUTDOWN_CANCELLED
  | HIBERNATION_ENTRY | HIBERNATION_EXIT.
End VehicleApPowerStateReport.

Module VehicleApPowerStateReq.
Inductive t := ON | SHUTDOWN_PREPARE | CANCEL_SHUTDOWN | FINISHED.
End VehicleApPowerStateReq.

(** The typed payload.  [floatValues] holds the IEEE-754 binary32 bit
    patterns of the floats. *)
Record RawPropValues := {
  int32Values : list Z;
  int64Values : list Z;
  floatValues : list Z;
  byteValues : list Z;
  stringValue : string
}.

Record VehiclePropValue := {
  timestamp : Z;
  areaId : Z;
  prop : Z;
  status : VehiclePropertyStatus;
  value : RawPropValues
}.

Definition emptyRawPropValues : RawPropValues :=
  {| int32Values := []; int64Values := []; floatValues := [];
     byteValues := []; stringValue := EmptyString |}.

Definition setTimestamp (ts : Z) (v : VehiclePropValue) : VehiclePropValue :=
  {| timestamp := ts; areaId := areaId v; prop := prop v;
     status := status v; value := value v |}.

Definition setByteValues (bs : list Z) (v : VehiclePropValue) : VehiclePropValue :=
  {| timestamp := timestamp v; areaId := areaId v; prop := prop v;
     status := status v;
     value := {| int32Values := int32Values (value v);
                 int64Values := int64Values (value v);
                 floatValues := floatValues (value v);
                 byteValues := bs;
                 stringValue := stringValue (value v) |} |}.

(** [VehiclePropValue{.prop = propId, .areaId = areaId}]: every other field
    value-initialised. *)
Definition keyValue (propId area : Z) : VehiclePropValue :=
  {| timestamp := 0; areaId := area; prop := propId;
     status := AVAILABLE; value := emptyRawPropValues |}.

Module GetValueRequest.
Record t := { requestId : Z; prop : VehiclePropValue }.
End GetValueRequest.

Module GetValueResult.
Record t := { requestId : Z; status : StatusCode; prop : option VehiclePropValue }.
End GetValueResult.

Module SetValueRequest.
Record t := { requestId : Z; value : VehiclePropValue }.
End SetValueRequest.

Module SetValueResult.
Record t := { requestId : Z; status : StatusCode }.
End SetValueResult.

Inductive VhalResult (A : Type) :=
  | Ok (x : A)
  | Err (code : StatusCode).
Arguments Ok {A} x.
Arguments Err {A} code.

Definition ok {A} (r : VhalResult A) : bool :=
  match r with Ok _ => true | Err _ => false end.

#[global] Instance StatusCode_eq_dec : EqDecision StatusCode.
Proof. solve_decision. Defined.
#[global] Instance VehiclePropertyStatus_eq_dec : EqDecision VehiclePropertyStatus.
Proof. solve_decision. Defined.
#[global] Instance RawPropValues_eq_dec : EqDecision RawPropValues.
Proof. solve_decision. Defined.
#[global] Instance VehiclePropValue_eq_dec : EqDecision VehiclePropValue.
Proof. solve_decision. Defined.

(** ** The property store

    [VehiclePropertyStore] is the store behind [mServerSidePropStore]; its
    source is outside [FakeVehicleHardware.cpp], and the definitions of this
    section follow the store's contract. *)

Record VehiclePropConfig := {
  config_prop : Z;
  config_access : Z;
  config_changeMode : Z;
  (** the valid area ids; empty means global *)
  config_areaIds : list Z
}.

Definition TokenFunction := VehiclePropValue -> Z.

Record PropRecord := {
  propConfig : VehiclePropConfig;
  tokenFunction : option TokenFunction
}.

(** Modelled from the spec: the state of [VehiclePropertyStore] (its source
    is missing): the registered configurations, the stored values keyed by
    (property id, area id, token), and whether a change listener is
    installed.  The only listener the facade ever installs is its own
    [onValueChangeCallback]. *)
Record VehiclePropertyStore := {
  mRecordsByPropId : gmap Z PropRecord;
  mValues : gmap (Z * Z * Z) VehiclePropValue;
  mOnValueChangeCallback : bool
}.

Definition emptyStore : VehiclePropertyStore :=
  {| mRecordsByPropId := ∅; mValues := ∅; mOnValueChangeCallback := false |}.

Definition withValues (vals : gmap (Z * Z * Z) VehiclePropValue)
    (s : VehiclePropertyStore) : VehiclePropertyStore :=
  {| mRecordsByPropId := mRecordsByPropId s; mValues := vals;
     mOnValueChangeCallback := mOnValueChangeCallback s |}.

(** Modelled from the spec: [VehiclePropertyStore::registerProperty] (source
    missing): installs the configuration, overwriting on re-registration. *)
Definition registerProperty (cfg : VehiclePropConfig) (tokenFn : option TokenFunction)
    (s : VehiclePropertyStore) : VehiclePropertyStore :=
  {| mRecordsByPropId :=
       <[config_prop cfg := {| propConfig := cfg; tokenFunction := tokenFn |}]>
         (mRecordsByPropId s);
     mValues := mValues s;
     mOnValueChangeCallback := mOnValueChangeCallback s |}.

(** Modelled from the spec: [VehiclePropertyStore::setOnValueChangeCallback]
    (source missing): installs the single change listener. *)
Definition setOnValueChangeCallback (s : VehiclePropertyStore) : VehiclePropertyStore :=
  {| mRecordsByPropId := mRecordsByPropId s; mValues := mValues s;
     mOnValueChangeCallback := true |}.

(** The token of a value: the token function's result when the property has
    one, 0 otherwise. *)
Definition tokenOf (rec : PropRecord) (v : VehiclePropValue) : Z :=
  match tokenFunction rec with
  | Some f => f v
  | None => 0
  end.

Definition areaPermitted (rec : PropRecord) (area : Z) : bool :=
  match config_areaIds (propConfig rec) with
  | [] => true
  | ids => bool_decide (area ∈ ids)
  end.

(** Equality of two values in every field but the timestamp. *)
Definition sameExceptTimestamp (a b : VehiclePropValue) : bool :=
  bool_decide (setTimestamp 0 a = setTimestamp 0 b).

(** Modelled from the spec: [VehiclePropertyStore::writeValue] (source
    missing).  Fails with [INVALID_ARG] when the property is unregistered or
    the area id is not permitted; when the stored value equals the new one up
    to the timestamp and [updateStatus] is false, succeeds without
    overwriting or notifying; otherwise replaces the stored value and
    notifies the listener, if one is installed.  The third component is the
    value handed to the listener. *)
Definition writeValue (v : VehiclePropValue) (updateStatus : bool)
    (s : VehiclePropertyStore)
    : VhalResult unit * VehiclePropertyStore * option VehiclePropValue :=
  match mRecordsByPropId s !! prop v with
  | None => (Err INVALID_ARG, s, None)
  | Some rec =>
      if negb (areaPermitted rec (areaId v)) then (Err INVALID_ARG, s, None)
      else
        let key := (prop v, areaId v, tokenOf rec v) in
        let unchanged :=
          match mValues s !! key with
          | Some old => sameExceptTimestamp old v
          | None => false
          end in
        if unchanged && negb updateStatus then (Ok tt, s, None)
        else (Ok tt, withValues (<[key := v]> (mValues s)) s,
              if mOnValueChangeCallback s then Some v else None)
  end.

(** Modelled from the spec: [VehiclePropertyStore::readValue(propId, areaId,
    token)] (source missing): [INVALID_ARG] for an unregistered property,
    [NOT_AVAILABLE] when nothing is stored under the key, otherwise a copy of
    the stored value. *)
Definition readValueById (propId area token : Z) (s : VehiclePropertyStore)
    : VhalResult VehiclePropValue :=
  match mRecordsByPropId s !! propId with
  | None => Err INVALID_ARG
  | Some _ =>
      match mValues s !! (propId, area, token) with
      | Some v => Ok v
      | None => Err NOT_AVAILABLE
      end
  end.

(** Modelled from the spec: [VehiclePropertyStore::readValue(value)] (source
    missing): as [readValueById], at the key resolved from the value. *)
Definition readValue (v : VehiclePropValue) (s : VehiclePropertyStore)
    : VhalResult VehiclePropValue :=
  match mRecordsByPropId s !! prop v with
  | None => Err INVALID_ARG
  | Some rec =>
      match mValues s !! (prop v, areaId v, tokenOf rec v) with
      | Some x => Ok x
      | None => Err NOT_AVAILABLE
      end
  end.

(** Modelled from the spec: [VehiclePropertyStore::removeValue] (source
    missing): deletes the stored instance at the key resolved from the
    value. *)
Definition removeValue (v : VehiclePropValue) (s : VehiclePropertyStore)
    : VehiclePropertyStore :=
  match mRecordsByPropId s !! prop v with
  | None => s
  | Some rec => withValues (delete (prop v, areaId v, tokenOf rec v) (mValues s)) s
  end.

(** Modelled from the spec: [VehiclePropertyStore::removeValuesForProperty]
    (source missing): deletes every stored instance of the property. *)
Definition removeValuesForProperty (propId : Z) (s : VehiclePropertyStore)
    : VehiclePropertyStore :=
  withValues (filter (fun kv => kv.1.1.1 ≠ propId) (mValues s)) s.

(** Modelled from the spec: [VehiclePropertyStore::getConfig] (source
    missing). *)
Definition getConfig (propId : Z) (s : VehiclePropertyStore)
    : VhalResult VehiclePropConfig :=
  match mRecordsByPropId s !! propId with
  | Some rec => Ok (propConfig rec)
  | None => Err INVALID_ARG
  end.

(** ** The recurrent timer and the request queue *)

(** A timer callback created by [updateSampleRate]: the identity of the
    [std::shared_ptr<RecurrentTimer::Callback>] and the [propId], [areaId]
    its closure captured. *)
Record RecurrentAction := {
  actionHandle : nat;
  actionPropId : Z;
  actionAreaId : Z
}.

Record TimerCallbackInfo := {
  timerAction : RecurrentAction;
  timerInterval : Z;
  timerNextTime : Z
}.

(** Modelled from the spec: [RecurrentTimer::registerTimerCallback] (source
    missing): the callback fires every [intervalNanos], first at
    [now + intervalNanos]. *)
Definition registerTimerCallback (intervalNanos : Z) (action : RecurrentAction)
    (now : Z) (t : gmap nat TimerCallbackInfo) : gmap nat TimerCallbackInfo :=
  <[actionHandle action :=
      {| timerAction := action; timerInterval := intervalNanos;
         timerNextTime := now + intervalNanos |}]> t.

(** Modelled from the spec: [RecurrentTimer::unregisterTimerCallback]
    (source missing): removes all future firings of the callback handle. *)
Definition unregisterTimerCallback (action : RecurrentAction)
    (t : gmap nat TimerCallbackInfo) : gmap nat TimerCallbackInfo :=
  delete (actionHandle action) t.

(** Modelled from the spec: the [ConcurrentQueue] behind a
    [PendingRequestHandler] (source missing): items in arrival order and the
    activity flag that [stop()] clears. *)
Record ConcurrentQueue (T : Type) := {
  queueItems : list T;
  queueIsActive : bool
}.
Arguments queueItems {T} _.
Arguments queueIsActive {T} _.

(** Modelled from the spec: [ConcurrentQueue::push] (source missing): an item
    pushed after deactivation is ignored. *)
Definition push {T} (item : T) (q : ConcurrentQueue T) : ConcurrentQueue T :=
  if queueIsActive q
  then {| queueItems := queueItems q ++ [item]; queueIsActive := true |}
  else q.

(** Modelled from the spec: [ConcurrentQueue::flush] (source missing): drains
    the whole current contents as one batch. *)
Definition flush {T} (q : ConcurrentQueue T) : list T * ConcurrentQueue T :=
  (queueItems q, {| queueItems := []; queueIsActive := queueIsActive q |}).

(** Modelled from the spec: [ConcurrentQueue::deactivate] (source missing). *)
Definition deactivate {T} (q : ConcurrentQueue T) : ConcurrentQueue T :=
  {| queueItems := queueItems q; queueIsActive := false |}.

(** ** What the facade takes from its build environment

    The numeric values of the AIDL enumerators and of the constants of
    [PropertyUtils.h] and [TestPropertyUtils.h], the monotonic clock, the
    user-HAL and OBD2 helpers and the dump-argument parser are parameters. *)

Class Platform := {
  AP_POWER_STATE_REQ : Z;
  AP_POWER_STATE_REPORT : Z;
  VEHICLE_MAP_SERVICE : Z;
  HVAC_POWER_ON : Z;
  OBD2_FREEZE_FRAME : Z;
  OBD2_FREEZE_FRAME_INFO : Z;
  OBD2_FREEZE_FRAME_CLEAR : Z;
  ECHO_REVERSE_BYTES : Z;
  HVAC_POWER_PROPERTIES : list Z;
  HVAC_ALL : Z;
  (** [toInt] on the two power-state enumerations *)
  reportToInt : VehicleApPowerStateReport.t -> Z;
  reqToInt : VehicleApPowerStateReq.t -> Z;
  (** the [n]-th reading of [elapsedRealtimeNano()] *)
  clockAt : nat -> Z;
  (** [FakeUserHal] *)
  UserHal : Type;
  userHal_isSupported : Z -> bool;
  userHal_onGetProperty :
    VehiclePropValue -> UserHal -> VhalResult (option VehiclePropValue) * UserHal;
  userHal_onSetProperty :
    VehiclePropValue -> UserHal -> VhalResult (option VehiclePropValue) * UserHal;
  (** [FakeObd2Frame], which works on the property store *)
  obd2_getObd2FreezeFrame :
    VehiclePropValue -> VehiclePropertyStore -> VhalResult VehiclePropValue;
  obd2_getObd2DtcInfo : VehiclePropertyStore -> VhalResult VehiclePropValue;
  obd2_clearObd2FreezeFrames :
    VehiclePropValue -> VehiclePropertyStore -> VhalResult unit * VehiclePropertyStore;
  (** [parsePropOptions]: an error message or the parsed value *)
  parsePropOptions : list string -> string + VehiclePropValue
}.

(** What the C++ compiler and the platform guarantee about the parameters:
    the [case] labels of each [switch] are pairwise distinct, the two
    power-state properties are different properties, the HVAC properties are
    not user-HAL properties, the power-state report is neither a user-HAL
    nor an HVAC property, and the clock is monotonic. *)
Class PlatformOk (P : Platform) := {
  reportToInt_inj : forall a b, reportToInt a = reportToInt b -> a = b;
  setSwitch_distinct :
    AP_POWER_STATE_REPORT ≠ VEHICLE_MAP_SERVICE /\
    AP_POWER_STATE_REPORT ≠ OBD2_FREEZE_FRAME_CLEAR /\
    VEHICLE_MAP_SERVICE ≠ OBD2_FREEZE_FRAME_CLEAR;
  getSwitch_distinct :
    OBD2_FREEZE_FRAME ≠ OBD2_FREEZE_FRAME_INFO /\
    OBD2_FREEZE_FRAME ≠ ECHO_REVERSE_BYTES /\
    OBD2_FREEZE_FRAME_INFO ≠ ECHO_REVERSE_BYTES;
  powerState_distinct : AP_POWER_STATE_REQ ≠ AP_POWER_STATE_REPORT;
  hvac_not_userHal :
    forall p, p ∈ HVAC_POWER_PROPERTIES -> userHal_isSupported p = false;
  powerReport_plain :
    userHal_isSupported AP_POWER_STATE_REPORT = false
    /\ AP_POWER_STATE_REPORT ∉ HVAC_POWER_PROPERTIES;
  clockAt_mono : forall i j, (i <= j)%nat -> clockAt i <= clockAt j
}.

(** ** The facade state *)

Inductive Special (A : Type) :=
  | NotSpecial
  | IsSpecial (r : VhalResult A).
Arguments NotSpecial {A}.
Arguments IsSpecial {A} r.

(** The text a save or restore dump command returns, by format string. *)
Inductive DumpOutput :=
  | InvalidNumberOfArguments (minSize size : nat)
  | ParseError (msg : string)
  | FailedToSave (code : StatusCode)
  | PropertySaved (propId area : Z)
  | NoSavedProperty (propId area : Z)
  | FailedToRestore (code : StatusCode)
  | PropertyRestored (propId area : Z).

(** [static_cast<int64_t>] of a double: truncation towards zero, undefined
    when the truncated value is not an [int64_t] (and for NaN and the
    infinities). *)
Definition float_to_int64 (f : float) : option Z :=
  match Prim2SF f with
  | S754_zero _ => Some 0
  | S754_finite s m e =>
      let mag := if 0 <=? e then Z.pos m * 2 ^ e else Z.pos m / 2 ^ (- e) in
      let z := if s then - mag else mag in
      if (- 2 ^ 63 <=? z) && (z <? 2 ^ 63) then Some z else None
  | _ => None
  end.

Section Facade.
Context {P : Platform}.

Record FakeVehicleHardware := {
  mServerSidePropStore : VehiclePropertyStore;
  mFakeUserHal : UserHal;
  mRecurrentTimer : gmap nat TimerCallbackInfo;
  mSavedProps : gmap (Z * Z) VehiclePropValue;
  mRecurrentActions : gmap (Z * Z) RecurrentAction;
  mOnPropertyChangeCallback : option nat;
  mPendingGetValueRequests : ConcurrentQueue (GetValueRequest.t * nat);
  mPendingSetValueRequests : ConcurrentQueue (SetValueRequest.t * nat);
  (** how many times the clock has been read *)
  clockReads : nat;
  (** how many timer callbacks [std::make_shared] has allocated *)
  allocatedActions : nat;
  (** the calls made to the property-change listener, oldest first: the
      listener and the batch it received *)
  propertyChangeEvents : list (nat * list VehiclePropValue)
}.

Definition withStore (s : VehiclePropertyStore) (hw : FakeVehicleHardware) :=
  {| mServerSidePropStore := s; mFakeUserHal := mFakeUserHal hw;
     mRecurrentTimer := mRecurrentTimer hw; mSavedProps := mSavedProps hw;
     mRecurrentActions := mRecurrentActions hw;
     mOnPropertyChangeCallback := mOnPropertyChangeCallback hw;
     mPendingGetValueRequests := mPendingGetValueRequests hw;
     mPendingSetValueRequests := mPendingSetValueRequests hw;
     clockReads := clockReads hw; allocatedActions := allocatedActions hw;
     propertyChangeEvents := propertyChangeEvents hw |}.

Definition withUserHal (u : UserHal) (hw : FakeVehicleHardware) :=
  {| mServerSidePropStore := mServerSidePropStore hw; mFakeUserHal := u;
     mRecurrentTimer := mRecurrentTimer hw; mSavedProps := mSavedProps hw;
     mRecurrentActions := mRecurrentActions hw;
     mOnPropertyChangeCallback := mOnPropertyChangeCallback hw;
     mPendingGetValueRequests := mPendingGetValueRequests hw;
     mPendingSetValueRequests := mPendingSetValueRequests hw;
     clockReads := clockReads hw; allocatedActions := allocatedActions hw;
     propertyChangeEvents := propertyChangeEvents hw |}.

Definition withSavedProps (m : gmap (Z * Z) VehiclePropValue) (hw : FakeVehicleHardware) :=
  {| mServerSidePropStore := mServerSidePropStore hw; mFakeUserHal := mFakeUserHal hw;
     mRecurrentTimer := mRecurrentTimer hw; mSavedProps := m;
     mRecurrentActions := mRecurrentActions hw;
     mOnPropertyChangeCallback := mOnPropertyChangeCallback hw;
     mPendingGetValueRequests := mPendingGetValueRequests hw;
     mPendingSetValueRequests := mPendingSetValueRequests hw;
     clockReads := clockReads hw; allocatedActions := allocatedActions hw;
     propertyChangeEvents := propertyChangeEvents hw |}.

Definition withTimer (t : gmap nat TimerCallbackInfo) (hw : FakeVehicleHardware) :=
  {| mServerSidePropStore := mServerSidePropStore hw; mFakeUserHal := mFakeUserHal hw;
     mRecurrentTimer := t; mSavedProps := mSavedProps hw;
     mRecurrentActions := mRecurrentActions hw;
     mOnPropertyChangeCallback := mOnPropertyChangeCallback hw;
     mPendingGetValueRequests := mPendingGetValueRequests hw;
     mPendingSetValueRequests := mPendingSetValueRequests hw;
     clockReads := clockReads hw; allocatedActions := allocatedActions hw;
     propertyChangeEvents := propertyChangeEvents hw |}.

Definition withRecurrentAction (key : Z * Z) (action : RecurrentAction)
    (hw : FakeVehicleHardware) :=
  {| mServerSidePropStore := mServerSidePropStore hw; mFakeUserHal := mFakeUserHal hw;
     mRecurrentTimer := mRecurrentTimer hw; mSavedProps := mSavedProps hw;
     mRecurrentActions := <[key := action]> (mRecurrentActions hw);
     mOnPropertyChangeCallback := mOnPropertyChangeCallback hw;
     mPendingGetValueRequests := mPendingGetValueRequests hw;
     mPendingSetValueRequests := mPendingSetValueRequests hw;
     clockReads := clockReads hw; allocatedActions := S (allocatedActions hw);
     propertyChangeEvents := propertyChangeEvents hw |}.

Definition withListener (cb : option nat) (hw : FakeVehicleHardware) :=
  {| mServerSidePropStore := mServerSidePropStore hw; mFakeUserHal := mFakeUserHal hw;
     mRecurrentTimer := mRecurrentTimer hw; mSavedProps := mSavedProps hw;
     mRecurrentActions := mRecurrentActions hw;
     mOnPropertyChangeCallback := cb;
     mPendingGetValueRequests := mPendingGetValueRequests hw;
     mPendingSetValueRequests := mPendingSetValueRequests hw;
     clockReads := clockReads hw; allocatedActions := allocatedActions hw;
     propertyChangeEvents := propertyChangeEvents hw |}.

Definition withGetQueue (q : ConcurrentQueue (GetValueRequest.t * nat))
    (hw : FakeVehicleHardware) :=
  {| mServerSidePropStore := mServerSidePropStore hw; mFakeUserHal := mFakeUserHal hw;
     mRecurrentTimer := mRecurrentTimer hw; mSavedProps := mSavedProps hw;
     mRecurrentActions := mRecurrentActions hw;
     mOnPropertyChangeCallback := mOnPropertyChangeCallback hw;
     mPendingGetValueRequests := q;
     mPendingSetValueRequests := mPendingSetValueRequests hw;
     clockReads := clockReads hw; allocatedActions := allocatedActions hw;
     propertyChangeEvents := propertyChangeEvents hw |}.

Definition withSetQueue (q : ConcurrentQueue (SetValueRequest.t * nat))
    (hw : FakeVehicleHardware) :=
  {| mServerSidePropStore := mServerSidePropStore hw; mFakeUserHal := mFakeUserHal hw;
     mRecurrentTimer := mRecurrentTimer hw; mSavedProps := mSavedProps hw;
     mRecurrentActions := mRecurrentActions hw;
     mOnPropertyChangeCallback := mOnPropertyChangeCallback hw;
     mPendingGetValueRequests := mPendingGetValueRequests hw;
     mPendingSetValueRequests := q;
     clockReads := clockReads hw; allocatedActions := allocatedActions hw;
     propertyChangeEvents := propertyChangeEvents hw |}.

Definition withEvent (e : nat * list VehiclePropValue) (hw : FakeVehicleHardware) :=
  {| mServerSidePropStore := mServerSidePropStore hw; mFakeUserHal := mFakeUserHal hw;
     mRecurrentTimer := mRecurrentTimer hw; mSavedProps := mSavedProps hw;
     mRecurrentActions := mRecurrentActions hw;
     mOnPropertyChangeCallback := mOnPropertyChangeCallback hw;
     mPendingGetValueRequests := mPendingGetValueRequests hw;
     mPendingSetValueRequests := mPendingSetValueRequests hw;
     clockReads := clockReads hw; allocatedActions := allocatedActions hw;
     propertyChangeEvents := propertyChangeEvents hw ++ [e] |}.

(** [elapsedRealtimeNano()]: the next clock reading. *)
Definition elapsedRealtimeNano (hw : FakeVehicleHardware) : Z * FakeVehicleHardware :=
  (clockAt (clockReads hw),
   {| mServerSidePropStore := mServerSidePropStore hw; mFakeUserHal := mFakeUserHal hw;
      mRecurrentTimer := mRecurrentTimer hw; mSavedProps := mSavedProps hw;
      mRecurrentActions := mRecurrentActions hw;
      mOnPropertyChangeCallback := mOnPropertyChangeCallback hw;
      mPendingGetValueRequests := mPendingGetValueRequests hw;
      mPendingSetValueRequests := mPendingSetValueRequests hw;
      clockReads := S (clockReads hw); allocatedActions := allocatedActions hw;
      propertyChangeEvents := propertyChangeEvents hw |}).

(** ** The facade operations *)

(** [registerOnPropertyChangeEvent]: the single listener slot. *)
Definition registerOnPropertyChangeEvent (callback : nat) (hw : FakeVehicleHardware)
    : FakeVehicleHardware :=
  withListener (Some callback) hw.

(** [onValueChangeCallback]: returns at once when no listener is registered,
    otherwise calls the listener with the one-element vector. *)
Definition onValueChangeCallback (v : VehiclePropValue) (hw : FakeVehicleHardware)
    : FakeVehicleHardware :=
  match mOnPropertyChangeCallback hw with
  | None => hw
  | Some callback => withEvent (callback, [v]) hw
  end.

(** [mServerSidePropStore->writeValue(...)] as the facade sees it: the
    listener that [init] installed in the store is the facade's own
    [onValueChangeCallback]. *)
Definition storeWriteValue (v : VehiclePropValue) (updateStatus : bool)
    (hw : FakeVehicleHardware) : VhalResult unit * FakeVehicleHardware :=
  let '(result, s, notified) := writeValue v updateStatus (mServerSidePropStore hw) in
  let hw1 := withStore s hw in
  (result, match notified with
           | Some x => onValueChangeCallback x hw1
           | None => hw1
           end).

Definition eventFromVehicleBus (v : VehiclePropValue) (hw : FakeVehicleHardware)
    : FakeVehicleHardware :=
  (storeWriteValue v false hw).2.

Definition createApPowerStateReq (state : VehicleApPowerStateReq.t)
    (hw : FakeVehicleHardware) : VehiclePropValue * FakeVehicleHardware :=
  let '(now, hw1) := elapsedRealtimeNano hw in
  ({| timestamp := now; areaId := 0; prop := AP_POWER_STATE_REQ;
      status := AVAILABLE;
      value := {| int32Values := [reqToInt state; 0]; int64Values := [];
                  floatValues := []; byteValues := [];
                  stringValue := EmptyString |} |}, hw1).

Definition isWaitForVhalCase (state : Z) : bool :=
  (state =? reportToInt VehicleApPowerStateReport.DEEP_SLEEP_EXIT)
  || (state =? reportToInt VehicleApPowerStateReport.HIBERNATION_EXIT)
  || (state =? reportToInt VehicleApPowerStateReport.SHUTDOWN_CANCELLED)
  || (state =? reportToInt VehicleApPowerStateReport.WAIT_FOR_VHAL).

Definition isWaitForFinishCase (state : Z) : bool :=
  (state =? reportToInt VehicleApPowerStateReport.DEEP_SLEEP_ENTRY)
  || (state =? reportToInt VehicleApPowerStateReport.HIBERNATION_ENTRY)
  || (state =? reportToInt VehicleApPowerStateReport.SHUTDOWN_START).

Definition setApPowerStateReport (v : VehiclePropValue) (hw : FakeVehicleHardware)
    : option (VhalResult unit * FakeVehicleHardware) :=
  let '(now, hw1) := elapsedRealtimeNano hw in
  let '(writeResult, hw2) := storeWriteValue (setTimestamp now v) false hw1 in
  match writeResult with
  | Err code => Some (Err code, hw2)
  | Ok _ =>
      match int32Values (value v) with
      | [] => None
      | state :: _ =>
          if isWaitForVhalCase state then
            let hw3 :=
              withStore (removeValuesForProperty AP_POWER_STATE_REQ
                           (mServerSidePropStore hw2)) hw2 in
            let '(req, hw4) := createApPowerStateReq VehicleApPowerStateReq.ON hw3 in
            let '(writeResult, hw5) := storeWriteValue req true hw4 in
            match writeResult with
            | Err code => Some (Err code, hw5)
            | Ok _ => Some (Ok tt, hw5)
            end
          else if isWaitForFinishCase state then
            let '(req, hw3) := createApPowerStateReq VehicleApPowerStateReq.FINISHED hw2 in
            let '(writeResult, hw4) := storeWriteValue req true hw3 in
            match writeResult with
            | Err code => Some (Err code, hw4)
            | Ok _ => Some (Ok tt, hw4)
            end
          else Some (Ok tt, hw2)
      end
  end.

Definition isHvacPropAndHvacNotAvailable (propId : Z) (hw : FakeVehicleHardware) : bool :=
  if bool_decide (propId ∈ HVAC_POWER_PROPERTIES) then
    match readValueById HVAC_POWER_ON HVAC_ALL 0 (mServerSidePropStore hw) with
    | Ok hvacPowerOn =>
        match int32Values (value hvacPowerOn) with
        | [x] => x =? 0
        | _ => false
        end
    | Err _ => false
    end
  else false.

Definition setUserHalProp (v : VehiclePropValue) (hw : FakeVehicleHardware)
    : VhalResult unit * FakeVehicleHardware :=
  let '(result, u) := userHal_onSetProperty v (mFakeUserHal hw) in
  let hw1 := withUserHal u hw in
  match result with
  | Err code => (Err code, hw1)
  | Ok None => (Ok tt, hw1)
  | Ok (Some updatedValue) =>
      let '(writeResult, hw2) := storeWriteValue updatedValue false hw1 in
      match writeResult with
      | Err code => (Err code, hw2)
      | Ok _ => (Ok tt, hw2)
      end
  end.

Definition getUserHalProp (v : VehiclePropValue) (hw : FakeVehicleHardware)
    : VhalResult VehiclePropValue * FakeVehicleHardware :=
  let '(result, u) := userHal_onGetProperty v (mFakeUserHal hw) in
  let hw1 := withUserHal u hw in
  match result with
  | Err code => (Err code, hw1)
  | Ok (Some gotValue) =>
      let '(now, hw2) := elapsedRealtimeNano hw1 in
      (Ok (setTimestamp now gotValue), hw2)
  | Ok None => (Err INTERNAL_ERROR, hw1)
  end.

Definition getEchoReverseBytes (v : VehiclePropValue) (hw : FakeVehicleHardware)
    : VhalResult VehiclePropValue * FakeVehicleHardware :=
  match readValue v (mServerSidePropStore hw) with
  | Err code => (Err code, hw)
  | Ok gotValue =>
      let '(now, hw1) := elapsedRealtimeNano hw in
      let stamped := setTimestamp now gotValue in
      (Ok (setByteValues (rev (byteValues (value stamped))) stamped), hw1)
  end.

(** [maybeGetSpecialValue]: [NotSpecial] stands for [*isSpecialValue = false]
    (the returned [nullptr] is then ignored by every caller). *)
Definition maybeGetSpecialValue (v : VehiclePropValue) (hw : FakeVehicleHardware)
    : Special VehiclePropValue * FakeVehicleHardware :=
  let propId := prop v in
  if userHal_isSupported propId then
    let '(result, hw1) := getUserHalProp v hw in (IsSpecial result, hw1)
  else if propId =? OBD2_FREEZE_FRAME then
    match obd2_getObd2FreezeFrame v (mServerSidePropStore hw) with
    | Ok x => let '(now, hw1) := elapsedRealtimeNano hw in
              (IsSpecial (Ok (setTimestamp now x)), hw1)
    | Err code => (IsSpecial (Err code), hw)
    end
  else if propId =? OBD2_FREEZE_FRAME_INFO then
    match obd2_getObd2DtcInfo (mServerSidePropStore hw) with
    | Ok x => let '(now, hw1) := elapsedRealtimeNano hw in
              (IsSpecial (Ok (setTimestamp now x)), hw1)
    | Err code => (IsSpecial (Err code), hw)
    end
  else if propId =? ECHO_REVERSE_BYTES then
    let '(result, hw1) := getEchoReverseBytes v hw in (IsSpecial result, hw1)
  else (NotSpecial, hw).

(** [maybeSetSpecialValue], built without
    [ENABLE_VENDOR_CLUSTER_PROPERTY_FOR_TESTING]. *)
Definition maybeSetSpecialValue (v : VehiclePropValue) (hw : FakeVehicleHardware)
    : option (Special unit * FakeVehicleHardware) :=
  let propId := prop v in
  if userHal_isSupported propId then
    let '(result, hw1) := setUserHalProp v hw in Some (IsSpecial result, hw1)
  else if isHvacPropAndHvacNotAvailable propId hw then
    Some (IsSpecial (Err NOT_AVAILABLE), hw)
  else if propId =? AP_POWER_STATE_REPORT then
    match setApPowerStateReport v hw with
    | Some (result, hw1) => Some (IsSpecial result, hw1)
    | None => None
    end
  else if propId =? VEHICLE_MAP_SERVICE then
    Some (IsSpecial (Ok tt), hw)
  else if propId =? OBD2_FREEZE_FRAME_CLEAR then
    let '(result, s) := obd2_clearObd2FreezeFrames v (mServerSidePropStore hw) in
    Some (IsSpecial result, withStore s hw)
  else Some (NotSpecial, hw).

Definition setValue (v : VehiclePropValue) (hw : FakeVehicleHardware)
    : option (VhalResult unit * FakeVehicleHardware) :=
  match maybeSetSpecialValue v hw with
  | None => None
  | Some (IsSpecial (Err code), hw1) => Some (Err code, hw1)
  | Some (IsSpecial (Ok _), hw1) => Some (Ok tt, hw1)
  | Some (NotSpecial, hw1) =>
      let '(now, hw2) := elapsedRealtimeNano hw1 in
      let '(writeResult, hw3) := storeWriteValue (setTimestamp now v) false hw2 in
      match writeResult with
      | Err code => Some (Err code, hw3)
      | Ok _ => Some (Ok tt, hw3)
      end
  end.

Definition handleSetValueRequest (request : SetValueRequest.t) (hw : FakeVehicleHardware)
    : option (SetValueResult.t * FakeVehicleHardware) :=
  match setValue (SetValueRequest.value request) hw with
  | None => None
  | Some (Err code, hw1) =>
      Some ({| SetValueResult.requestId := SetValueRequest.requestId request;
               SetValueResult.status := code |}, hw1)
  | Some (Ok _, hw1) =>
      Some ({| SetValueResult.requestId := SetValueRequest.requestId request;
               SetValueResult.status := OK |}, hw1)
  end.

(** [getValue].  The two error branches after [readValue] differ in their
    message only. *)
Definition getValue (v : VehiclePropValue) (hw : FakeVehicleHardware)
    : VhalResult VehiclePropValue * FakeVehicleHardware :=
  match maybeGetSpecialValue v hw with
  | (IsSpecial (Err code), hw1) => (Err code, hw1)
  | (IsSpecial (Ok x), hw1) => (Ok x, hw1)
  | (NotSpecial, hw1) =>
      match readValue v (mServerSidePropStore hw1) with
      | Err errorCode =>
          if bool_decide (errorCode = NOT_AVAILABLE)
          then (Err errorCode, hw1)
          else (Err errorCode, hw1)
      | Ok x => (Ok x, hw1)
      end
  end.

Definition handleGetValueRequest (request : GetValueRequest.t) (hw : FakeVehicleHardware)
    : GetValueResult.t * FakeVehicleHardware :=
  match getValue (GetValueRequest.prop request) hw with
  | (Err code, hw1) =>
      ({| GetValueResult.requestId := GetValueRequest.requestId request;
          GetValueResult.status := code;
          GetValueResult.prop := None |}, hw1)
  | (Ok x, hw1) =>
      ({| GetValueResult.requestId := GetValueRequest.requestId request;
          GetValueResult.status := OK;
          GetValueResult.prop := Some x |}, hw1)
  end.

(** [PendingRequestHandler::addRequest] on the two handlers. *)
Definition addGetRequest (request : GetValueRequest.t) (callback : nat)
    (hw : FakeVehicleHardware) : FakeVehicleHardware :=
  withGetQueue (push (request, callback) (mPendingGetValueRequests hw)) hw.

Definition addSetRequest (request : SetValueRequest.t) (callback : nat)
    (hw : FakeVehicleHardware) : FakeVehicleHardware :=
  withSetQueue (push (request, callback) (mPendingSetValueRequests hw)) hw.

Definition setValues (callback : nat) (requests : list SetValueRequest.t)
    (hw : FakeVehicleHardware) : StatusCode * FakeVehicleHardware :=
  (OK, foldl (fun h request => addSetRequest request callback h) hw requests).

Definition getValues (callback : nat) (requests : list GetValueRequest.t)
    (hw : FakeVehicleHardware) : StatusCode * FakeVehicleHardware :=
  (OK, foldl (fun h request => addGetRequest request callback h) hw requests).

(** [PendingRequestHandler::stop] on both handlers, as the destructor does;
    joining the worker threads has no counterpart here. *)
Definition stop (hw : FakeVehicleHardware) : FakeVehicleHardware :=
  withSetQueue (deactivate (mPendingSetValueRequests hw))
    (withGetQueue (deactivate (mPendingGetValueRequests hw)) hw).

(** ** The pending-request workers *)

(** [callbackToResults[callback].push_back(result)] *)
Definition pushResult {R} (callback : nat) (result : R) (m : gmap nat (list R))
    : gmap nat (list R) :=
  <[callback := default [] (m !! callback) ++ [result]]> m.

(** The first loop of the get handler's [handleRequestsOnce]. *)
Fixpoint handleGetBatch (batch : list (GetValueRequest.t * nat))
    (hw : FakeVehicleHardware) (callbackToResults : gmap nat (list GetValueResult.t))
    : gmap nat (list GetValueResult.t) * FakeVehicleHardware :=
  match batch with
  | [] => (callbackToResults, hw)
  | (request, callback) :: rest =>
      let '(result, hw1) := handleGetValueRequest request hw in
      handleGetBatch rest hw1 (pushResult callback result callbackToResults)
  end.

(** [PendingRequestHandler<GetValuesCallback, GetValueRequest>::handleRequestsOnce]:
    the callback invocations it makes, in the iteration order of the
    map, and the state it leaves. *)
Definition handleGetRequestsOnce (hw : FakeVehicleHardware)
    : list (nat * list GetValueResult.t) * FakeVehicleHardware :=
  let '(batch, q) := flush (mPendingGetValueRequests hw) in
  let '(callbackToResults, hw1) := handleGetBatch batch (withGetQueue q hw) ∅ in
  (map_to_list callbackToResults, hw1).

Fixpoint handleSetBatch (batch : list (SetValueRequest.t * nat))
    (hw : FakeVehicleHardware) (callbackToResults : gmap nat (list SetValueResult.t))
    : option (gmap nat (list SetValueResult.t) * FakeVehicleHardware) :=
  match batch with
  | [] => Some (callbackToResults, hw)
  | (request, callback) :: rest =>
      match handleSetValueRequest request hw with
      | None => None
      | Some (result, hw1) =>
          handleSetBatch rest hw1 (pushResult callback result callbackToResults)
      end
  end.

(** [PendingRequestHandler<SetValuesCallback, SetValueRequest>::handleRequestsOnce] *)
Definition handleSetRequestsOnce (hw : FakeVehicleHardware)
    : option (list (nat * list SetValueResult.t) * FakeVehicleHardware) :=
  let '(batch, q) := flush (mPendingSetValueRequests hw) in
  match handleSetBatch batch (withSetQueue q hw) ∅ with
  | None => None
  | Some (callbackToResults, hw1) => Some (map_to_list callbackToResults, hw1)
  end.

(** ** Sample rates *)

(** The body of the closure that [updateSampleRate] registers. *)
Definition refreshAction (propId area : Z) (hw : FakeVehicleHardware)
    : FakeVehicleHardware :=
  match getValue (keyValue propId area) hw with
  | (Err _, hw1) => hw1
  | (Ok x, hw1) =>
      let '(now, hw2) := elapsedRealtimeNano hw1 in
      let refreshed := setTimestamp now x in
      let hw3 := withStore (removeValue refreshed (mServerSidePropStore hw2)) hw2 in
      (storeWriteValue refreshed false hw3).2
  end.

Definition updateSampleRate (propId area : Z) (sampleRate : float)
    (hw : FakeVehicleHardware) : option (StatusCode * FakeVehicleHardware) :=
  let propIdAreaId := (propId, area) in
  let hw1 :=
    match mRecurrentActions hw !! propIdAreaId with
    | Some action => withTimer (unregisterTimerCallback action (mRecurrentTimer hw)) hw
    | None => hw
    end in
  if (sampleRate =? 0)%float then Some (OK, hw1)
  else
    match float_to_int64 (1e9 / sampleRate)%float with
    | None => None
    | Some interval =>
        let action := {| actionHandle := allocatedActions hw1;
                         actionPropId := propId; actionAreaId := area |} in
        (* the timer reads the clock to schedule the first firing *)
        let '(now, hw2) := elapsedRealtimeNano hw1 in
        let hw3 :=
          withTimer (registerTimerCallback interval action now (mRecurrentTimer hw2)) hw2 in
        Some (OK, withRecurrentAction propIdAreaId action hw3)
    end.

(** Modelled from the spec: one step of the [RecurrentTimer] thread (source
    missing) for a registered callback whose deadline has passed: the
    callback runs and its next deadline is the fired one plus the interval.
    [None] when the handle is not registered or not yet due. *)
Definition fireTimerCallback (handle : nat) (hw : FakeVehicleHardware)
    : option FakeVehicleHardware :=
  match mRecurrentTimer hw !! handle with
  | None => None
  | Some info =>
      let '(now, hw1) := elapsedRealtimeNano hw in
      if timerNextTime info <=? now then
        let rescheduled :=
          {| timerAction := timerAction info; timerInterval := timerInterval info;
             timerNextTime := timerNextTime info + timerInterval info |} in
        let hw2 := withTimer (<[handle := rescheduled]> (mRecurrentTimer hw1)) hw1 in
        Some (refreshAction (actionPropId (timerAction info))
                (actionAreaId (timerAction info)) hw2)
      else None
  end.

(** ** Saving and restoring a property through the dump interface *)

Definition checkArgumentsSize (options : list string) (minSize : nat)
    : option DumpOutput :=
  let size := length options in
  if (minSize <=? size)%nat then None
  else Some (InvalidNumberOfArguments minSize size).

Definition dumpSaveProperty (options : list string) (hw : FakeVehicleHardware)
    : DumpOutput * FakeVehicleHardware :=
  match checkArgumentsSize options 2 with
  | Some msg => (msg, hw)
  | None =>
      match parsePropOptions options with
      | inl msg => (ParseError msg, hw)
      | inr v =>
          let propId := prop v in
          let area := areaId v in
          match readValue v (mServerSidePropStore hw) with
          | Err code => (FailedToSave code, hw)
          | Ok x =>
              (PropertySaved propId area,
               withSavedProps (<[(propId, area) := x]> (mSavedProps hw)) hw)
          end
      end
  end.

Definition dumpRestoreProperty (options : list string) (hw : FakeVehicleHardware)
    : DumpOutput * FakeVehicleHardware :=
  match checkArgumentsSize options 2 with
  | Some msg => (msg, hw)
  | None =>
      match parsePropOptions options with
      | inl msg => (ParseError msg, hw)
      | inr v =>
          let propId := prop v in
          let area := areaId v in
          match mSavedProps hw !! (propId, area) with
          | None => (NoSavedProperty propId area, hw)
          | Some savedValue =>
              let hw1 := withSavedProps (delete (propId, area) (mSavedProps hw)) hw in
              let '(now, hw2) := elapsedRealtimeNano hw1 in
              let '(writeResult, hw3) :=
                storeWriteValue (setTimestamp now savedValue) false hw2 in
              match writeResult with
              | Err code => (FailedToRestore code, hw3)
              | Ok _ => (PropertyRestored propId area, hw3)
              end
          end
      end
  end.

End Facade.

(** * The dump-argument helpers

    The pure helpers of the dump interface, as [FakeVehicleHardware.cpp] has
    them.  The library functions they call are modelled by what they compute
    on ASCII strings: [std::tolower] in the C locale,
    [android::base::StartsWith] and [android::base::EqualsIgnoreCase]
    (every literal compared against is free of NUL). *)

Module DumpArgs.

(** [std::tolower] in the C locale. *)
Definition toLower (c : ascii) : ascii :=
  let n := N_of_ascii c in
  if ((65 <=? n) && (n <=? 90))%N then ascii_of_N (n + 32) else c.

Fixpoint lowerString (s : string) : string :=
  match s with
  | EmptyString => EmptyString
  | String c rest => String (toLower c) (lowerString rest)
  end.

(** [android::base::EqualsIgnoreCase] *)
Definition EqualsIgnoreCase (lhs rhs : string) : bool :=
  bool_decide (lowerString lhs = lowerString rhs).

(** [android::base::StartsWith] *)
Fixpoint StartsWith (s prefix : string) : bool :=
  match prefix with
  | EmptyString => true
  | String p prefix' =>
      match s with
      | EmptyString => false
      | String c s' => bool_decide (c = p) && StartsWith s' prefix'
      end
  end.

(** [s.substr(n)] for [n] within the string. *)
Fixpoint substr (n : nat) (s : string) : string :=
  match n, s with
  | O, _ => s
  | S n', String _ rest => substr n' rest
  | S _, EmptyString => EmptyString
  end.

(** The errors of [parseHexString], by format string:
    [invalid hex string: %s, should have even size],
    [hex string should start with 0x, got %s] and
    [invalid character %c in hex string %s]. *)
Inductive HexError :=
  | HexOddSize (s : string)
  | HexNoPrefix (s : string)
  | HexInvalidCharacter (c : ascii) (subs : string).

(** The value of one lower-case hexadecimal digit: the two range tests of
    the loop body. *)
Definition hexDigit (c : ascii) : option Z :=
  let n := Z.of_N (N_of_ascii c) in
  if (48 <=? n) && (n <=? 57) then Some (n - 48)
  else if (97 <=? n) && (n <=? 102) then Some (n - 97 + 10)
  else None.

(** The loop of [parseHexString] over the characters still to read.  The
    bytes are [uint8_t]: the arithmetic is taken modulo 256.  The low digit
    is added to the last byte pushed ([alter] leaves an empty vector as it
    is; the loop never adds a low digit before a high one was pushed). *)
Fixpoint parseHexDigits (subs rest : string) (bytes : list Z) (highDigit : bool)
    : HexError + list Z :=
  match rest with
  | EmptyString => inr bytes
  | String c rest' =>
      match hexDigit c with
      | None => inl (HexInvalidCharacter c subs)
      | Some v =>
          let bytes' :=
            if highDigit then bytes ++ [(v * 16) mod 256]
            else alter (fun b => (b + v) mod 256) (length bytes - 1)%nat bytes in
          parseHexDigits subs rest' bytes' (negb highDigit)
      end
  end.

Definition parseHexString (s : string) : HexError + list Z :=
  if negb (String.length s mod 2 =? 0)%nat then inl (HexOddSize s)
  else if negb (StartsWith s "0x") then inl (HexNoPrefix s)
  else
    let subs := lowerString (substr 2 s) in
    parseHexDigits subs subs [] true.

(** The options of the [--set] command that start a group of values. *)
Definition SET_PROP_OPTIONS : list string :=
  ["-i"; "-i64"; "-f"; "-s"; "-b"; "-a"; "-t"]%string.

(** The loop of [getOptionValues] over the options from [*index] on. *)
Fixpoint getOptionValuesFrom (rest : list string) (values : list string) (index : nat)
    : list string * nat :=
  match rest with
  | [] => (values, index)
  | option :: rest' =>
      if bool_decide (option ∈ SET_PROP_OPTIONS) then (values, index)
      else getOptionValuesFrom rest' (values ++ [option]) (S index)
  end.

(** [getOptionValues]: the values and the new [*index]. *)
Definition getOptionValues (options : list string) (index : nat)
    : list string * nat :=
  getOptionValuesFrom (drop index options) [] index.

(** The text of a list of bytes in lower-case hexadecimal, two digits per
    byte. *)
Definition spec_hexDigitChar (n : Z) : ascii :=
  if n <? 10 then ascii_of_N (Z.to_N (48 + n)) else ascii_of_N (Z.to_N (97 + n - 10)).

Fixpoint spec_hexOfBytes (bytes : list Z) : string :=
  match bytes with
  | [] => EmptyString
  | b :: rest =>
      String (spec_hexDigitChar (b / 16))
        (String (spec_hexDigitChar (b mod 16)) (spec_hexOfBytes rest))
  end.

(** The characters that [parseHexString] accepts as digits. *)
Definition isHexChar (c : ascii) : bool :=
  match hexDigit (toLower c) with Some _ => true | None => false end.

Fixpoint allHexChars (s : string) : bool :=
  match s with
  | EmptyString => true
  | String c rest => isHexChar c && allHexChars rest
  end.

(** Every character is a lower-case hexadecimal digit. *)
Fixpoint allHexDigits (s : string) : bool :=
  match s with
  | EmptyString => true
  | String c rest =>
      match hexDigit c with Some _ => true | None => false end && allHexDigits rest
  end.

(** ** [parsePropOptions]

    [android::base::ParseInt] (into [int32_t] and into [int64_t]) and
    [android::base::ParseFloat] are parameters; a parsed float is its
    binary32 bit pattern. *)

Class Parsers := {
  ParseInt32 : string -> option Z;
  ParseInt64 : string -> option Z;
  ParseFloat : string -> option Z
}.

(** The error of [safelyParseInt] and of [safelyParseFloat]: the index and
    the text that does not parse. *)
Inductive ArgumentError :=
  | NonIntegerArgument (index : nat) (s : string)
  | NonFloatArgument (index : nat) (s : string).

(** The errors of [parsePropOptions], by format string. *)
Inductive ParseOptionsError :=
  | PropertyNotInt (s : string) (e : ArgumentError)
  | DuplicateOptions (argType : string)
  | NoValuesSpecified (flag : string)
  | ValueNotInt (s : string) (e : ArgumentError)
  | ValueNotInt64 (s : string) (e : ArgumentError)
  | ValueNotFloat (s : string) (e : ArgumentError)
  | ExpectOneValue (flag : string)
  | ValueNotHex (s : string) (e : HexError)
  | AreaIdNotInt (s : string) (e : ArgumentError)
  | TimestampNotInt64 (s : string) (e : ArgumentError)
  | UnknownOption (argType : string).

(** The text an error message quotes: the option, or the value that does
    not parse. *)
Definition errorSubject (e : ParseOptionsError) : string :=
  match e with
  | PropertyNotInt s _ | ValueNotInt s _ | ValueNotInt64 s _ | ValueNotFloat s _
  | ValueNotHex s _ | AreaIdNotInt s _ | TimestampNotInt64 s _ => s
  | DuplicateOptions t | NoValuesSpecified t | ExpectOneValue t | UnknownOption t => t
  end.

Section ParseOptions.
Context {parsers : Parsers}.

Definition safelyParseInt32 (index : nat) (s : string) : ArgumentError + Z :=
  match ParseInt32 s with
  | Some out => inr out
  | None => inl (NonIntegerArgument index s)
  end.

Definition safelyParseInt64 (index : nat) (s : string) : ArgumentError + Z :=
  match ParseInt64 s with
  | Some out => inr out
  | None => inl (NonIntegerArgument index s)
  end.

Definition safelyParseFloat (index : nat) (s : string) : ArgumentError + Z :=
  match ParseFloat s with
  | Some out => inr out
  | None => inl (NonFloatArgument index s)
  end.

(** The loops that parse the values of [-i], [-i64] and [-f]: value [i] is
    parsed with index [currentIndex + i]; the first failure ends the
    parse. *)
Fixpoint parseValues (parse : nat -> string -> ArgumentError + Z)
    (wrap : string -> ArgumentError -> ParseOptionsError)
    (index : nat) (argValues : list string) : ParseOptionsError + list Z :=
  match argValues with
  | [] => inr []
  | s :: rest =>
      match parse index s with
      | inl e => inl (wrap s e)
      | inr x =>
          match parseValues parse wrap (S index) rest with
          | inl e => inl e
          | inr xs => inr (x :: xs)
          end
      end
  end.

Definition setRawValue (raw : RawPropValues) (v : VehiclePropValue) : VehiclePropValue :=
  {| timestamp := timestamp v; areaId := areaId v; prop := prop v;
     status := status v; value := raw |}.

Definition setAreaId (area : Z) (v : VehiclePropValue) : VehiclePropValue :=
  {| timestamp := timestamp v; areaId := area; prop := prop v;
     status := status v; value := value v |}.

(** The body of the [while] loop after the duplicate check: the chain of
    [EqualsIgnoreCase] tests on the option name. *)
Definition parseOneOption (argType : string) (argValues : list string)
    (currentIndex : nat) (v : VehiclePropValue) : ParseOptionsError + VehiclePropValue :=
  let raw := value v in
  if EqualsIgnoreCase argType "-i" then
    match argValues with
    | [] => inl (NoValuesSpecified "-i")
    | _ =>
        match parseValues safelyParseInt32 ValueNotInt currentIndex argValues with
        | inl e => inl e
        | inr xs =>
            inr (setRawValue {| int32Values := xs; int64Values := int64Values raw;
                              floatValues := floatValues raw;
                              byteValues := byteValues raw;
                              stringValue := stringValue raw |} v)
        end
    end
  else if EqualsIgnoreCase argType "-i64" then
    match argValues with
    | [] => inl (NoValuesSpecified "-i64")
    | _ =>
        match parseValues safelyParseInt64 ValueNotInt64 currentIndex argValues with
        | inl e => inl e
        | inr xs =>
            inr (setRawValue {| int32Values := int32Values raw; int64Values := xs;
                              floatValues := floatValues raw;
                              byteValues := byteValues raw;
                              stringValue := stringValue raw |} v)
        end
    end
  else if EqualsIgnoreCase argType "-f" then
    match argValues with
    | [] => inl (NoValuesSpecified "-f")
    | _ =>
        match parseValues safelyParseFloat ValueNotFloat currentIndex argValues with
        | inl e => inl e
        | inr xs =>
            inr (setRawValue {| int32Values := int32Values raw;
                              int64Values := int64Values raw; floatValues := xs;
                              byteValues := byteValues raw;
                              stringValue := stringValue raw |} v)
        end
    end
  else if EqualsIgnoreCase argType "-s" then
    match argValues with
    | [s] =>
        inr (setRawValue {| int32Values := int32Values raw;
                          int64Values := int64Values raw;
                          floatValues := floatValues raw;
                          byteValues := byteValues raw; stringValue := s |} v)
    | _ => inl (ExpectOneValue "-s")
    end
  else if EqualsIgnoreCase argType "-b" then
    match argValues with
    | [s] =>
        match parseHexString s with
        | inl e => inl (ValueNotHex s e)
        | inr bytes => inr (setByteValues bytes v)
        end
    | _ => inl (ExpectOneValue "-b")
    end
  else if EqualsIgnoreCase argType "-a" then
    match argValues with
    | [s] =>
        match safelyParseInt32 currentIndex s with
        | inl e => inl (AreaIdNotInt s e)
        | inr area => inr (setAreaId area v)
        end
    | _ => inl (ExpectOneValue "-a")
    end
  else if EqualsIgnoreCase argType "-t" then
    match argValues with
    | [s] =>
        match safelyParseInt64 currentIndex s with
        | inl e => inl (TimestampNotInt64 s e)
        | inr ts => inr (setTimestamp ts v)
        end
    | _ => inl (ExpectOneValue "-t")
    end
  else inl (UnknownOption argType).

(** The [while (optionIndex < options.size())] loop.  Every iteration moves
    the index forward, so [fuel] iterations are enough when [fuel] is the
    number of options; [None] when the fuel runs out. *)
Fixpoint parseOptionsLoop (fuel : nat) (options : list string) (optionIndex : nat)
    (parsedOptions : list string) (v : VehiclePropValue)
    : option (ParseOptionsError + VehiclePropValue) :=
  match options !! optionIndex with
  | None => Some (inr v)
  | Some argType =>
      match fuel with
      | O => None
      | S fuel' =>
          let currentIndex := S optionIndex in
          let '(argValues, optionIndex') := getOptionValues options currentIndex in
          if bool_decide (argType ∈ parsedOptions)
          then Some (inl (DuplicateOptions argType))
          else
            match parseOneOption argType argValues currentIndex v with
            | inl e => Some (inl e)
            | inr v' =>
                parseOptionsLoop fuel' options optionIndex'
                  (argType :: parsedOptions) v'
            end
      end
  end.

(** [parsePropOptions].  [None] when [options[1]] does not exist (every
    caller checks the size first). *)
Definition parsePropOptions (options : list string)
    : option (ParseOptionsError + VehiclePropValue) :=
  match options !! 1%nat with
  | None => None
  | Some p =>
      match safelyParseInt32 1 p with
      | inl e => Some (inl (PropertyNotInt p e))
      | inr propId =>
          parseOptionsLoop (length options) options 2 [] (keyValue propId 0)
      end
  end.

End ParseOptions.

End DumpArgs.

(** ** A concrete platform

    The parameters instantiated with the values the AIDL definitions and
    [PropertyUtils.h] give, a user HAL that answers no request, OBD2 helpers
    that read and clear the store, a clock that advances by one millisecond
    per reading, and the dump-argument parser of the file with
    [android::base::ParseInt] for its integers. *)

(** [isspace] in the C locale. *)
Definition isSpace (c : ascii) : bool :=
  let n := N_of_ascii c in
  (((9 <=? n) && (n <=? 13)) || (n =? 32))%N.

Fixpoint skipSpaces (s : string) : string :=
  match s with
  | String c rest => if isSpace c then skipSpaces rest else s
  | EmptyString => s
  end.

(** The value of a digit or letter, when it is a digit of the base. *)
Definition digitIn (base : Z) (c : ascii) : option Z :=
  let n := Z.of_N (N_of_ascii c) in
  let v := if (48 <=? n) && (n <=? 57) then n - 48
           else if (97 <=? n) && (n <=? 122) then n - 97 + 10
           else if (65 <=? n) && (n <=? 90) then n - 65 + 10
           else base in
  if v <? base then Some v else None.

(** The number a string of digits of the base denotes; none when some
    character is not a digit. *)
Fixpoint readDigits (base acc : Z) (s : string) : option Z :=
  match s with
  | EmptyString => Some acc
  | String c rest =>
      match digitIn base c with
      | Some d => readDigits base (base * acc + d) rest
      | None => None
      end
  end.

(** [android::base::ParseInt] for a signed type with the bounds [lo] and
    [hi]: leading white space is skipped; a following [0x] or [0X] selects
    base 16, anything else base 10; [strtoll] then reads an optional sign (in
    base 10) and at least one digit; the whole string must be read and the
    number must lie within the bounds. *)
Definition ParseInt (lo hi : Z) (s : string) : option Z :=
  let digits base rest :=
    match rest with
    | EmptyString => None
    | _ => readDigits base 0 rest
    end in
  let parsed :=
    match skipSpaces s with
    | String "0"%char (String c rest) as s1 =>
        if bool_decide (c = "x"%char \/ c = "X"%char) then digits 16 rest
        else digits 10 s1
    | String "-"%char rest => Z.opp <$> digits 10 rest
    | String "+"%char rest => digits 10 rest
    | s1 => digits 10 s1
    end in
  match parsed with
  | Some z => if (lo <=? z) && (z <=? hi) then Some z else None
  | None => None
  end.

(** The parsers of the concrete examples: [ParseInt] at [int32_t] and at
    [int64_t]; no example gives a float. *)
Definition referenceParsers : DumpArgs.Parsers :=
  {| DumpArgs.ParseInt32 := ParseInt (- 2 ^ 31) (2 ^ 31 - 1);
     DumpArgs.ParseInt64 := ParseInt (- 2 ^ 63) (2 ^ 63 - 1);
     DumpArgs.ParseFloat := fun _ => None |}.

(** [parsePropOptions] with these parsers, in the form the facade takes it:
    the value parsed, or the text the error message quotes. *)
Definition referenceParsePropOptions (options : list string)
    : string + VehiclePropValue :=
  match @DumpArgs.parsePropOptions referenceParsers options with
  | Some (inr v) => inr v
  | Some (inl e) => inl (DumpArgs.errorSubject e)
  | None => inl EmptyString
  end.

Definition referenceReportToInt (r : VehicleApPowerStateReport.t) : Z :=
  match r with
  | VehicleApPowerStateReport.WAIT_FOR_VHAL => 1
  | VehicleApPowerStateReport.DEEP_SLEEP_ENTRY => 2
  | VehicleApPowerStateReport.DEEP_SLEEP_EXIT => 3
  | VehicleApPowerStateReport.SHUTDOWN_POSTPONE => 4
  | VehicleApPowerStateReport.SHUTDOWN_START => 5
  | VehicleApPowerStateReport.ON => 6
  | VehicleApPowerStateReport.SHUTDOWN_PREPARE => 7
  | VehicleApPowerStateReport.SHUTDOWN_CANCELLED => 8
  | VehicleApPowerStateReport.HIBERNATION_ENTRY => 9
  | VehicleApPowerStateReport.HIBERNATION_EXIT => 10
  end.

Definition referenceReqToInt (r : VehicleApPowerStateReq.t) : Z :=
  match r with
  | VehicleApPowerStateReq.ON => 0
  | VehicleApPowerStateReq.SHUTDOWN_PREPARE => 1
  | VehicleApPowerStateReq.CANCEL_SHUTDOWN => 2
  | VehicleApPowerStateReq.FINISHED => 3
  end.

Definition HVAC_FAN_SPEED : Z := 356517120.
Definition HVAC_FAN_DIRECTION : Z := 356517121.
Definition INITIAL_USER_INFO : Z := 299896583.

Definition referencePlatform : Platform :=
  {| AP_POWER_STATE_REQ := 289475072;
     AP_POWER_STATE_REPORT := 289475073;
     VEHICLE_MAP_SERVICE := 299895808;
     HVAC_POWER_ON := 354419984;
     OBD2_FREEZE_FRAME := 299896065;
     OBD2_FREEZE_FRAME_INFO := 299896066;
     OBD2_FREEZE_FRAME_CLEAR := 299896067;
     ECHO_REVERSE_BYTES := 560998930;
     HVAC_POWER_PROPERTIES := [HVAC_FAN_SPEED; HVAC_FAN_DIRECTION];
     HVAC_ALL := 117;
     reportToInt := referenceReportToInt;
     reqToInt := referenceReqToInt;
     clockAt := fun n => 1000000 * Z.of_nat n;
     UserHal := unit;
     userHal_isSupported := fun p => bool_decide (p = INITIAL_USER_INFO);
     userHal_onGetProperty := fun _ u => (Ok None, u);
     userHal_onSetProperty := fun _ u => (Ok None, u);
     obd2_getObd2FreezeFrame := readValue;
     obd2_getObd2DtcInfo := fun _ => Err NOT_AVAILABLE;
     obd2_clearObd2FreezeFrames :=
       fun _ s => (Ok tt, removeValuesForProperty 299896065 s);
     parsePropOptions := referenceParsePropOptions |}.

(** A freshly constructed facade around a given store: no listener, no
    saved property, no timer callback, both request queues running. *)
Definition newHardware {P : Platform} (u : UserHal) (s : VehiclePropertyStore)
    : FakeVehicleHardware :=
  {| mServerSidePropStore := setOnValueChangeCallback s;
     mFakeUserHal := u;
     mRecurrentTimer := ∅;
     mSavedProps := ∅;
     mRecurrentActions := ∅;
     mOnPropertyChangeCallback := None;
     mPendingGetValueRequests := {| queueItems := []; queueIsActive := true |};
     mPendingSetValueRequests := {| queueItems := []; queueIsActive := true |};
     clockReads := 0;
     allocatedActions := 0;
     propertyChangeEvents := [] |}.

Definition globalConfig (propId : Z) : VehiclePropConfig :=
  {| config_prop := propId; config_access := 3; config_changeMode := 1;
     config_areaIds := [] |}.

Definition int32Value (propId area ts : Z) (xs : list Z) : VehiclePropValue :=
  {| timestamp := ts; areaId := area; prop := propId; status := AVAILABLE;
     value := {| int32Values := xs; int64Values := []; floatValues := [];
                 byteValues := []; stringValue := EmptyString |} |}.


(** ** Notions the properties are stated with *)

(** The double [f] truncated is [z]: [f] is finite, [z] has the sign of
    [f] or is 0, and [|z| <= |f| < |z| + 1].  The value of a finite double is
    [m * 2 ^ e] up to sign, as [Prim2SF] gives it; both sides of each
    comparison are scaled by a power of two, to stay within the integers. *)
Definition truncatesTo (f : float) (z : Z) : Prop :=
  match Prim2SF f with
  | S754_zero _ => z = 0
  | S754_finite negative m e =>
      (if negative then z <= 0 else 0 <= z)
      /\ Z.abs z * 2 ^ Z.max 0 (- e) <= Z.pos m * 2 ^ Z.max 0 e
      /\ Z.pos m * 2 ^ Z.max 0 e < (Z.abs z + 1) * 2 ^ Z.max 0 (- e)
  | _ => False
  end.

Section Notions.
Context {P : Platform}.

(** The property ids that [maybeGetSpecialValue] answers itself. *)
Definition hasSpecialGet (propId : Z) : bool :=
  userHal_isSupported propId
  || (propId =? OBD2_FREEZE_FRAME)
  || (propId =? OBD2_FREEZE_FRAME_INFO)
  || (propId =? ECHO_REVERSE_BYTES).

(** The property ids that [maybeSetSpecialValue] handles itself whatever the
    state of the store. *)
Definition hasSpecialSet (propId : Z) : bool :=
  userHal_isSupported propId
  || (propId =? AP_POWER_STATE_REPORT)
  || (propId =? VEHICLE_MAP_SERVICE)
  || (propId =? OBD2_FREEZE_FRAME_CLEAR).

(** What a drained batch of get requests is expected to produce: one result
    per request, in batch order, each tagged with the callback of its
    request; the requests are handled one after the other. *)
Fixpoint spec_batchResults (batch : list (GetValueRequest.t * nat))
    (hw : FakeVehicleHardware) : list (nat * GetValueResult.t) * FakeVehicleHardware :=
  match batch with
  | [] => ([], hw)
  | (request, callback) :: rest =>
      let '(result, hw1) := handleGetValueRequest request hw in
      let '(results, hw2) := spec_batchResults rest hw1 in
      ((callback, result) :: results, hw2)
  end.

(** The results of one callback, in batch order. *)
Definition spec_resultsFor {R} (callback : nat) (results : list (nat * R)) : list R :=
  (filter (fun x => x.1 = callback) results).*2.

(** The [AP_POWER_STATE_REQ] value that [createApPowerStateReq] builds at
    clock reading [ts]. *)
Definition apPowerStateReq (state : VehicleApPowerStateReq.t) (ts : Z)
    : VehiclePropValue :=
  {| timestamp := ts; areaId := 0; prop := AP_POWER_STATE_REQ;
     status := AVAILABLE;
     value := {| int32Values := [reqToInt state; 0]; int64Values := [];
                 floatValues := []; byteValues := [];
                 stringValue := EmptyString |} |}.

(** Every stored value sits under the key made of its own property id and
    area id. *)
Definition storeWellFormed (s : VehiclePropertyStore) : Prop :=
  forall p a t v, mValues s !! (p, a, t) = Some v -> prop v = p /\ areaId v = a.

(** The operations that change a property store. *)
Inductive StoreOp :=
  | OpRegister (cfg : VehiclePropConfig) (tokenFn : option TokenFunction)
  | OpSetCallback
  | OpWrite (v : VehiclePropValue) (updateStatus : bool)
  | OpRemove (v : VehiclePropValue)
  | OpRemoveForProperty (propId : Z).

Definition runStoreOp (op : StoreOp) (s : VehiclePropertyStore) : VehiclePropertyStore :=
  match op with
  | OpRegister cfg tokenFn => registerProperty cfg tokenFn s
  | OpSetCallback => setOnValueChangeCallback s
  | OpWrite v updateStatus => (writeValue v updateStatus s).1.2
  | OpRemove v => removeValue v s
  | OpRemoveForProperty propId => removeValuesForProperty propId s
  end.

Definition runStoreOps (ops : list StoreOp) (s : VehiclePropertyStore)
    : VehiclePropertyStore :=
  foldl (fun acc op => runStoreOp op acc) s ops.

(** The events a change of [v] that the store notifies delivers: one call of
    the facade's listener, when one is registered and the store has its own
    listener installed. *)
Definition changeEvents (hw : FakeVehicleHardware) (v : VehiclePropValue)
    : list (nat * list VehiclePropValue) :=
  match mOnPropertyChangeCallback hw with
  | Some callback =>
      if mOnValueChangeCallback (mServerSidePropStore hw) then [(callback, [v])]
      else []
  | None => []
  end.

(** The operation is a write for the key [(propId, area)]. *)
Definition writesKey (propId area : Z) (op : StoreOp) : Prop :=
  match op with
  | OpWrite v _ => prop v = propId /\ areaId v = area
  | _ => False
  end.

Definition actionKey (action : RecurrentAction) : Z * Z :=
  (actionPropId action, actionAreaId action).

(** Some callback registered with the timer refreshes the key. *)
Definition timerRefreshes (key : Z * Z) (hw : FakeVehicleHardware) : Prop :=
  exists handle info,
    mRecurrentTimer hw !! handle = Some info /\ actionKey (timerAction info) = key.

(** How [mRecurrentActions], the timer and the allocation counter relate in
    every state that [updateSampleRate] can reach: a registered callback is
    filed under its own handle and is the action recorded for its key, a
    recorded action was allocated earlier and captured its key, and no two
    keys share a handle. *)
Definition recurrentActionsConsistent (hw : FakeVehicleHardware) : Prop :=
  (forall handle info,
     mRecurrentTimer hw !! handle = Some info ->
     actionHandle (timerAction info) = handle
     /\ mRecurrentActions hw !! actionKey (timerAction info) = Some (timerAction info))
  /\ (forall key action,
        mRecurrentActions hw !! key = Some action ->
        (actionHandle action < allocatedActions hw)%nat /\ actionKey action = key)
  /\ (forall key1 key2 action1 action2,
        mRecurrentActions hw !! key1 = Some action1 ->
        mRecurrentActions hw !! key2 = Some action2 ->
        actionHandle action1 = actionHandle action2 -> key1 = key2).

(** A sequence of [updateSampleRate] calls. *)
Fixpoint runUpdateSampleRate (calls : list (Z * Z * float)) (hw : FakeVehicleHardware)
    : option FakeVehicleHardware :=
  match calls with
  | [] => Some hw
  | (propId, area, sampleRate) :: rest =>
      match updateSampleRate propId area sampleRate hw with
      | Some (_, hw1) => runUpdateSampleRate rest hw1
      | None => None
      end
  end.

(** The most recent call for the key asked for a non-zero rate ([false] when
    there was no call for the key). *)
Definition lastRateNonzero (key : Z * Z) (calls : list (Z * Z * float)) : bool :=
  foldl (fun acc call =>
           if bool_decide (call.1 = key) then negb (call.2 =? 0)%float else acc)
        false calls.

(** Some call for the key asked for a non-zero rate. *)
Definition someRateNonzero (key : Z * Z) (calls : list (Z * Z * float)) : bool :=
  existsb (fun call => bool_decide (call.1 = key) && negb (call.2 =? 0)%float) calls.

End Notions.

(** ** Concrete states on the reference platform *)

Definition areaConfig (propId : Z) (areas : list Z) : VehiclePropConfig :=
  {| config_prop := propId; config_access := 3; config_changeMode := 1;
     config_areaIds := areas |}.

(** A store with [HVAC_POWER_ON] and [HVAC_FAN_SPEED] registered for the
    [HVAC_ALL] area, HVAC power stored as the single int32 0 and a fan speed
    of 3 stored. *)
Definition hvacOffStore : VehiclePropertyStore :=
  runStoreOps
    [OpRegister (areaConfig 354419984 [117]) None;
     OpRegister (areaConfig HVAC_FAN_SPEED [117]) None;
     OpWrite (int32Value 354419984 117 10 [0]) true;
     OpWrite (int32Value HVAC_FAN_SPEED 117 20 [3]) true]
    emptyStore.

Definition hvacOffHardware : @FakeVehicleHardware referencePlatform :=
  @newHardware referencePlatform tt hvacOffStore.

(** A store with one global int32 property, 1000, holding 7 written at
    time 5. *)
Definition oneValueStore : VehiclePropertyStore :=
  runStoreOps
    [OpRegister (globalConfig 1000) None;
     OpRegister (globalConfig 1001) None;
     OpWrite (int32Value 1000 0 5 [7]) true]
    emptyStore.

(** The facade around [oneValueStore] after seven clock readings. *)
Definition oneValueHardware : @FakeVehicleHardware referencePlatform :=
  (Nat.iter 7 (fun hw => (@elapsedRealtimeNano referencePlatform hw).2)
     (@newHardware referencePlatform tt oneValueStore)).

(** The state a [setValue] call leaves (the state itself when the call is
    undefined). *)
Definition afterSetValue {P : Platform} (v : VehiclePropValue)
    (hw : FakeVehicleHardware) : FakeVehicleHardware :=
  match setValue v hw with
  | Some (_, hw1) => hw1
  | None => hw
  end.

(** A facade with both power-state properties registered, an
    [AP_POWER_STATE_REQ] value with state ON already stored, and listener 1
    registered. *)
Definition powerStore : VehiclePropertyStore :=
  runStoreOps
    [OpRegister (globalConfig 289475072) None;
     OpRegister (globalConfig 289475073) None;
     OpWrite (int32Value 289475072 0 3 [0; 0]) true]
    emptyStore.

Definition powerHardware : @FakeVehicleHardware referencePlatform :=
  @registerOnPropertyChangeEvent referencePlatform 1
    (@newHardware referencePlatform tt powerStore).

(** A report with the given state. *)
Definition powerReport (state : Z) : VehiclePropValue :=
  int32Value 289475073 0 0 [state; 0].

(** The state a store write through the facade leaves. *)
Definition afterStoreWrite {P : Platform} (v : VehiclePropValue) (updateStatus : bool)
    (hw : FakeVehicleHardware) : FakeVehicleHardware :=
  (storeWriteValue v updateStatus hw).2.

(** The facade around [oneValueStore], listener 1 registered, after
    [updateSampleRate 1000 0 1000]: the callback is due every millisecond. *)
Definition sampledHardware : @FakeVehicleHardware referencePlatform :=
  let hw := @registerOnPropertyChangeEvent referencePlatform 1
              (@newHardware referencePlatform tt oneValueStore) in
  match @updateSampleRate referencePlatform 1000 0 1000%float hw with
  | Some (_, hw1) => hw1
  | None => hw
  end.

(** The state a sequence of [updateSampleRate] calls leaves (the initial
    state when the sequence is undefined). *)
Definition afterUpdateSampleRate {P : Platform} (calls : list (Z * Z * float))
    (hw : FakeVehicleHardware) : FakeVehicleHardware :=
  match runUpdateSampleRate calls hw with
  | Some hw1 => hw1
  | None => hw
  end.

(** The state a firing of a timer callback leaves. *)
Definition afterFire {P : Platform} (handle : nat) (hw : FakeVehicleHardware)
    : FakeVehicleHardware :=
  match fireTimerCallback handle hw with
  | Some hw1 => hw1
  | None => hw
  end.


(** * More notions on the facade *)

Section MoreNotions.
Context {P : Platform}.

(** What a drained batch of set requests is expected to produce: one result
    per request, in batch order, each tagged with the callback of its
    request; the requests are handled one after the other. *)
Fixpoint spec_setBatchResults (batch : list (SetValueRequest.t * nat))
    (hw : FakeVehicleHardware)
    : option (list (nat * SetValueResult.t) * FakeVehicleHardware) :=
  match batch with
  | [] => Some ([], hw)
  | (request, callback) :: rest =>
      match handleSetValueRequest request hw with
      | None => None
      | Some (result, hw1) =>
          match spec_setBatchResults rest hw1 with
          | None => None
          | Some (results, hw2) => Some ((callback, result) :: results, hw2)
          end
      end
  end.

(** The loop of [getEchoReverseBytes]: for [i] from 0 to [byteSize - 1] the
    byte at [i] of the value read becomes [byteValues[byteSize - 1 - i]],
    where [byteValues] is the copy made before the loop. *)
Definition echoReverseLoop (byteValues : list Z) : list Z :=
  let byteSize := length byteValues in
  foldl (fun gotValue i => <[i := byteValues !!! (byteSize - 1 - i)%nat]> gotValue)
    byteValues (seq 0 byteSize).

(** The pending set requests of a state and what one worker cycle makes of
    them (nothing when the cycle is undefined). *)
Definition afterSetRequestsOnce (hw : FakeVehicleHardware)
    : list (nat * list SetValueResult.t) * FakeVehicleHardware :=
  match handleSetRequestsOnce hw with
  | Some r => r
  | None => ([], hw)
  end.

End MoreNotions.

(** Three set requests pending on [oneValueHardware]: callback 5 sets
    property 1000 and the unregistered property 4242, callback 6 sets
    property 1001. *)
Definition setBatchHardware : @FakeVehicleHardware referencePlatform :=
  let request id v := {| SetValueRequest.requestId := id; SetValueRequest.value := v |} in
  (@setValues referencePlatform 6 [request 23 (int32Value 1001 0 0 [1])]
     (@setValues referencePlatform 5
        [request 21 (int32Value 1000 0 0 [8]); request 22 (int32Value 4242 0 0 [1])]
        oneValueHardware).2).2.

(** * The dump commands that parse a value *)

(** The text [dumpSetProperties], [dumpGetPropertyWithArg] and
    [dumpInjectEvent] return, by format string: the message of
    [checkArgumentsSize], the message of [parsePropOptions],
    [Set property: %s], [failed to set property: %s, error: %s],
    [failed to read property value: %d, error: %s, code: %d],
    [Get property result: %s] and [Event for property: %d injected]. *)
Inductive DumpCommandOutput :=
  | ArgumentsRejected (msg : DumpOutput)
  | OptionsRejected (e : DumpArgs.ParseOptionsError)
  | PropertySet (v : VehiclePropValue)
  | FailedToSetProperty (v : VehiclePropValue) (code : StatusCode)
  | FailedToReadPropertyValue (propId : Z) (code : StatusCode)
  | GetPropertyResult (v : VehiclePropValue)
  | EventInjected (propId : Z).

Section DumpCommands.
Context {P : Platform} {parsers : DumpArgs.Parsers}.

(** [dumpSetProperties]; undefined where [maybeSetSpecialValue] is. *)
Definition dumpSetProperties (options : list string) (hw : FakeVehicleHardware)
    : option (DumpCommandOutput * FakeVehicleHardware) :=
  match checkArgumentsSize options 3 with
  | Some msg => Some (ArgumentsRejected msg, hw)
  | None =>
      match DumpArgs.parsePropOptions options with
      | None => None
      | Some (inl e) => Some (OptionsRejected e, hw)
      | Some (inr parsed) =>
          match maybeSetSpecialValue parsed hw with
          | None => None
          | Some (IsSpecial setResult, hw1) =>
              match setResult with
              | Ok _ => Some (PropertySet parsed, hw1)
              | Err code => Some (FailedToSetProperty parsed code, hw1)
              end
          | Some (NotSpecial, hw1) =>
              let '(now, hw2) := elapsedRealtimeNano hw1 in
              let '(setResult, hw3) := storeWriteValue (setTimestamp now parsed) false hw2 in
              match setResult with
              | Ok _ => Some (PropertySet parsed, hw3)
              | Err code => Some (FailedToSetProperty parsed code, hw3)
              end
          end
      end
  end.

(** [dumpGetPropertyWithArg]; [None] only where [parsePropOptions] is. *)
Definition dumpGetPropertyWithArg (options : list string) (hw : FakeVehicleHardware)
    : option (DumpCommandOutput * FakeVehicleHardware) :=
  match checkArgumentsSize options 3 with
  | Some msg => Some (ArgumentsRejected msg, hw)
  | None =>
      match DumpArgs.parsePropOptions options with
      | None => None
      | Some (inl e) => Some (OptionsRejected e, hw)
      | Some (inr parsed) =>
          let '(special, hw1) := maybeGetSpecialValue parsed hw in
          let result :=
            match special with
            | IsSpecial r => r
            | NotSpecial => readValue parsed (mServerSidePropStore hw1)
            end in
          match result with
          | Err code => Some (FailedToReadPropertyValue (prop parsed) code, hw1)
          | Ok x => Some (GetPropertyResult x, hw1)
          end
      end
  end.

(** [dumpInjectEvent] *)
Definition dumpInjectEvent (options : list string) (hw : FakeVehicleHardware)
    : option (DumpCommandOutput * FakeVehicleHardware) :=
  match checkArgumentsSize options 3 with
  | Some msg => Some (ArgumentsRejected msg, hw)
  | None =>
      match DumpArgs.parsePropOptions options with
      | None => None
      | Some (inl e) => Some (OptionsRejected e, hw)
      | Some (inr parsed) =>
          Some (EventInjected (prop parsed), eventFromVehicleBus parsed hw)
      end
  end.

End DumpCommands.

(** * Construction: the default configurations and their initial values *)

(** [defaultconfig::ConfigDeclaration]: a configuration, the initial value of
    every area and the initial values given per area. *)
Record ConfigDeclaration := {
  config : VehiclePropConfig;
  initialValue : RawPropValues;
  initialAreaValues : gmap Z RawPropValues
}.

(** What [init] takes from code outside the file: the table of default
    configurations, [isGlobalProp] of [PropertyUtils.h],
    [FakeObd2Frame::isDiagnosticProperty] and the two initialisers of
    [FakeObd2Frame], which work on the property store, the id of
    [OBD2_LIVE_FRAME], the boolean system property that enables vendor
    overrides, and the events that [JsonFakeValueGenerator::getAllEvents]
    reads from the JSON files of the override directory, in the order
    [readdir] lists the files. *)
Class DefaultConfigs := {
  OBD2_LIVE_FRAME : Z;
  isGlobalProp : Z -> bool;
  isDiagnosticProperty : VehiclePropConfig -> bool;
  getDefaultConfigs : list ConfigDeclaration;
  initObd2LiveFrame : VehiclePropConfig -> VehiclePropertyStore -> VehiclePropertyStore;
  initObd2FreezeFrame : VehiclePropConfig -> VehiclePropertyStore -> VehiclePropertyStore;
  overrideEnabled : bool;
  overrideEvents : list VehiclePropValue
}.

Section Construction.
Context {P : Platform} {D : DefaultConfigs}.

(** One iteration of the loop of [storePropInitialValue]: the value is
    created with the time read at the start of the iteration, and written
    with [updateStatus = true] when an initial value is found; a failure of
    the write is logged only. *)
Definition storeAreaInitialValue (decl : ConfigDeclaration) (propId curArea : Z)
    (hw : FakeVehicleHardware) : FakeVehicleHardware :=
  let '(now, hw1) := elapsedRealtimeNano hw in
  let created raw :=
    {| timestamp := now; areaId := curArea; prop := propId; status := AVAILABLE;
       value := raw |} in
  if bool_decide (initialAreaValues decl = ∅) then
    if bool_decide (initialValue decl = emptyRawPropValues) then hw1
    else (storeWriteValue (created (initialValue decl)) true hw1).2
  else
    match initialAreaValues decl !! curArea with
    | Some raw => (storeWriteValue (created raw) true hw1).2
    | None => hw1
    end.

(** [storePropInitialValue]: a global property has the single area 0,
    whatever area configurations it declares. *)
Definition storePropInitialValue (decl : ConfigDeclaration) (hw : FakeVehicleHardware)
    : FakeVehicleHardware :=
  let vehiclePropConfig := config decl in
  let propId := config_prop vehiclePropConfig in
  let globalProp := isGlobalProp propId in
  let numAreas :=
    if globalProp then 1%nat else length (config_areaIds vehiclePropConfig) in
  foldl (fun h i =>
           let curArea :=
             if globalProp then 0 else config_areaIds vehiclePropConfig !!! i in
           storeAreaInitialValue decl propId curArea h)
        hw (seq 0 numAreas).

(** [overrideProperties] on the events found, and [maybeOverrideProperties]. *)
Definition overrideProperties (propValues : list VehiclePropValue)
    (hw : FakeVehicleHardware) : FakeVehicleHardware :=
  foldl (fun h v =>
           let '(now, h1) := elapsedRealtimeNano h in
           (storeWriteValue (setTimestamp now v) true h1).2)
        hw propValues.

Definition maybeOverrideProperties (hw : FakeVehicleHardware) : FakeVehicleHardware :=
  if overrideEnabled then overrideProperties overrideEvents hw else hw.

(** The token function that [init] gives [OBD2_FREEZE_FRAME]. *)
Definition timestampToken : TokenFunction := fun propValue => timestamp propValue.

(** The body of the loop of [init] over the default configurations. *)
Definition initConfig (decl : ConfigDeclaration) (hw : FakeVehicleHardware)
    : FakeVehicleHardware :=
  let cfg := config decl in
  let tokenFunction :=
    if config_prop cfg =? OBD2_FREEZE_FRAME then Some timestampToken else None in
  let hw1 := withStore (registerProperty cfg tokenFunction (mServerSidePropStore hw)) hw in
  if isDiagnosticProperty cfg then hw1 else storePropInitialValue decl hw1.

(** [init].  [None] when [getConfig] fails for [OBD2_LIVE_FRAME] or
    [OBD2_FREEZE_FRAME], whose results the code dereferences unchecked. *)
Definition init (hw : FakeVehicleHardware) : option FakeVehicleHardware :=
  let hw1 := foldl (fun h decl => initConfig decl h) hw getDefaultConfigs in
  let hw2 := maybeOverrideProperties hw1 in
  match getConfig OBD2_LIVE_FRAME (mServerSidePropStore hw2) with
  | Err _ => None
  | Ok liveFrameConfig =>
      let hw3 :=
        withStore (initObd2LiveFrame liveFrameConfig (mServerSidePropStore hw2)) hw2 in
      match getConfig OBD2_FREEZE_FRAME (mServerSidePropStore hw3) with
      | Err _ => None
      | Ok freezeFrameConfig =>
          let hw4 :=
            withStore (initObd2FreezeFrame freezeFrameConfig (mServerSidePropStore hw3))
              hw3 in
          Some (withStore (setOnValueChangeCallback (mServerSidePropStore hw4)) hw4)
      end
  end.

(** The areas [storePropInitialValue] visits, in order. *)
Definition initialAreas (decl : ConfigDeclaration) : list Z :=
  if isGlobalProp (config_prop (config decl)) then [0]
  else config_areaIds (config decl).

(** The initial value a declaration gives an area: the common initial
    value when no per-area value is declared at all (none when it is the
    empty value), otherwise the value declared for the area, if any. *)
Definition initialValueFor (decl : ConfigDeclaration) (area : Z) : option RawPropValues :=
  if bool_decide (initialAreaValues decl = ∅) then
    if bool_decide (initialValue decl = emptyRawPropValues) then None
    else Some (initialValue decl)
  else initialAreaValues decl !! area.

(** The record [init] registers for a declaration. *)
Definition recordOf (decl : ConfigDeclaration) : PropRecord :=
  {| propConfig := config decl;
     tokenFunction :=
       if config_prop (config decl) =? OBD2_FREEZE_FRAME then Some timestampToken
       else None |}.

(** A step that changes neither listener and, as long as the store has no
    listener, delivers no event. *)
Definition quietStep (hw hw' : FakeVehicleHardware) : Prop :=
  mOnValueChangeCallback (mServerSidePropStore hw')
  = mOnValueChangeCallback (mServerSidePropStore hw)
  /\ mOnPropertyChangeCallback hw' = mOnPropertyChangeCallback hw
  /\ (mOnValueChangeCallback (mServerSidePropStore hw) = false ->
      propertyChangeEvents hw' = propertyChangeEvents hw).

End Construction.

(** * Generating fake data through the dump interface *)

(** The generator a [--genfakedata] command builds, by constructor call:
    [LinearFakeValueGenerator(propId, middleValue, currentValue, dispersion,
    increment, interval)] with the floats as bit patterns,
    [JsonFakeValueGenerator(fileName, repetition)],
    [JsonFakeValueGenerator(true, content, repetition)], and the null
    [std::unique_ptr] that [--startjson] starts from. *)
Inductive Generator :=
  | LinearFakeValueGenerator
      (propId middleValue currentValue dispersion increment interval : Z)
  | JsonFileGenerator (fileName : string) (repetition : Z)
  | JsonContentGenerator (content : string) (repetition : Z)
  | NullGenerator.

(** What [genFakeDataCommand] takes from code outside the file: the
    [GeneratorHub] with its two operations, [hasNext] of a generator just
    built, [std::hash] of a string converted to [int32_t], and the ids of
    [HW_KEY_INPUT] and of the two key actions. *)
Class Generators := {
  GeneratorHub : Type;
  registerGenerator : Z -> Generator -> GeneratorHub -> GeneratorHub;
  unregisterGenerator : Z -> GeneratorHub -> bool * GeneratorHub;
  hasNext : Generator -> bool;
  hashString : string -> Z;
  HW_KEY_INPUT : Z;
  ACTION_DOWN : Z;
  ACTION_UP : Z
}.

(** The text [genFakeDataCommand] returns, by format string. *)
Inductive GenFakeDataOutput :=
  | NoSubcommand
  | IncorrectArgumentCount (command : string)
  | FailedToParse (fieldName value type : string)
  | LinearStarted
  | LinearStopped
  | NoLinearGenerator (propId : Z)
  | InvalidJsonFile
  | InvalidJsonContent
  | JsonStarted (cookie : Z)
  | JsonStopped
  | NoJsonGenerator (id : string)
  | KeypressGenerated
  | UnknownCommand (command : string).

Section GenFakeData.
Context {P : Platform} {parsers : DumpArgs.Parsers} {G : Generators}.

(** [createHwInputKeyProp] *)
Definition createHwInputKeyProp (action keyCode targetDisplay : Z)
    (hw : FakeVehicleHardware) : VehiclePropValue * FakeVehicleHardware :=
  let '(now, hw1) := elapsedRealtimeNano hw in
  ({| timestamp := now; areaId := 0; prop := HW_KEY_INPUT; status := AVAILABLE;
      value := {| int32Values := [action; keyCode; targetDisplay]; int64Values := [];
                  floatValues := []; byteValues := [];
                  stringValue := EmptyString |} |}, hw1).

(** [genFakeDataCommand], on the generator hub and the facade.  The
    subcommand is compared exactly. *)
Definition genFakeDataCommand (options : list string) (hub : GeneratorHub)
    (hw : FakeVehicleHardware) : GenFakeDataOutput * GeneratorHub * FakeVehicleHardware :=
  let size := length options in
  let optionAt i := options !!! i in
  match options !! 1%nat with
  | None => (NoSubcommand, hub, hw)
  | Some command =>
      if bool_decide (command = "--startlinear") then
        if negb (size =? 8)%nat then (IncorrectArgumentCount "--startlinear", hub, hw)
        else
          match DumpArgs.ParseInt32 (optionAt 2%nat) with
          | None => (FailedToParse "propId" (optionAt 2%nat) "int", hub, hw)
          | Some propId =>
          match DumpArgs.ParseFloat (optionAt 3%nat) with
          | None => (FailedToParse "middleValue" (optionAt 3%nat) "float", hub, hw)
          | Some middleValue =>
          match DumpArgs.ParseFloat (optionAt 4%nat) with
          | None => (FailedToParse "currentValue" (optionAt 4%nat) "float", hub, hw)
          | Some currentValue =>
          match DumpArgs.ParseFloat (optionAt 5%nat) with
          | None => (FailedToParse "dispersion" (optionAt 5%nat) "float", hub, hw)
          | Some dispersion =>
          match DumpArgs.ParseFloat (optionAt 6%nat) with
          | None => (FailedToParse "increment" (optionAt 6%nat) "float", hub, hw)
          | Some increment =>
          match DumpArgs.ParseInt64 (optionAt 7%nat) with
          | None => (FailedToParse "interval" (optionAt 7%nat) "int", hub, hw)
          | Some interval =>
              let generator :=
                LinearFakeValueGenerator propId middleValue currentValue dispersion
                  increment interval in
              (LinearStarted, registerGenerator propId generator hub, hw)
          end end end end end end
      else if bool_decide (command = "--stoplinear") then
        if negb (size =? 3)%nat then (IncorrectArgumentCount "--stoplinear", hub, hw)
        else
          match DumpArgs.ParseInt32 (optionAt 2%nat) with
          | None => (FailedToParse "propId" (optionAt 2%nat) "int", hub, hw)
          | Some propId =>
              let '(found, hub1) := unregisterGenerator propId hub in
              if found then (LinearStopped, hub1, hw)
              else (NoLinearGenerator propId, hub1, hw)
          end
      else if bool_decide (command = "--startjson") then
        if negb (size =? 4)%nat && negb (size =? 5)%nat
        then (IncorrectArgumentCount "--startjson", hub, hw)
        else
          let parsedRepetition :=
            if (size =? 5)%nat then DumpArgs.ParseInt32 (optionAt 4%nat) else Some (-1) in
          match parsedRepetition with
          | None => (FailedToParse "repetition" (optionAt 4%nat) "int", hub, hw)
          | Some repetition =>
              let start generator :=
                let cookie := hashString (optionAt 3%nat) in
                (JsonStarted cookie, registerGenerator cookie generator hub, hw) in
              if bool_decide (optionAt 2%nat = "--path") then
                let generator := JsonFileGenerator (optionAt 3%nat) repetition in
                if negb (hasNext generator) then (InvalidJsonFile, hub, hw)
                else start generator
              else if bool_decide (optionAt 2%nat = "--content") then
                let generator := JsonContentGenerator (optionAt 3%nat) repetition in
                if negb (hasNext generator) then (InvalidJsonContent, hub, hw)
                else start generator
              else start NullGenerator
          end
      else if bool_decide (command = "--stopjson") then
        if negb (size =? 3)%nat then (IncorrectArgumentCount "--stopjson", hub, hw)
        else
          match DumpArgs.ParseInt32 (optionAt 2%nat) with
          | None => (FailedToParse "cookie" (optionAt 2%nat) "int", hub, hw)
          | Some cookie =>
              let '(found, hub1) := unregisterGenerator cookie hub in
              if found then (JsonStopped, hub1, hw)
              else (NoJsonGenerator (optionAt 2%nat), hub1, hw)
          end
      else if bool_decide (command = "--keypress") then
        if negb (size =? 4)%nat then (IncorrectArgumentCount "--keypress", hub, hw)
        else
          match DumpArgs.ParseInt32 (optionAt 2%nat) with
          | None => (FailedToParse "keyCode" (optionAt 2%nat) "int", hub, hw)
          | Some keyCode =>
          match DumpArgs.ParseInt32 (optionAt 3%nat) with
          | None => (FailedToParse "display" (optionAt 3%nat) "int", hub, hw)
          | Some display =>
              let '(down, hw1) := createHwInputKeyProp ACTION_DOWN keyCode display hw in
              let hw2 := onValueChangeCallback down hw1 in
              let '(up, hw3) := createHwInputKeyProp ACTION_UP keyCode display hw2 in
              let hw4 := onValueChangeCallback up hw3 in
              (KeypressGenerated, hub, hw4)
          end end
      else (UnknownCommand command, hub, hw)
  end.

(** The key event [createHwInputKeyProp] builds at a given time. *)
Definition hwKeyInput (action keyCode targetDisplay now : Z) : VehiclePropValue :=
  {| timestamp := now; areaId := 0; prop := HW_KEY_INPUT; status := AVAILABLE;
     value := {| int32Values := [action; keyCode; targetDisplay]; int64Values := [];
                 floatValues := []; byteValues := []; stringValue := EmptyString |} |}.

End GenFakeData.

(** * More concrete states on the reference platform *)

(** A store with [ECHO_REVERSE_BYTES] registered and the bytes 1, 2, 3
    stored at time 4, and the facade around it. *)
Definition echoStored : VehiclePropValue :=
  {| timestamp := 4; areaId := 0; prop := 560998930; status := AVAILABLE;
     value := {| int32Values := []; int64Values := []; floatValues := [];
                 byteValues := [1; 2; 3]; stringValue := EmptyString |} |}.

Definition echoHardware : @FakeVehicleHardware referencePlatform :=
  @newHardware referencePlatform tt
    (runStoreOps [OpRegister (globalConfig 560998930) None; OpWrite echoStored true]
       emptyStore).

(** Four default configurations: the global [INFO_FUEL_CAPACITY] with a
    common initial value, [HVAC_FAN_SPEED] declared for two seats with an
    initial value for the first only, and the two OBD2 frames.  A property is
    global when its area bits say so, the OBD2 initialisers leave the store
    alone and vendor overrides are off. *)
Definition fuelCapacityDecl : ConfigDeclaration :=
  {| config := globalConfig 291504388;
     initialValue := {| int32Values := []; int64Values := [];
                        floatValues := [1181376512]; byteValues := [];
                        stringValue := EmptyString |};
     initialAreaValues := ∅ |}.

Definition fanSpeedInitial : RawPropValues :=
  {| int32Values := [3]; int64Values := []; floatValues := []; byteValues := [];
     stringValue := EmptyString |}.

Definition fanSpeedDecl : ConfigDeclaration :=
  {| config := areaConfig HVAC_FAN_SPEED [49; 68];
     initialValue := emptyRawPropValues;
     initialAreaValues := {[ 49 := fanSpeedInitial ]} |}.

Definition frameDecl (propId : Z) : ConfigDeclaration :=
  {| config := globalConfig propId; initialValue := emptyRawPropValues;
     initialAreaValues := ∅ |}.

Definition referenceConfigs : DefaultConfigs :=
  {| OBD2_LIVE_FRAME := 299896064;
     isGlobalProp := fun propId => Z.land propId 251658240 =? 16777216;
     isDiagnosticProperty :=
       fun cfg => bool_decide (config_prop cfg ∈ [299896064; 299896065; 299896066;
                                                  299896067]);
     getDefaultConfigs :=
       [fuelCapacityDecl; fanSpeedDecl; frameDecl 299896064; frameDecl 299896065];
     initObd2LiveFrame := fun _ s => s;
     initObd2FreezeFrame := fun _ s => s;
     overrideEnabled := false;
     overrideEvents := [] |}.

(** The facade before [init]: an empty store without listener. *)
Definition blankHardware : @FakeVehicleHardware referencePlatform :=
  @withStore referencePlatform emptyStore (@newHardware referencePlatform tt emptyStore).

(** The facade with [HVAC_FAN_SPEED] registered as [init] registers it. *)
Definition fanSpeedHardware : @FakeVehicleHardware referencePlatform :=
  @withStore referencePlatform
    (registerProperty (config fanSpeedDecl) None emptyStore) blankHardware.

(** The state [init] leaves (the state itself when [init] is undefined). *)
Definition afterInit {P : Platform} {D : DefaultConfigs} (hw : FakeVehicleHardware)
    : FakeVehicleHardware :=
  match init hw with
  | Some hw1 => hw1
  | None => hw
  end.

(** A generator hub kept as an association list, every JSON source with
    events, the length of a string as its hash, and the ids of
    [HW_KEY_INPUT], [ACTION_DOWN] and [ACTION_UP]. *)
Definition referenceGenerators : Generators :=
  {| GeneratorHub := list (Z * Generator);
     registerGenerator :=
       fun cookie generator hub =>
         (cookie, generator) :: filter (fun entry => entry.1 ≠ cookie) hub;
     unregisterGenerator :=
       fun cookie hub =>
         (bool_decide (cookie ∈ hub.*1), filter (fun entry => entry.1 ≠ cookie) hub);
     hasNext := fun _ => true;
     hashString := fun s => Z.of_nat (String.length s);
     HW_KEY_INPUT := 289475088;
     ACTION_DOWN := 0;
     ACTION_UP := 1 |}.

(** A store with [OBD2_FREEZE_FRAME] registered as [init] registers it, with
    the timestamp as token, holding one frame stamped 5, and the facade
    around it after seven clock readings. *)
Definition freezeFrameStored : VehiclePropValue := int32Value 299896065 0 5 [1; 2].

Definition freezeFrameHardware : @FakeVehicleHardware referencePlatform :=
  Nat.iter 7 (fun hw => (@elapsedRealtimeNano referencePlatform hw).2)
    (@newHardware referencePlatform tt
       (runStoreOps
          [OpRegister (globalConfig 299896065) (Some timestampToken);
           OpWrite freezeFrameStored true]
          emptyStore)).
(** * Properties *)

(** Closes a conjunction of equations between closed terms by evaluating
    both sides of each. *)
Ltac evaluate_sides :=
  repeat match goal with
         | |- _ /\ _ => split
         | |- ?a = ?b =>
             let a' := eval vm_compute in a in
             let b' := eval vm_compute in b in
             change (a' = b'); reflexivity
         end.

Lemma referencePlatform_ok : PlatformOk referencePlatform.
Proof.
  split.
  - intros a b; destruct a, b; simpl; intros H; first [reflexivity | discriminate H].
  - simpl; repeat split; discriminate.
  - simpl; repeat split; discriminate.
  - simpl; discriminate.
  - simpl. intros p Hp. apply bool_decide_eq_false. intros ->.
    repeat (apply elem_of_cons in Hp as [Hp|Hp]; [discriminate Hp|]).
    by apply elem_of_nil in Hp.
  - simpl. split; [reflexivity|]. intros Hp.
    repeat (apply elem_of_cons in Hp as [Hp|Hp]; [discriminate Hp|]).
    by apply elem_of_nil in Hp.
  - simpl. intros i j Hij. lia.
Qed.

(** ** Properties of the change listener and of the batched entry points *)

Section ListenerAndQueues.
Context {P : Platform}.

Lemma withGetQueue_same (hw : FakeVehicleHardware) :
  withGetQueue (mPendingGetValueRequests hw) hw = hw.
Proof. by destruct hw. Qed.

Lemma withSetQueue_same (hw : FakeVehicleHardware) :
  withSetQueue (mPendingSetValueRequests hw) hw = hw.
Proof. by destruct hw. Qed.

Lemma droppedEvents (vs : list VehiclePropValue) (hw : FakeVehicleHardware) :
  mOnPropertyChangeCallback hw = None ->
  foldl (fun h x => onValueChangeCallback x h) hw vs = hw.
Proof.
  intros Hnone. induction vs as [|x vs IH]; simpl; [done|].
  unfold onValueChangeCallback at 2. by rewrite Hnone.
Qed.

(** C10. With no property-change listener registered, [onValueChangeCallback]
    leaves the facade exactly as it was: the event is dropped, nothing is
    queued, and registering a listener after any number of such events
    delivers none of them.  With a listener registered, one invocation calls
    that listener exactly once, with the one-element batch holding the
    changed value, and changes nothing else. *)
Theorem onValueChangeCallback_drops_or_forwards
    (hw : FakeVehicleHardware) (v : VehiclePropValue) (earlier : list VehiclePropValue) :
  match mOnPropertyChangeCallback hw with
  | None =>
      onValueChangeCallback v hw = hw
      /\ forall callback,
           registerOnPropertyChangeEvent callback
             (foldl (fun h x => onValueChangeCallback x h) hw earlier)
           = registerOnPropertyChangeEvent callback hw
           /\ propertyChangeEvents
                (registerOnPropertyChangeEvent callback
                   (foldl (fun h x => onValueChangeCallback x h) hw earlier))
              = propertyChangeEvents hw
  | Some callback =>
      onValueChangeCallback v hw = withEvent (callback, [v]) hw
      /\ propertyChangeEvents (onValueChangeCallback v hw)
         = propertyChangeEvents hw ++ [(callback, [v])]
  end.
Proof.
  destruct (mOnPropertyChangeCallback hw) as [callback|] eqn:Hcb.
  - unfold onValueChangeCallback. rewrite Hcb. done.
  - split.
    + unfold onValueChangeCallback. by rewrite Hcb.
    + intros callback. by rewrite droppedEvents.
Qed.

Lemma foldl_addGetRequest callback (requests : list GetValueRequest.t)
    (hw : FakeVehicleHardware) :
  foldl (fun h request => addGetRequest request callback h) hw requests =
  if queueIsActive (mPendingGetValueRequests hw)
  then withGetQueue
         {| queueItems := queueItems (mPendingGetValueRequests hw)
                          ++ map (fun request => (request, callback)) requests;
            queueIsActive := true |} hw
  else hw.
Proof.
  revert hw. induction requests as [|request requests IH]; intros hw; simpl.
  - destruct hw as [? ? ? ? ? ? [items active] ? ? ? ?]; simpl.
    destruct active; [|done]. by rewrite app_nil_r.
  - rewrite IH. unfold addGetRequest, push.
    destruct (queueIsActive (mPendingGetValueRequests hw)) eqn:Hactive; simpl.
    + unfold withGetQueue; simpl. by rewrite <- app_assoc.
    + by rewrite withGetQueue_same, Hactive.
Qed.

Lemma foldl_addSetRequest callback (requests : list SetValueRequest.t)
    (hw : FakeVehicleHardware) :
  foldl (fun h request => addSetRequest request callback h) hw requests =
  if queueIsActive (mPendingSetValueRequests hw)
  then withSetQueue
         {| queueItems := queueItems (mPendingSetValueRequests hw)
                          ++ map (fun request => (request, callback)) requests;
            queueIsActive := true |} hw
  else hw.
Proof.
  revert hw. induction requests as [|request requests IH]; intros hw; simpl.
  - destruct hw as [? ? ? ? ? ? ? [items active] ? ? ?]; simpl.
    destruct active; [|done]. by rewrite app_nil_r.
  - rewrite IH. unfold addSetRequest, push.
    destruct (queueIsActive (mPendingSetValueRequests hw)) eqn:Hactive; simpl.
    + unfold withSetQueue; simpl. by rewrite <- app_assoc.
    + by rewrite withSetQueue_same, Hactive.
Qed.

(** C9. [getValues] and [setValues] return [StatusCode::OK] for every
    callback and every list of requests, whatever the requests hold; while
    the handler is running they append one pending request per list element,
    in order and paired with the callback, to the handler's queue and change
    nothing else (after [stop] the pushes are ignored and the status is
    still [OK]). *)
Theorem getValues_setValues_accept (callback : nat)
    (getRequests : list GetValueRequest.t) (setRequests : list SetValueRequest.t)
    (hw : FakeVehicleHardware) :
  getValues callback getRequests hw =
    (OK, if queueIsActive (mPendingGetValueRequests hw)
         then withGetQueue
                {| queueItems := queueItems (mPendingGetValueRequests hw)
                     ++ map (fun request => (request, callback)) getRequests;
                   queueIsActive := true |} hw
         else hw)
  /\ setValues callback setRequests hw =
    (OK, if queueIsActive (mPendingSetValueRequests hw)
         then withSetQueue
                {| queueItems := queueItems (mPendingSetValueRequests hw)
                     ++ map (fun request => (request, callback)) setRequests;
                   queueIsActive := true |} hw
         else hw).
Proof.
  unfold getValues, setValues.
  by rewrite foldl_addGetRequest, foldl_addSetRequest.
Qed.

End ListenerAndQueues.

(** ** The pending-request worker for get requests *)

Section GetWorker.
Context {P : Platform}.

Lemma handleGetValueRequest_result (request : GetValueRequest.t)
    (hw : FakeVehicleHardware) :
  let result := (handleGetValueRequest request hw).1 in
  GetValueResult.requestId result = GetValueRequest.requestId request
  /\ match (getValue (GetValueRequest.prop request) hw).1 with
     | Ok x => GetValueResult.status result = OK
               /\ GetValueResult.prop result = Some x
     | Err code => GetValueResult.status result = code
                   /\ GetValueResult.prop result = None
     end.
Proof.
  unfold handleGetValueRequest.
  destruct (getValue (GetValueRequest.prop request) hw) as [[x|code] hw1]; by simpl.
Qed.

Lemma spec_batchResults_callbacks (batch : list (GetValueRequest.t * nat))
    (hw : FakeVehicleHardware) :
  (spec_batchResults batch hw).1.*1 = batch.*2
  /\ (fun x => GetValueResult.requestId x.2) <$> (spec_batchResults batch hw).1
     = (fun x => GetValueRequest.requestId x.1) <$> batch.
Proof.
  revert hw. induction batch as [|[request callback] rest IH]; intros hw; simpl; [done|].
  pose proof (handleGetValueRequest_result request hw) as [Hid _].
  destruct (handleGetValueRequest request hw) as [result hw1]; simpl in *.
  specialize (IH hw1).
  destruct (spec_batchResults rest hw1) as [results hw2]; simpl in *.
  destruct IH as [IH1 IH2]. split; f_equal; assumption.
Qed.

Lemma handleGetBatch_spec (batch : list (GetValueRequest.t * nat))
    (hw : FakeVehicleHardware) (m : gmap nat (list GetValueResult.t)) :
  handleGetBatch batch hw m =
  (foldl (fun acc x => pushResult x.1 x.2 acc) m (spec_batchResults batch hw).1,
   (spec_batchResults batch hw).2).
Proof.
  revert hw m. induction batch as [|[request callback] rest IH]; intros hw m; simpl; [done|].
  destruct (handleGetValueRequest request hw) as [result hw1].
  rewrite IH. by destruct (spec_batchResults rest hw1) as [results hw2].
Qed.

Lemma lookup_foldl_pushResult {R} (results : list (nat * R)) (m : gmap nat (list R))
    (callback : nat) :
  foldl (fun acc x => pushResult x.1 x.2 acc) m results !! callback =
  match spec_resultsFor callback results with
  | [] => m !! callback
  | rs => Some (default [] (m !! callback) ++ rs)
  end.
Proof.
  revert m. induction results as [|[c r] rest IH]; intros m; [done|].
  simpl. rewrite IH. unfold spec_resultsFor, pushResult.
  rewrite filter_cons. cbn [fst snd]. destruct (decide (c = callback)) as [->|Hne].
  - rewrite lookup_insert_eq, fmap_cons. cbn [snd default].
    destruct ((filter (fun x => x.1 = callback) rest).*2); [done|].
    unfold id. by rewrite <- app_assoc.
  - by rewrite lookup_insert_ne.
Qed.

Lemma spec_resultsFor_nil {R} (callback : nat) (results : list (nat * R)) :
  spec_resultsFor callback results = [] <-> callback ∉ results.*1.
Proof.
  unfold spec_resultsFor. induction results as [|[c r] rest IH]; simpl.
  - split; [intros _; apply not_elem_of_nil | done].
  - rewrite filter_cons. simpl. rewrite not_elem_of_cons.
    destruct (decide (c = callback)) as [->|Hne]; simpl.
    + split; [done | by intros [? _]].
    + rewrite IH. split; [by intros ?; split | by intros [_ ?]].
Qed.

(** C1. One cycle of the get worker on the batch it drains: every request
    yields exactly one result, in batch order, carrying the request's id and
    tagged with the request's callback (status [OK] and the value when
    [getValue] succeeds, the error status and no value when it fails); the
    callbacks invoked are pairwise distinct, a callback is invoked exactly
    when some request of the batch named it, and the list it receives is the
    list of the results of its requests in batch order, failed ones
    included. *)
Theorem handleRequestsOnce_groups_by_callback (hw : FakeVehicleHardware) :
  let batch := queueItems (mPendingGetValueRequests hw) in
  let drained :=
    withGetQueue {| queueItems := [];
                    queueIsActive := queueIsActive (mPendingGetValueRequests hw) |} hw in
  let results := (spec_batchResults batch drained).1 in
  let invocations := (handleGetRequestsOnce hw).1 in
  (results.*1 = batch.*2
   /\ (fun x => GetValueResult.requestId x.2) <$> results
      = (fun x => GetValueRequest.requestId x.1) <$> batch)
  /\ (forall request h,
        let result := (handleGetValueRequest request h).1 in
        GetValueResult.requestId result = GetValueRequest.requestId request
        /\ match (getValue (GetValueRequest.prop request) h).1 with
           | Ok x => GetValueResult.status result = OK
                     /\ GetValueResult.prop result = Some x
           | Err code => GetValueResult.status result = code
                         /\ GetValueResult.prop result = None
           end)
  /\ NoDup invocations.*1
  /\ (forall callback, callback ∈ invocations.*1 <-> callback ∈ batch.*2)
  /\ (forall callback rs,
        (callback, rs) ∈ invocations ->
        rs = spec_resultsFor callback results /\ rs ≠ [])
  /\ (handleGetRequestsOnce hw).2 = (spec_batchResults batch drained).2.
Proof.
  intros batch drained results invocations.
  assert (Hinv : invocations =
            map_to_list (foldl (fun acc x => pushResult x.1 x.2 acc) ∅ results)
          /\ (handleGetRequestsOnce hw).2 = (spec_batchResults batch drained).2).
  { unfold invocations, handleGetRequestsOnce, flush.
    fold batch. fold drained. rewrite handleGetBatch_spec. done. }
  destruct Hinv as [Hinv Hstate].
  pose proof (spec_batchResults_callbacks batch drained) as Hcb. fold results in Hcb.
  assert (Hlookup : forall callback rs,
            (callback, rs) ∈ invocations <->
            rs = spec_resultsFor callback results /\ rs ≠ []).
  { intros callback rs. rewrite Hinv, elem_of_map_to_list, lookup_foldl_pushResult.
    rewrite lookup_empty. simpl.
    destruct (spec_resultsFor callback results) as [|r rs'] eqn:Hrs.
    - split; [done | by intros [-> ?]].
    - split; [by intros [= <-] | by intros [-> _]]. }
  split; [exact Hcb|]. split; [apply handleGetValueRequest_result|].
  split; [rewrite Hinv; apply NoDup_fst_map_to_list|].
  split; [|split; [intros callback rs; apply Hlookup | exact Hstate]].
  intros callback. destruct Hcb as [Hcb1 _]. rewrite <- Hcb1. split.
  - intros Hin. apply list_elem_of_fmap in Hin as [[c rs] [-> Hin]]. simpl.
    apply Hlookup in Hin as [-> Hne].
    destruct (decide (c ∈ results.*1)) as [|Hnot]; [done|].
    by apply spec_resultsFor_nil in Hnot.
  - intros Hin. apply list_elem_of_fmap.
    exists (callback, spec_resultsFor callback results). split; [done|].
    apply Hlookup. split; [done|]. intros Hnil.
    by apply spec_resultsFor_nil in Hnil.
Qed.

End GetWorker.

(** ** Reading and writing through the facade *)

Section GetSet.
Context {P : Platform}.

Lemma hasSpecialGet_false (p : Z) :
  hasSpecialGet p = false ->
  userHal_isSupported p = false /\ (p =? OBD2_FREEZE_FRAME) = false
  /\ (p =? OBD2_FREEZE_FRAME_INFO) = false /\ (p =? ECHO_REVERSE_BYTES) = false.
Proof.
  unfold hasSpecialGet. intros H.
  repeat (apply orb_false_elim in H as [H ?]). done.
Qed.

Lemma hasSpecialSet_false (p : Z) :
  hasSpecialSet p = false ->
  userHal_isSupported p = false /\ (p =? AP_POWER_STATE_REPORT) = false
  /\ (p =? VEHICLE_MAP_SERVICE) = false /\ (p =? OBD2_FREEZE_FRAME_CLEAR) = false.
Proof.
  unfold hasSpecialSet. intros H.
  repeat (apply orb_false_elim in H as [H ?]). done.
Qed.

(** For a property without special get handling, [getValue] is the store's
    [readValue] and touches nothing. *)
Lemma getValue_plain (v : VehiclePropValue) (hw : FakeVehicleHardware) :
  hasSpecialGet (prop v) = false ->
  getValue v hw = (readValue v (mServerSidePropStore hw), hw).
Proof.
  intros H. apply hasSpecialGet_false in H as (Hu & H1 & H2 & H3).
  unfold getValue, maybeGetSpecialValue. rewrite Hu, H1, H2, H3.
  destruct (readValue v (mServerSidePropStore hw)) as [x|code]; [done|].
  by destruct (bool_decide (code = NOT_AVAILABLE)).
Qed.

Lemma runStoreOps_snoc (ops : list StoreOp) (op : StoreOp) (s : VehiclePropertyStore) :
  runStoreOps (ops ++ [op]) s = runStoreOp op (runStoreOps ops s).
Proof. unfold runStoreOps. by rewrite foldl_app. Qed.

Lemma writeValue_values (v : VehiclePropValue) (updateStatus : bool)
    (s : VehiclePropertyStore) :
  mValues (writeValue v updateStatus s).1.2 = mValues s
  \/ exists t, mValues (writeValue v updateStatus s).1.2
               = <[(prop v, areaId v, t) := v]> (mValues s).
Proof.
  unfold writeValue. destruct (mRecordsByPropId s !! prop v) as [rec|]; [|by left].
  destruct (negb (areaPermitted rec (areaId v))); [by left|].
  match goal with |- context [if ?c then _ else _] => destruct c end; [by left|].
  right. by exists (tokenOf rec v).
Qed.

(** A value is stored under a key only if some earlier operation wrote that
    key. *)
Lemma stored_was_written (ops : list StoreOp) (p a t : Z) (x : VehiclePropValue) :
  mValues (runStoreOps ops emptyStore) !! (p, a, t) = Some x ->
  Exists (writesKey p a) ops.
Proof.
  revert x. induction ops as [|op ops IH] using rev_ind; intros x.
  - cbn [runStoreOps foldl emptyStore mValues]. by rewrite lookup_empty.
  - rewrite runStoreOps_snoc, Exists_app.
    set (s := runStoreOps ops emptyStore) in *.
    destruct op as [cfg tok| |v us|v|q]; simpl.
    + intros H. left. eauto.
    + intros H. left. eauto.
    + destruct (writeValue_values v us s) as [->|[t' ->]].
      * intros H. left. eauto.
      * destruct (decide ((prop v, areaId v, t') = (p, a, t))) as [Heq|Hne].
        -- intros _. right. apply Exists_cons_hd. simpl. by inversion Heq.
        -- rewrite lookup_insert_ne by done. intros H. left. eauto.
    + unfold removeValue. destruct (mRecordsByPropId s !! prop v); simpl.
      * intros H. apply lookup_delete_Some in H as [_ H]. left. eauto.
      * intros H. left. eauto.
    + intros H. apply map_lookup_filter_Some in H as [H _]. left. eauto.
Qed.

(** C7. For a registered property that [getValue] does not treat specially,
    if no operation on the store since its creation wrote the key (property
    id, area id), [getValue] fails with [NOT_AVAILABLE] (and changes
    nothing). *)
Theorem getValue_never_written_not_available
    (ops : list StoreOp) (v : VehiclePropValue) (hw : FakeVehicleHardware) :
  hasSpecialGet (prop v) = false ->
  mServerSidePropStore hw = runStoreOps ops emptyStore ->
  is_Some (mRecordsByPropId (mServerSidePropStore hw) !! prop v) ->
  Forall (fun op => ~ writesKey (prop v) (areaId v) op) ops ->
  getValue v hw = (Err NOT_AVAILABLE, hw).
Proof.
  intros Hplain Hstore [rec Hrec] Hnever.
  rewrite getValue_plain by done. f_equal.
  unfold readValue. rewrite Hrec.
  destruct (mValues (mServerSidePropStore hw)
              !! (prop v, areaId v, tokenOf rec v)) as [x|] eqn:Hx; [|done].
  rewrite Hstore in Hx. apply stored_was_written in Hx.
  apply Exists_exists in Hx as (op & Hin & Hw).
  rewrite Forall_forall in Hnever. by destruct (Hnever op Hin).
Qed.

End GetSet.

(** C7 at a concrete state: property 1001 is registered in [oneValueStore]
    and only property 1000 was ever written. *)
Lemma getValue_never_written_witness :
  @getValue referencePlatform (keyValue 1001 0) oneValueHardware
  = (Err NOT_AVAILABLE, oneValueHardware).
Proof.
  apply (@getValue_never_written_not_available referencePlatform
           [OpRegister (globalConfig 1000) None;
            OpRegister (globalConfig 1001) None;
            OpWrite (int32Value 1000 0 5 [7]) true;
            OpSetCallback]).
  - reflexivity.
  - reflexivity.
  - vm_compute. eauto.
  - repeat constructor; simpl; intros []; discriminate.
Defined.

Section SetThenGet.
Context {P : Platform} {HP : PlatformOk P}.

Lemma setValue_plain (v : VehiclePropValue) (hw : FakeVehicleHardware) :
  hasSpecialSet (prop v) = false ->
  setValue v hw =
  if isHvacPropAndHvacNotAvailable (prop v) hw then Some (Err NOT_AVAILABLE, hw)
  else
    let '(writeResult, hw1) :=
      storeWriteValue (setTimestamp (clockAt (clockReads hw)) v) false
        (elapsedRealtimeNano hw).2 in
    Some (match writeResult with Err code => Err code | Ok _ => Ok tt end, hw1).
Proof.
  intros H. apply hasSpecialSet_false in H as (Hu & H1 & H2 & H3).
  unfold setValue, maybeSetSpecialValue. rewrite Hu, H1, H2, H3.
  destruct (isHvacPropAndHvacNotAvailable (prop v) hw); [done|].
  cbn [elapsedRealtimeNano snd].
  match goal with |- context [storeWriteValue ?a ?b ?c] =>
    destruct (storeWriteValue a b c) as [[u|code] hw3] end; done.
Qed.

Lemma storeWriteValue_store (v : VehiclePropValue) (updateStatus : bool)
    (hw : FakeVehicleHardware) :
  (storeWriteValue v updateStatus hw).1 = (writeValue v updateStatus (mServerSidePropStore hw)).1.1
  /\ mServerSidePropStore (storeWriteValue v updateStatus hw).2
     = (writeValue v updateStatus (mServerSidePropStore hw)).1.2.
Proof.
  unfold storeWriteValue.
  destruct (writeValue v updateStatus (mServerSidePropStore hw)) as [[r s] [x|]]; simpl.
  - unfold onValueChangeCallback. simpl. by destruct (mOnPropertyChangeCallback hw).
  - done.
Qed.

End SetThenGet.

(** ** HVAC power *)

Section Hvac.
Context {P : Platform} {HP : PlatformOk P}.

(** The set path: an HVAC-power-dependent property cannot be set while the
    stored [HVAC_POWER_ON] of the [HVAC_ALL] area is the single int32 0. *)
Lemma setValue_hvac_power_off (v powerOn : VehiclePropValue) (hw : FakeVehicleHardware) :
  prop v ∈ HVAC_POWER_PROPERTIES ->
  readValueById HVAC_POWER_ON HVAC_ALL 0 (mServerSidePropStore hw) = Ok powerOn ->
  int32Values (value powerOn) = [0] ->
  setValue v hw = Some (Err NOT_AVAILABLE, hw).
Proof.
  intros Hin Hread Hzero.
  unfold setValue, maybeSetSpecialValue.
  rewrite (hvac_not_userHal _ Hin).
  unfold isHvacPropAndHvacNotAvailable.
  rewrite bool_decide_eq_true_2 by done. by rewrite Hread, Hzero.
Qed.

End Hvac.

Lemma setValue_hvac_power_off_witness :
  @setValue referencePlatform (int32Value HVAC_FAN_SPEED 117 0 [4]) hvacOffHardware
  = Some (Err NOT_AVAILABLE, hvacOffHardware).
Proof.
  apply (@setValue_hvac_power_off referencePlatform referencePlatform_ok
           _ (int32Value 354419984 117 10 [0])).
  - simpl. apply list_elem_of_here.
  - reflexivity.
  - reflexivity.
Defined.

(** C2 at its failing input.  [HVAC_FAN_SPEED] is an HVAC-power-dependent
    property and the stored [HVAC_POWER_ON] of the [HVAC_ALL] area is the
    single int32 0: [setValue] fails with [NOT_AVAILABLE], but [getValue]
    succeeds and returns the stored fan speed, because [maybeGetSpecialValue]
    never consults [isHvacPropAndHvacNotAvailable]. *)
Theorem getValue_hvac_power_off_succeeds :
  HVAC_FAN_SPEED ∈ @HVAC_POWER_PROPERTIES referencePlatform
  /\ readValueById (@HVAC_POWER_ON referencePlatform) (@HVAC_ALL referencePlatform) 0
       (mServerSidePropStore hvacOffHardware)
     = Ok (int32Value 354419984 117 10 [0])
  /\ @isHvacPropAndHvacNotAvailable referencePlatform HVAC_FAN_SPEED hvacOffHardware = true
  /\ @setValue referencePlatform (int32Value HVAC_FAN_SPEED 117 0 [4]) hvacOffHardware
     = Some (Err NOT_AVAILABLE, hvacOffHardware)
  /\ @getValue referencePlatform (keyValue HVAC_FAN_SPEED 117) hvacOffHardware
     = (Ok (int32Value HVAC_FAN_SPEED 117 20 [3]), hvacOffHardware).
Proof.
  split; [apply list_elem_of_here|]. repeat split; reflexivity.
Qed.

(** ** The AP power-state handshake *)

Section ApPowerState.
Context {P : Platform} {HP : PlatformOk P}.

Import VehicleApPowerStateReport.

Lemma isWaitForVhalCase_spec (state : Z) :
  isWaitForVhalCase state = true <->
  state ∈ reportToInt <$>
    [WAIT_FOR_VHAL; DEEP_SLEEP_EXIT; HIBERNATION_EXIT; SHUTDOWN_CANCELLED].
Proof.
  unfold isWaitForVhalCase. rewrite !orb_true_iff, !Z.eqb_eq.
  rewrite !fmap_cons, !elem_of_cons, fmap_nil, elem_of_nil. tauto.
Qed.

Lemma isWaitForFinishCase_spec (state : Z) :
  isWaitForFinishCase state = true <->
  state ∈ reportToInt <$> [DEEP_SLEEP_ENTRY; HIBERNATION_ENTRY; SHUTDOWN_START].
Proof.
  unfold isWaitForFinishCase. rewrite !orb_true_iff, !Z.eqb_eq.
  rewrite !fmap_cons, !elem_of_cons, fmap_nil, elem_of_nil. tauto.
Qed.

Lemma waitForFinish_not_waitForVhal (state : Z) :
  isWaitForFinishCase state = true -> isWaitForVhalCase state = false.
Proof.
  intros Hfin. apply not_true_is_false. intros Hvhal.
  apply isWaitForFinishCase_spec in Hfin. apply isWaitForVhalCase_spec in Hvhal.
  apply list_elem_of_fmap in Hfin as (a & -> & Ha).
  apply list_elem_of_fmap in Hvhal as (b & Hab & Hb).
  apply reportToInt_inj in Hab. subst b.
  repeat (apply elem_of_cons in Ha as [->|Ha];
          [repeat (apply elem_of_cons in Hb as [Hb|Hb]; [discriminate Hb|]);
           by apply elem_of_nil in Hb|]).
  by apply elem_of_nil in Ha.
Qed.

Lemma setValue_report (v : VehiclePropValue) (hw : FakeVehicleHardware) :
  prop v = AP_POWER_STATE_REPORT ->
  setValue v hw =
  match setApPowerStateReport v hw with
  | Some (Err code, hw1) => Some (Err code, hw1)
  | Some (Ok _, hw1) => Some (Ok tt, hw1)
  | None => None
  end.
Proof.
  intros Hp. destruct powerReport_plain as [Hu Hh].
  unfold setValue, maybeSetSpecialValue, isHvacPropAndHvacNotAvailable.
  rewrite Hp, Hu, bool_decide_eq_false_2, Z.eqb_refl by done.
  by destruct (setApPowerStateReport v hw) as [[[[]|code] hw1]|].
Qed.

(** A write with [updateStatus = true] to a registered property without
    token function, at a permitted area, always replaces the stored value and
    notifies the installed listener. *)
Lemma writeValue_updateStatus (v : VehiclePropValue) (s : VehiclePropertyStore)
    (rec : PropRecord) :
  mRecordsByPropId s !! prop v = Some rec ->
  tokenFunction rec = None ->
  areaPermitted rec (areaId v) = true ->
  writeValue v true s =
  (Ok tt, withValues (<[(prop v, areaId v, 0) := v]> (mValues s)) s,
   if mOnValueChangeCallback s then Some v else None).
Proof.
  intros Hrec Htok Harea. unfold writeValue, tokenOf.
  by rewrite Hrec, Htok, Harea, andb_false_r.
Qed.

Lemma storeWriteValue_updateStatus (v : VehiclePropValue) (hw : FakeVehicleHardware)
    (rec : PropRecord) :
  mRecordsByPropId (mServerSidePropStore hw) !! prop v = Some rec ->
  tokenFunction rec = None ->
  areaPermitted rec (areaId v) = true ->
  exists hw1,
    storeWriteValue v true hw = (Ok tt, hw1)
    /\ mServerSidePropStore hw1
       = withValues (<[(prop v, areaId v, 0) := v]> (mValues (mServerSidePropStore hw)))
           (mServerSidePropStore hw)
    /\ clockReads hw1 = clockReads hw
    /\ propertyChangeEvents hw1 =
       propertyChangeEvents hw ++
       match mOnPropertyChangeCallback hw with
       | Some callback =>
           if mOnValueChangeCallback (mServerSidePropStore hw)
           then [(callback, [v])] else []
       | None => []
       end.
Proof.
  intros Hrec Htok Harea. unfold storeWriteValue.
  rewrite (writeValue_updateStatus v _ rec) by done.
  unfold onValueChangeCallback.
  destruct (mOnValueChangeCallback (mServerSidePropStore hw));
    destruct (mOnPropertyChangeCallback hw) eqn:Hcb; simpl; rewrite ?Hcb;
    eexists; (split; [reflexivity|]); simpl; by rewrite ?app_nil_r.
Qed.

(** The write of the report itself leaves the registrations, the listener
    and the values of every other property as they were. *)
Lemma storeWriteValue_frame (v : VehiclePropValue) (updateStatus : bool)
    (hw : FakeVehicleHardware) :
  let hw1 := (storeWriteValue v updateStatus hw).2 in
  mRecordsByPropId (mServerSidePropStore hw1) = mRecordsByPropId (mServerSidePropStore hw)
  /\ mOnValueChangeCallback (mServerSidePropStore hw1)
     = mOnValueChangeCallback (mServerSidePropStore hw)
  /\ mOnPropertyChangeCallback hw1 = mOnPropertyChangeCallback hw
  /\ clockReads hw1 = clockReads hw
  /\ forall p a t, p ≠ prop v ->
       mValues (mServerSidePropStore hw1) !! (p, a, t)
       = mValues (mServerSidePropStore hw) !! (p, a, t).
Proof.
  unfold storeWriteValue, writeValue.
  destruct (mRecordsByPropId (mServerSidePropStore hw) !! prop v) as [rec|];
    [|by destruct hw].
  destruct (negb (areaPermitted rec (areaId v))); [by destruct hw|].
  match goal with |- context [if ?c then _ else _] => destruct c end;
    [by destruct hw|].
  unfold onValueChangeCallback.
  destruct (mOnValueChangeCallback (mServerSidePropStore hw)) eqn:Hhook;
    destruct (mOnPropertyChangeCallback hw) eqn:Hcb; simpl; rewrite ?Hcb;
    repeat split; try done;
    intros p a t Hne; apply lookup_insert_ne; congruence.
Qed.

Lemma writeValue_accepts (v : VehiclePropValue) (updateStatus : bool)
    (s : VehiclePropertyStore) (rec : PropRecord) :
  mRecordsByPropId s !! prop v = Some rec ->
  areaPermitted rec (areaId v) = true ->
  (writeValue v updateStatus s).1.1 = Ok tt.
Proof.
  intros Hrec Harea. unfold writeValue. rewrite Hrec, Harea. simpl.
  by match goal with |- context [if ?c then _ else _] => destruct c end.
Qed.

(** C4.  A set of [AP_POWER_STATE_REPORT] (both power-state properties
    registered, the areas used permitted) first stores the report and then:
    for WAIT_FOR_VHAL, DEEP_SLEEP_EXIT, HIBERNATION_EXIT and
    SHUTDOWN_CANCELLED removes every stored [AP_POWER_STATE_REQ] value and
    writes a fresh one with state ON, which is then the only one stored and
    is notified to the listener; for DEEP_SLEEP_ENTRY, HIBERNATION_ENTRY and
    SHUTDOWN_START writes [AP_POWER_STATE_REQ] with state FINISHED and
    notifies it; for every other state does nothing more, so the stored
    [AP_POWER_STATE_REQ] values are those from before the call.  In all three
    cases the call succeeds. *)
Theorem setApPowerStateReport_handshake
    (v : VehiclePropValue) (state : Z) (rest : list Z) (hw : FakeVehicleHardware)
    (reportRec reqRec : PropRecord) :
  prop v = AP_POWER_STATE_REPORT ->
  int32Values (value v) = state :: rest ->
  mRecordsByPropId (mServerSidePropStore hw) !! AP_POWER_STATE_REPORT = Some reportRec ->
  areaPermitted reportRec (areaId v) = true ->
  mRecordsByPropId (mServerSidePropStore hw) !! AP_POWER_STATE_REQ = Some reqRec ->
  tokenFunction reqRec = None ->
  areaPermitted reqRec 0 = true ->
  let hw2 :=
    (storeWriteValue (setTimestamp (clockAt (clockReads hw)) v) false
       (elapsedRealtimeNano hw).2).2 in
  let notified req :=
    match mOnPropertyChangeCallback hw with
    | Some callback =>
        if mOnValueChangeCallback (mServerSidePropStore hw)
        then [(callback, [req])] else []
    | None => []
    end in
  exists hw',
    setValue v hw = Some (Ok tt, hw')
    /\ (state ∈ reportToInt <$>
          [WAIT_FOR_VHAL; DEEP_SLEEP_EXIT; HIBERNATION_EXIT; SHUTDOWN_CANCELLED] ->
        let req := apPowerStateReq VehicleApPowerStateReq.ON (clockAt (clockReads hw2)) in
        mValues (mServerSidePropStore hw')
        = <[(AP_POWER_STATE_REQ, 0, 0) := req]>
            (filter (fun kv => kv.1.1.1 ≠ AP_POWER_STATE_REQ)
               (mValues (mServerSidePropStore hw2)))
        /\ (forall a t x,
              mValues (mServerSidePropStore hw') !! (AP_POWER_STATE_REQ, a, t) = Some x ->
              a = 0 /\ t = 0 /\ x = req)
        /\ propertyChangeEvents hw' = propertyChangeEvents hw2 ++ notified req)
    /\ (state ∈ reportToInt <$> [DEEP_SLEEP_ENTRY; HIBERNATION_ENTRY; SHUTDOWN_START] ->
        let req :=
          apPowerStateReq VehicleApPowerStateReq.FINISHED (clockAt (clockReads hw2)) in
        mValues (mServerSidePropStore hw')
        = <[(AP_POWER_STATE_REQ, 0, 0) := req]> (mValues (mServerSidePropStore hw2))
        /\ propertyChangeEvents hw' = propertyChangeEvents hw2 ++ notified req)
    /\ (state ∉ reportToInt <$>
          [WAIT_FOR_VHAL; DEEP_SLEEP_EXIT; HIBERNATION_EXIT; SHUTDOWN_CANCELLED] ->
        state ∉ reportToInt <$> [DEEP_SLEEP_ENTRY; HIBERNATION_ENTRY; SHUTDOWN_START] ->
        hw' = hw2
        /\ forall a t,
             mValues (mServerSidePropStore hw') !! (AP_POWER_STATE_REQ, a, t)
             = mValues (mServerSidePropStore hw) !! (AP_POWER_STATE_REQ, a, t)).
Proof.
  intros Hp Hstate HrecR HareaR HrecQ HtokQ HareaQ hw2 notified.
  set (stamped := setTimestamp (clockAt (clockReads hw)) v) in *.
  set (hw1 := (elapsedRealtimeNano hw).2) in *.
  pose proof (storeWriteValue_store stamped false hw1) as [Hres _].
  pose proof (storeWriteValue_frame stamped false hw1) as (Hrecs & Hhook & Hcb & Hclock & Hother).
  fold hw2 in Hrecs, Hhook, Hcb, Hclock, Hother.
  assert (Hacc : (writeValue stamped false (mServerSidePropStore hw1)).1.1 = Ok tt).
  { apply (writeValue_accepts _ _ _ reportRec); [|exact HareaR].
    change (prop stamped) with (prop v). rewrite Hp. exact HrecR. }
  rewrite Hacc in Hres.
  change (prop stamped) with (prop v) in Hother. rewrite Hp in Hother.
  change (mServerSidePropStore hw1) with (mServerSidePropStore hw) in *.
  change (mOnPropertyChangeCallback hw1) with (mOnPropertyChangeCallback hw) in *.
  rewrite setValue_report by done. unfold setApPowerStateReport.
  change (elapsedRealtimeNano hw) with (clockAt (clockReads hw), hw1).
  cbv beta iota. fold stamped.
  destruct (storeWriteValue stamped false hw1) as [writeResult hw2'] eqn:Hw.
  simpl in Hres. subst writeResult. subst hw2. cbn [snd] in *.
  rewrite Hstate.
  destruct (isWaitForVhalCase state) eqn:Hvhal;
    [|destruct (isWaitForFinishCase state) eqn:Hfin].
  - match goal with |- context [createApPowerStateReq _ ?h] => set (hw3 := h) end.
    unfold createApPowerStateReq. cbn [elapsedRealtimeNano].
    change (clockReads hw3) with (clockReads hw2').
    fold (apPowerStateReq VehicleApPowerStateReq.ON (clockAt (clockReads hw2'))).
    set (req := apPowerStateReq VehicleApPowerStateReq.ON (clockAt (clockReads hw2'))).
    match goal with |- context [storeWriteValue req true ?h] => set (hw4 := h) end.
    destruct (storeWriteValue_updateStatus req hw4 reqRec)
      as (hw5 & -> & Hstore5 & _ & Hev5); [by rewrite <- HrecQ, <- Hrecs|done..|].
    exists hw5. split; [done|]. split; [|split].
    + intros _. cbn zeta. split; [by rewrite Hstore5|]. split.
      * intros a t x. rewrite Hstore5. cbn [mValues withValues].
        destruct (decide ((AP_POWER_STATE_REQ, 0, 0) = (AP_POWER_STATE_REQ, a, t)))
          as [[= <- <-]|Hne].
        -- rewrite lookup_insert_eq. by intros [= <-].
        -- rewrite lookup_insert_ne by done. intros Hx.
           apply map_lookup_filter_Some in Hx as [_ Hx]. by simpl in Hx.
      * rewrite Hev5. unfold notified.
        change (mOnPropertyChangeCallback hw4) with (mOnPropertyChangeCallback hw2').
        change (mOnValueChangeCallback (mServerSidePropStore hw4))
          with (mOnValueChangeCallback (mServerSidePropStore hw2')).
        by rewrite Hcb, Hhook.
    + intros Hin. apply isWaitForFinishCase_spec in Hin.
      apply waitForFinish_not_waitForVhal in Hin. congruence.
    + intros Hnot. by apply isWaitForVhalCase_spec in Hvhal.
  - unfold createApPowerStateReq. cbn [elapsedRealtimeNano].
    fold (apPowerStateReq VehicleApPowerStateReq.FINISHED (clockAt (clockReads hw2'))).
    set (req := apPowerStateReq VehicleApPowerStateReq.FINISHED (clockAt (clockReads hw2'))).
    match goal with |- context [storeWriteValue req true ?h] => set (hw3 := h) end.
    destruct (storeWriteValue_updateStatus req hw3 reqRec)
      as (hw4 & -> & Hstore4 & _ & Hev4); [by rewrite <- HrecQ, <- Hrecs|done..|].
    exists hw4. split; [done|]. split; [|split].
    + intros Hin. apply isWaitForVhalCase_spec in Hin. congruence.
    + intros _. cbn zeta. split; [by rewrite Hstore4|].
      rewrite Hev4. unfold notified.
      change (mOnPropertyChangeCallback hw3) with (mOnPropertyChangeCallback hw2').
      change (mOnValueChangeCallback (mServerSidePropStore hw3))
        with (mOnValueChangeCallback (mServerSidePropStore hw2')).
      by rewrite Hcb, Hhook.
    + intros _ Hnot. by apply isWaitForFinishCase_spec in Hfin.
  - exists hw2'. split; [done|]. split; [|split].
    + intros Hin. apply isWaitForVhalCase_spec in Hin. congruence.
    + intros Hin. apply isWaitForFinishCase_spec in Hin. congruence.
    + intros _ _. split; [done|]. intros a t. apply Hother.
      apply powerState_distinct.
Qed.

End ApPowerState.

(** C4 at a concrete state: a WAIT_FOR_VHAL report while
    [AP_POWER_STATE_REQ] already holds ON. *)
Lemma setApPowerStateReport_handshake_witness :
  exists hw',
    @setValue referencePlatform (powerReport 1) powerHardware = Some (Ok tt, hw')
    /\ (forall a t x,
          mValues (mServerSidePropStore hw') !! (289475072, a, t) = Some x ->
          a = 0 /\ t = 0 /\ x = int32Value 289475072 0 1000000 [0; 0])
    /\ propertyChangeEvents hw'
       = [(1%nat, [int32Value 289475073 0 0 [1; 0]]);
          (1%nat, [int32Value 289475072 0 1000000 [0; 0]])].
Proof.
  destruct (@setApPowerStateReport_handshake referencePlatform referencePlatform_ok
              (powerReport 1) 1 [0] powerHardware
              {| propConfig := globalConfig 289475073; tokenFunction := None |}
              {| propConfig := globalConfig 289475072; tokenFunction := None |}
              eq_refl eq_refl eq_refl eq_refl eq_refl eq_refl eq_refl)
    as (hw' & Hset & Hon & _ & _).
  exists hw'. split; [exact Hset|].
  destruct Hon as (_ & Honly & Hevents); [apply list_elem_of_here|].
  split; [exact Honly | exact Hevents].
Defined.

Example setApPowerStateReport_shutdown_start :
  let hw' := afterSetValue (powerReport 5) powerHardware in
  @setValue referencePlatform (powerReport 5) powerHardware = Some (Ok tt, hw')
  /\ readValueById 289475072 0 0 (mServerSidePropStore hw')
     = Ok (int32Value 289475072 0 1000000 [3; 0]).
Proof. intros hw'. evaluate_sides. Qed.

Example setApPowerStateReport_shutdown_postpone :
  let hw' := afterSetValue (powerReport 4) powerHardware in
  @setValue referencePlatform (powerReport 4) powerHardware = Some (Ok tt, hw')
  /\ readValueById 289475072 0 0 (mServerSidePropStore hw')
     = Ok (int32Value 289475072 0 3 [0; 0]).
Proof. intros hw'. evaluate_sides. Qed.

(** ** Saving and restoring a property *)

Section SaveRestore.
Context {P : Platform}.

Lemma sameExceptTimestamp_sym (a b : VehiclePropValue) :
  sameExceptTimestamp a b = sameExceptTimestamp b a.
Proof.
  unfold sameExceptTimestamp.
  apply bool_decide_ext. split; intros H; by symmetry.
Qed.

Lemma storeWriteValue_others (v : VehiclePropValue) (updateStatus : bool)
    (hw : FakeVehicleHardware) :
  mSavedProps (storeWriteValue v updateStatus hw).2 = mSavedProps hw
  /\ clockReads (storeWriteValue v updateStatus hw).2 = clockReads hw.
Proof.
  unfold storeWriteValue.
  destruct (writeValue v updateStatus (mServerSidePropStore hw)) as [[r s] [x|]]; simpl.
  - unfold onValueChangeCallback. simpl. by destruct (mOnPropertyChangeCallback hw).
  - done.
Qed.

Lemma checkArgumentsSize_enough (options : list string) (minSize : nat) :
  (minSize <= length options)%nat -> checkArgumentsSize options minSize = None.
Proof.
  intros H. unfold checkArgumentsSize.
  by rewrite (proj2 (Nat.leb_le _ _) H).
Qed.

(** A successful write to a property without token function, over a stored
    value that differs in more than the timestamp, replaces that value. *)
Lemma writeValue_replaces (v old : VehiclePropValue) (updateStatus : bool)
    (s : VehiclePropertyStore) (rec : PropRecord) :
  mRecordsByPropId s !! prop v = Some rec ->
  tokenFunction rec = None ->
  mValues s !! (prop v, areaId v, 0) = Some old ->
  sameExceptTimestamp old v = false ->
  (writeValue v updateStatus s).1.1 = Ok tt ->
  areaPermitted rec (areaId v) = true
  /\ mRecordsByPropId (writeValue v updateStatus s).1.2 = mRecordsByPropId s
  /\ mValues (writeValue v updateStatus s).1.2 = <[(prop v, areaId v, 0) := v]> (mValues s).
Proof.
  intros Hrec Htok Hold Hdiff. unfold writeValue, tokenOf.
  rewrite Hrec, Htok, Hold, Hdiff.
  by destruct (areaPermitted rec (areaId v)).
Qed.

(** C8 (amended).  For a key (property id, area id) of a property without
    token function that holds a value: saving it, then successfully writing a
    value for the key that differs in some field other than the timestamp,
    then restoring reports success and leaves under the key the saved value
    with only its timestamp replaced by the clock reading of the restore; the
    snapshot is gone, so a second restore reports that no property is saved
    and changes nothing. *)
Theorem save_modify_restore
    (options restoreOptions : list string) (k k' v0 v1 : VehiclePropValue)
    (updateStatus : bool) (hw : FakeVehicleHardware) (rec : PropRecord) :
  (2 <= length options)%nat ->
  (2 <= length restoreOptions)%nat ->
  parsePropOptions options = inr k ->
  parsePropOptions restoreOptions = inr k' ->
  prop k' = prop k -> areaId k' = areaId k ->
  mRecordsByPropId (mServerSidePropStore hw) !! prop k = Some rec ->
  tokenFunction rec = None ->
  storeWellFormed (mServerSidePropStore hw) ->
  readValue k (mServerSidePropStore hw) = Ok v0 ->
  prop v1 = prop k -> areaId v1 = areaId k ->
  sameExceptTimestamp v0 v1 = false ->
  let saved := (dumpSaveProperty options hw).2 in
  let modified := (storeWriteValue v1 updateStatus saved).2 in
  (storeWriteValue v1 updateStatus saved).1 = Ok tt ->
  (dumpSaveProperty options hw).1 = PropertySaved (prop k) (areaId k)
  /\ exists restored,
       dumpRestoreProperty restoreOptions modified
       = (PropertyRestored (prop k) (areaId k), restored)
       /\ readValue k (mServerSidePropStore restored)
          = Ok (setTimestamp (clockAt (clockReads modified)) v0)
       /\ mSavedProps restored !! (prop k, areaId k) = None
       /\ dumpRestoreProperty restoreOptions restored
          = (NoSavedProperty (prop k) (areaId k), restored).
Proof.
  intros Hlen Hlen' Hparse Hparse' Hp' Ha' Hrec Htok Hwf Hread Hp1 Ha1 Hdiff
    saved modified Hwrite.
  assert (Hstored : mValues (mServerSidePropStore hw) !! (prop k, areaId k, 0) = Some v0).
  { unfold readValue, tokenOf in Hread. rewrite Hrec, Htok in Hread.
    by destruct (mValues (mServerSidePropStore hw) !! (prop k, areaId k, 0));
      inversion Hread. }
  destruct (Hwf _ _ _ _ Hstored) as [Hp0 Ha0].
  assert (Hsaved : dumpSaveProperty options hw =
            (PropertySaved (prop k) (areaId k),
             withSavedProps (<[(prop k, areaId k) := v0]> (mSavedProps hw)) hw)).
  { unfold dumpSaveProperty.
    by rewrite checkArgumentsSize_enough, Hparse, Hread. }
  subst modified saved. rewrite Hsaved in *. cbn [fst snd] in *.
  set (saved := withSavedProps _ hw) in *.
  set (modified := (storeWriteValue v1 updateStatus saved).2) in *.
  split; [done|].
  pose proof (storeWriteValue_store v1 updateStatus saved) as [Hres Hst].
  pose proof (storeWriteValue_others v1 updateStatus saved) as [Hsv Hclk].
  change (storeWriteValue v1 updateStatus saved).2 with modified in Hst, Hsv, Hclk.
  rewrite Hwrite in Hres. symmetry in Hres.
  change (mServerSidePropStore saved) with (mServerSidePropStore hw) in *.
  destruct (writeValue_replaces v1 v0 updateStatus (mServerSidePropStore hw) rec)
    as (Harea & Hrecs1 & Hvals1); [by rewrite ?Hp1, ?Ha1..|].
  rewrite <- Hst in Hrecs1, Hvals1. rewrite Hp1, Ha1 in Hvals1. rewrite Ha1 in Harea.
  set (now := clockAt (clockReads modified)).
  set (stamped := setTimestamp now v0).
  assert (Hw2 : writeValue stamped false (mServerSidePropStore modified) =
            (Ok tt,
             withValues (<[(prop k, areaId k, 0) := stamped]>
                           (mValues (mServerSidePropStore modified)))
               (mServerSidePropStore modified),
             if mOnValueChangeCallback (mServerSidePropStore modified)
             then Some stamped else None)).
  { unfold writeValue, tokenOf.
    change (prop stamped) with (prop v0). change (areaId stamped) with (areaId v0).
    rewrite Hp0, Ha0, Hrecs1, Hrec, Htok, Harea, Hvals1, lookup_insert_eq.
    assert (Hd : sameExceptTimestamp v1 stamped = false).
    { rewrite sameExceptTimestamp_sym. exact Hdiff. }
    by rewrite Hd. }
  assert (Hrestore : exists restored,
            dumpRestoreProperty restoreOptions modified
            = (PropertyRestored (prop k) (areaId k), restored)
            /\ mServerSidePropStore restored
               = withValues (<[(prop k, areaId k, 0) := stamped]>
                               (mValues (mServerSidePropStore modified)))
                   (mServerSidePropStore modified)
            /\ mSavedProps restored = delete (prop k, areaId k) (mSavedProps modified)).
  { unfold dumpRestoreProperty.
    rewrite checkArgumentsSize_enough, Hparse', Hp', Ha' by done.
    rewrite Hsv. cbn [saved mSavedProps withSavedProps].
    rewrite lookup_insert_eq.
    match goal with |- context [elapsedRealtimeNano ?h] =>
      change (elapsedRealtimeNano h) with (now, (elapsedRealtimeNano h).2) end.
    cbv beta iota. fold stamped.
    match goal with |- context [storeWriteValue stamped false ?h] => set (hw2 := h) end.
    pose proof (storeWriteValue_store stamped false hw2) as [Hr2 Hs2].
    pose proof (storeWriteValue_others stamped false hw2) as [Hsv2 _].
    change (mServerSidePropStore hw2) with (mServerSidePropStore modified) in *.
    rewrite Hw2 in Hr2, Hs2. cbn [fst snd] in Hr2, Hs2.
    destruct (storeWriteValue stamped false hw2) as [r restored].
    cbn [fst snd] in *. subst r. exists restored.
    split; [done|]. split; [done|]. rewrite Hsv2. reflexivity. }
  destruct Hrestore as (restored & Hrun & Hstore & Hsaved').
  exists restored. split; [done|].
  assert (Hgone : mSavedProps restored !! (prop k, areaId k) = None).
  { rewrite Hsaved'. apply lookup_delete_eq. }
  split; [|split; [done|]].
  - unfold readValue, tokenOf. rewrite Hstore. cbn [mRecordsByPropId mValues withValues].
    by rewrite Hrecs1, Hrec, Htok, lookup_insert_eq.
  - unfold dumpRestoreProperty.
    by rewrite checkArgumentsSize_enough, Hparse', Hp', Ha', Hgone.
Qed.

End SaveRestore.

(** Every store built by store operations from the empty one is well
    formed. *)
Lemma storeWellFormed_runStoreOps (ops : list StoreOp) :
  storeWellFormed (runStoreOps ops emptyStore).
Proof.
  induction ops as [|op ops IH] using rev_ind; intros p a t x.
  - cbn [runStoreOps foldl emptyStore mValues]. by rewrite lookup_empty.
  - rewrite runStoreOps_snoc.
    set (s := runStoreOps ops emptyStore) in *.
    destruct op as [cfg tok| |v us|v|q]; simpl.
    + apply IH.
    + apply IH.
    + destruct (writeValue_values v us s) as [->|[t' ->]]; [apply IH|].
      destruct (decide ((prop v, areaId v, t') = (p, a, t))) as [[= <- <- <-]|Hne].
      * rewrite lookup_insert_eq. by intros [= <-].
      * rewrite lookup_insert_ne by done. apply IH.
    + unfold removeValue. destruct (mRecordsByPropId s !! prop v); simpl; [|apply IH].
      intros H. apply lookup_delete_Some in H as [_ H]. by apply (IH _ _ t).
    + intros H. apply map_lookup_filter_Some in H as [H _]. by apply (IH _ _ t).
Qed.

(** C8 at a concrete state: property 1000 holds 7; it is saved, set to 9 and
    restored. *)
Lemma save_modify_restore_witness :
  exists restored,
    @dumpRestoreProperty referencePlatform ["--restore-prop"; "1000"]%string
      (afterStoreWrite (int32Value 1000 0 6 [9]) false
         (@dumpSaveProperty referencePlatform ["--save-prop"; "1000"]%string
            oneValueHardware).2)
    = (PropertyRestored 1000 0, restored)
    /\ readValue (keyValue 1000 0) (mServerSidePropStore restored)
       = Ok (int32Value 1000 0 7000000 [7])
    /\ @dumpRestoreProperty referencePlatform ["--restore-prop"; "1000"]%string restored
       = (NoSavedProperty 1000 0, restored).
Proof.
  destruct (@save_modify_restore referencePlatform
              ["--save-prop"; "1000"]%string ["--restore-prop"; "1000"]%string
              (keyValue 1000 0) (keyValue 1000 0)
              (int32Value 1000 0 5 [7]) (int32Value 1000 0 6 [9]) false
              oneValueHardware
              {| propConfig := globalConfig 1000; tokenFunction := None |})
    as (_ & restored & Hrestore & Hread & _ & Hagain);
    try reflexivity; try (simpl; lia).
  - apply (storeWellFormed_runStoreOps
             [OpRegister (globalConfig 1000) None;
              OpRegister (globalConfig 1001) None;
              OpWrite (int32Value 1000 0 5 [7]) true;
              OpSetCallback]).
  - exists restored. split; [exact Hrestore|]. split; [exact Hread | exact Hagain].
Defined.

(** C8 as stated fails for a property with a token function.
    [OBD2_FREEZE_FRAME], which [init] registers with the timestamp as token,
    holds a frame stamped 5.  The frame is saved with [-t 5], a different
    frame is written and the restore is run: it reports success, but it
    stores the saved frame under the token of its new timestamp, so the key
    that was saved still reads the frame stamped 5, the different frame is
    still stored, and the property now holds three frames. *)
Lemma save_modify_restore_keeps_freeze_frames :
  let options := ["--save-prop"; "299896065"; "-t"; "5"]%string in
  let restoreOptions := ["--restore-prop"; "299896065"; "-t"; "5"]%string in
  let k := setTimestamp 5 (keyValue 299896065 0) in
  let v1 := int32Value 299896065 0 6000000 [3; 4] in
  let saved := (@dumpSaveProperty referencePlatform options freezeFrameHardware).2 in
  let modified := afterStoreWrite v1 false saved in
  let restored := (@dumpRestoreProperty referencePlatform restoreOptions modified).2 in
  @parsePropOptions referencePlatform options = inr k
  /\ @parsePropOptions referencePlatform restoreOptions = inr k
  /\ storeWellFormed (mServerSidePropStore freezeFrameHardware)
  /\ readValue k (mServerSidePropStore freezeFrameHardware) = Ok freezeFrameStored
  /\ sameExceptTimestamp freezeFrameStored v1 = false
  /\ (storeWriteValue v1 false saved).1 = Ok tt
  /\ (@dumpSaveProperty referencePlatform options freezeFrameHardware).1
     = PropertySaved 299896065 0
  /\ @dumpRestoreProperty referencePlatform restoreOptions modified
     = (PropertyRestored 299896065 0, restored)
  /\ @clockAt referencePlatform (clockReads modified) = 7000000
  /\ readValue k (mServerSidePropStore restored) = Ok freezeFrameStored
  /\ readValue v1 (mServerSidePropStore restored) = Ok v1
  /\ size (mValues (mServerSidePropStore restored)) = 3%nat
  /\ ~ (readValue k (mServerSidePropStore restored)
        = Ok (setTimestamp (@clockAt referencePlatform (clockReads modified))
                freezeFrameStored)).
Proof.
  intros options restoreOptions k v1 saved modified restored.
  assert (Hread : readValue k (mServerSidePropStore restored) = Ok freezeFrameStored)
    by evaluate_sides.
  assert (Hclock : @clockAt referencePlatform (clockReads modified) = 7000000)
    by evaluate_sides.
  split; [evaluate_sides|]. split; [evaluate_sides|]. split.
  { apply (storeWellFormed_runStoreOps
             [OpRegister (globalConfig 299896065) (Some timestampToken);
              OpWrite freezeFrameStored true;
              OpSetCallback]). }
  split; [evaluate_sides|]. split; [evaluate_sides|]. split; [evaluate_sides|].
  split; [evaluate_sides|]. split; [evaluate_sides|]. split; [exact Hclock|].
  split; [exact Hread|]. split; [evaluate_sides|]. split; [evaluate_sides|].
  rewrite Hread, Hclock. intros Heq. vm_compute in Heq. discriminate Heq.
Qed.

(** ** Sample rates and the recurrent timer *)

Section SampleRate.
Context {P : Platform}.

Lemma updateSampleRate_zero (p a : Z) (r : float) (hw : FakeVehicleHardware) :
  (r =? 0)%float = true ->
  updateSampleRate p a r hw =
  Some (OK, match mRecurrentActions hw !! (p, a) with
            | Some action =>
                withTimer (delete (actionHandle action) (mRecurrentTimer hw)) hw
            | None => hw
            end).
Proof. intros Hr. unfold updateSampleRate. by rewrite Hr. Qed.

Lemma updateSampleRate_nonzero (p a : Z) (r : float) (interval : Z)
    (hw : FakeVehicleHardware) :
  (r =? 0)%float = false ->
  float_to_int64 (1e9 / r)%float = Some interval ->
  let action := {| actionHandle := allocatedActions hw;
                   actionPropId := p; actionAreaId := a |} in
  let timer1 :=
    match mRecurrentActions hw !! (p, a) with
    | Some old => delete (actionHandle old) (mRecurrentTimer hw)
    | None => mRecurrentTimer hw
    end in
  exists hw',
    updateSampleRate p a r hw = Some (OK, hw')
    /\ mRecurrentActions hw' = <[(p, a) := action]> (mRecurrentActions hw)
    /\ mRecurrentTimer hw'
       = <[allocatedActions hw :=
             {| timerAction := action; timerInterval := interval;
                timerNextTime := clockAt (clockReads hw) + interval |}]> timer1
    /\ allocatedActions hw' = S (allocatedActions hw)
    /\ mServerSidePropStore hw' = mServerSidePropStore hw
    /\ propertyChangeEvents hw' = propertyChangeEvents hw.
Proof.
  intros Hr Hinterval action timer1. unfold updateSampleRate.
  rewrite Hr, Hinterval.
  eexists. split; [reflexivity|].
  subst timer1. by destruct (mRecurrentActions hw !! (p, a)).
Qed.

Lemma consistent_initial (hw : FakeVehicleHardware) :
  mRecurrentActions hw = ∅ -> mRecurrentTimer hw = ∅ ->
  recurrentActionsConsistent hw.
Proof.
  intros Hm Ht. unfold recurrentActionsConsistent. rewrite Hm, Ht.
  split; [|split]; intros *; by rewrite lookup_empty.
Qed.

Lemma timer_after_unregister (p a : Z) (hw : FakeVehicleHardware) handle info :
  recurrentActionsConsistent hw ->
  match mRecurrentActions hw !! (p, a) with
  | Some old => delete (actionHandle old) (mRecurrentTimer hw)
  | None => mRecurrentTimer hw
  end !! handle = Some info ->
  mRecurrentTimer hw !! handle = Some info
  /\ actionKey (timerAction info) ≠ (p, a).
Proof.
  intros (HT & HM & HU) Hlook.
  destruct (mRecurrentActions hw !! (p, a)) as [old|] eqn:Hold.
  - apply lookup_delete_Some in Hlook as [Hne Hlook]. split; [done|].
    intros Hkey. destruct (HT _ _ Hlook) as [Hh Hmap].
    rewrite Hkey, Hold in Hmap. injection Hmap as ->. done.
  - split; [done|]. intros Hkey. destruct (HT _ _ Hlook) as [_ Hmap].
    by rewrite Hkey, Hold in Hmap.
Qed.

Lemma timer_before_unregister (p a : Z) (hw : FakeVehicleHardware) handle info :
  recurrentActionsConsistent hw ->
  mRecurrentTimer hw !! handle = Some info ->
  actionKey (timerAction info) ≠ (p, a) ->
  match mRecurrentActions hw !! (p, a) with
  | Some old => delete (actionHandle old) (mRecurrentTimer hw)
  | None => mRecurrentTimer hw
  end !! handle = Some info.
Proof.
  intros (HT & HM & HU) Hlook Hkey.
  destruct (mRecurrentActions hw !! (p, a)) as [old|] eqn:Hold; [|done].
  rewrite lookup_delete_ne; [done|]. intros Heq.
  destruct (HT _ _ Hlook) as [Hh Hmap].
  apply Hkey. apply (HU _ _ _ _ Hmap Hold). by rewrite Hh.
Qed.

Lemma consistent_step (p a : Z) (r : float) (status : StatusCode)
    (hw hw' : FakeVehicleHardware) :
  recurrentActionsConsistent hw ->
  updateSampleRate p a r hw = Some (status, hw') ->
  recurrentActionsConsistent hw'.
Proof.
  intros Hc Hrun. pose proof Hc as (HT & HM & HU).
  destruct (r =? 0)%float eqn:Hr.
  - rewrite updateSampleRate_zero in Hrun by done. injection Hrun as _ <-.
    assert (Hsub : forall handle info,
              mRecurrentTimer
                (match mRecurrentActions hw !! (p, a) with
                 | Some action =>
                     withTimer (delete (actionHandle action) (mRecurrentTimer hw)) hw
                 | None => hw
                 end) !! handle = Some info ->
              mRecurrentTimer hw !! handle = Some info).
    { intros handle info. destruct (mRecurrentActions hw !! (p, a)); [|done].
      simpl. intros H. by apply lookup_delete_Some in H as [_ H]. }
    split; [|split].
    + intros handle info H. apply Hsub in H.
      by destruct (mRecurrentActions hw !! (p, a)); apply HT.
    + by destruct (mRecurrentActions hw !! (p, a)).
    + by destruct (mRecurrentActions hw !! (p, a)).
  - destruct (float_to_int64 (1e9 / r)%float) as [interval|] eqn:Hi;
      [|by unfold updateSampleRate in Hrun; rewrite Hr, Hi in Hrun].
    destruct (updateSampleRate_nonzero p a r interval hw Hr Hi)
      as (hw2 & Hrun2 & Hmap & Htimer & Halloc & _).
    rewrite Hrun2 in Hrun. injection Hrun as _ <-.
    unfold recurrentActionsConsistent. rewrite Hmap, Htimer, Halloc.
    split; [|split].
    + intros handle info.
      destruct (decide (allocatedActions hw = handle)) as [<-|Hne].
      * rewrite lookup_insert_eq. intros [= <-]. simpl. split; [done|].
        unfold actionKey. simpl. by rewrite lookup_insert_eq.
      * rewrite lookup_insert_ne by done. intros H.
        apply timer_after_unregister in H as [H Hkey]; [|done].
        destruct (HT _ _ H) as [Hh Hm]. split; [done|].
        by rewrite lookup_insert_ne.
    + intros key action.
      destruct (decide ((p, a) = key)) as [<-|Hne].
      * rewrite lookup_insert_eq. intros [= <-]. simpl. split; [lia | done].
      * rewrite lookup_insert_ne by done. intros H.
        destruct (HM _ _ H) as [Hlt Hk]. split; [lia | done].
    + intros key1 key2 action1 action2.
      destruct (decide ((p, a) = key1)) as [<-|Hne1];
        destruct (decide ((p, a) = key2)) as [<-|Hne2]; [done|..].
      * rewrite lookup_insert_eq, lookup_insert_ne by done.
        intros [= <-] H2 Hh. simpl in Hh. destruct (HM _ _ H2) as [Hlt _]. lia.
      * rewrite lookup_insert_eq, lookup_insert_ne by done.
        intros H1 [= <-] Hh. simpl in Hh. destruct (HM _ _ H1) as [Hlt _]. lia.
      * rewrite !lookup_insert_ne by done. apply HU.
Qed.

(** What one call does to the set of refreshed keys and to the keys of
    [mRecurrentActions]. *)
Lemma updateSampleRate_step (p a : Z) (r : float) (status : StatusCode)
    (hw hw' : FakeVehicleHardware) :
  recurrentActionsConsistent hw ->
  updateSampleRate p a r hw = Some (status, hw') ->
  forall key,
    (timerRefreshes key hw' <->
     if bool_decide ((p, a) = key) then (r =? 0)%float = false
     else timerRefreshes key hw)
    /\ (is_Some (mRecurrentActions hw' !! key) <->
        is_Some (mRecurrentActions hw !! key)
        \/ ((p, a) = key /\ (r =? 0)%float = false)).
Proof.
  intros Hc Hrun key. pose proof Hc as (HT & HM & HU).
  destruct (r =? 0)%float eqn:Hr.
  - rewrite updateSampleRate_zero in Hrun by done. injection Hrun as _ <-.
    assert (Htimer : mRecurrentTimer
              (match mRecurrentActions hw !! (p, a) with
               | Some action =>
                   withTimer (delete (actionHandle action) (mRecurrentTimer hw)) hw
               | None => hw
               end)
            = match mRecurrentActions hw !! (p, a) with
              | Some old => delete (actionHandle old) (mRecurrentTimer hw)
              | None => mRecurrentTimer hw
              end) by (by destruct (mRecurrentActions hw !! (p, a))).
    assert (Hmap : mRecurrentActions
              (match mRecurrentActions hw !! (p, a) with
               | Some action =>
                   withTimer (delete (actionHandle action) (mRecurrentTimer hw)) hw
               | None => hw
               end) = mRecurrentActions hw)
      by (by destruct (mRecurrentActions hw !! (p, a))).
    rewrite Hmap. split; [|split; [by left | by intros [?|[_ ?]]]].
    unfold timerRefreshes. rewrite Htimer. case_bool_decide as Hkey.
    + split; [|done]. intros (handle & info & Hlook & Hk).
      apply timer_after_unregister in Hlook as [_ Hne]; [|done]. congruence.
    + split; intros (handle & info & Hlook & Hk); exists handle, info.
      * apply timer_after_unregister in Hlook as [Hlook _]; done.
      * split; [|done]. apply timer_before_unregister; [done..|congruence].
  - destruct (float_to_int64 (1e9 / r)%float) as [interval|] eqn:Hi;
      [|by unfold updateSampleRate in Hrun; rewrite Hr, Hi in Hrun].
    destruct (updateSampleRate_nonzero p a r interval hw Hr Hi)
      as (hw2 & Hrun2 & Hmap & Htimer & Halloc & _).
    rewrite Hrun2 in Hrun. injection Hrun as _ <-.
    rewrite Hmap. split.
    + unfold timerRefreshes. rewrite Htimer. case_bool_decide as Hkey.
      * split; [done|]. intros _. eexists _, _. rewrite lookup_insert_eq.
        split; [reflexivity|]. done.
      * split; intros (handle & info & Hlook & Hk); exists handle, info.
        -- destruct (decide (allocatedActions hw = handle)) as [<-|Hne].
           ++ rewrite lookup_insert_eq in Hlook. injection Hlook as <-.
              by destruct Hkey.
           ++ rewrite lookup_insert_ne in Hlook by done.
              apply timer_after_unregister in Hlook as [Hlook _]; done.
        -- split; [|done]. destruct (HT _ _ Hlook) as [Hh Hm].
           destruct (HM _ _ Hm) as [Hlt _].
           rewrite lookup_insert_ne by lia.
           apply timer_before_unregister; [done..|congruence].
    + destruct (decide ((p, a) = key)) as [<-|Hne].
      * rewrite lookup_insert_eq. split; [by right | by eauto].
      * rewrite lookup_insert_ne by done. split; [by left | by intros [?|[? _]]].
Qed.

Lemma runUpdateSampleRate_spec (calls : list (Z * Z * float)) :
  forall hw hw' : FakeVehicleHardware,
    recurrentActionsConsistent hw ->
    runUpdateSampleRate calls hw = Some hw' ->
    recurrentActionsConsistent hw'
    /\ forall key,
         (forall acc : bool,
            (timerRefreshes key hw <-> acc = true) ->
            (timerRefreshes key hw' <->
             foldl (fun acc call =>
                      if bool_decide (call.1 = key)
                      then negb (call.2 =? 0)%float else acc) acc calls = true))
         /\ (is_Some (mRecurrentActions hw' !! key) <->
             is_Some (mRecurrentActions hw !! key)
             \/ someRateNonzero key calls = true).
Proof.
  induction calls as [|[[p a] r] rest IH]; intros hw hw' Hc Hrun.
  - injection Hrun as <-. split; [done|]. intros key. split; [done|].
    simpl. split; [by left | by intros [?|?]].
  - simpl in Hrun.
    destruct (updateSampleRate p a r hw) as [[status hw1]|] eqn:Hstep; [|done].
    pose proof (consistent_step _ _ _ _ _ _ Hc Hstep) as Hc1.
    destruct (IH _ _ Hc1 Hrun) as [Hc' Hrest]. split; [done|].
    intros key. destruct (Hrest key) as [Htimer Hmap].
    destruct (updateSampleRate_step _ _ _ _ _ _ Hc Hstep key) as [Hstep1 Hstep2].
    split.
    + intros acc Hacc. cbn [foldl fst snd]. apply Htimer.
      rewrite Hstep1. case_bool_decide; [|done].
      by destruct (r =? 0)%float.
    + rewrite Hmap, Hstep2. cbn [someRateNonzero existsb fst snd].
      rewrite orb_true_iff, andb_true_iff, bool_decide_eq_true, negb_true_iff.
      unfold someRateNonzero. tauto.
Qed.

(** A sequence of calls is defined as soon as each non-zero rate has an
    interval that fits an [int64_t]. *)
Lemma runUpdateSampleRate_defined (calls : list (Z * Z * float))
    (hw : FakeVehicleHardware) :
  Forall (fun call => (call.2 =? 0)%float = true
                      \/ is_Some (float_to_int64 (1e9 / call.2)%float)) calls ->
  is_Some (runUpdateSampleRate calls hw).
Proof.
  intros Hall. revert hw.
  induction Hall as [|[[p a] r] rest Hcall _ IH]; intros hw; [by eexists|].
  simpl. unfold updateSampleRate. simpl in Hcall.
  destruct (r =? 0)%float; [apply IH|].
  destruct Hcall as [?|[interval ->]]; [done|]. apply IH.
Qed.

(** C3 (amended).  After any sequence of [updateSampleRate] calls
    on a facade that started without recurrent actions, for every key: a
    callback refreshing the key is registered with the timer if and only if
    the most recent call for the key asked for a non-zero rate, and there is
    at most one such callback; [mRecurrentActions] holds an entry for the key
    if and only if some call for the key asked for a non-zero rate (a later
    call with rate 0 unregisters the timer callback and leaves the entry in
    the map). *)
Theorem updateSampleRate_recurrentActions
    (calls : list (Z * Z * float)) (hw0 hw : FakeVehicleHardware) (key : Z * Z) :
  mRecurrentActions hw0 = ∅ ->
  mRecurrentTimer hw0 = ∅ ->
  runUpdateSampleRate calls hw0 = Some hw ->
  (timerRefreshes key hw <-> lastRateNonzero key calls = true)
  /\ (forall handle1 handle2 info1 info2,
        mRecurrentTimer hw !! handle1 = Some info1 ->
        mRecurrentTimer hw !! handle2 = Some info2 ->
        actionKey (timerAction info1) = key ->
        actionKey (timerAction info2) = key ->
        handle1 = handle2)
  /\ (is_Some (mRecurrentActions hw !! key) <-> someRateNonzero key calls = true).
Proof.
  intros Hm Ht Hrun.
  destruct (runUpdateSampleRate_spec calls hw0 hw (consistent_initial _ Hm Ht) Hrun)
    as [(HT & HM & HU) Hkeys].
  destruct (Hkeys key) as [Htimer Hmap]. split; [|split].
  - apply Htimer. unfold timerRefreshes. rewrite Ht. split; [|done].
    intros (handle & info & Hlook & _). by rewrite lookup_empty in Hlook.
  - intros handle1 handle2 info1 info2 H1 H2 Hk1 Hk2.
    destruct (HT _ _ H1) as [<- Hm1]. destruct (HT _ _ H2) as [<- Hm2].
    rewrite Hk1 in Hm1. rewrite Hk2 in Hm2. congruence.
  - rewrite Hmap, Hm, lookup_empty. split; [|by right].
    intros [[? ?]|?]; done.
Qed.

Lemma readValue_stored (v x : VehiclePropValue) (s : VehiclePropertyStore)
    (rec : PropRecord) :
  mRecordsByPropId s !! prop v = Some rec ->
  tokenFunction rec = None ->
  mValues s !! (prop v, areaId v, 0) = Some x ->
  readValue v s = Ok x.
Proof.
  intros Hrec Htok Hx. unfold readValue, tokenOf. by rewrite Hrec, Htok, Hx.
Qed.

Lemma removeValue_stored (v : VehiclePropValue) (s : VehiclePropertyStore)
    (rec : PropRecord) :
  mRecordsByPropId s !! prop v = Some rec ->
  tokenFunction rec = None ->
  removeValue v s = withValues (delete (prop v, areaId v, 0) (mValues s)) s.
Proof.
  intros Hrec Htok. unfold removeValue, tokenOf. by rewrite Hrec, Htok.
Qed.

Lemma writeValue_absent (v : VehiclePropValue) (updateStatus : bool)
    (s : VehiclePropertyStore) (rec : PropRecord) :
  mRecordsByPropId s !! prop v = Some rec ->
  tokenFunction rec = None ->
  areaPermitted rec (areaId v) = true ->
  mValues s !! (prop v, areaId v, 0) = None ->
  writeValue v updateStatus s =
  (Ok tt, withValues (<[(prop v, areaId v, 0) := v]> (mValues s)) s,
   if mOnValueChangeCallback s then Some v else None).
Proof.
  intros Hrec Htok Harea Hnone. unfold writeValue, tokenOf.
  by rewrite Hrec, Htok, Harea, Hnone.
Qed.

(** A firing for a stored plain property: the value is rewritten with the
    fresh timestamp and the listener is notified, although the payload did
    not change. *)
Lemma refreshAction_stored (p a : Z) (hw : FakeVehicleHardware)
    (x : VehiclePropValue) (rec : PropRecord) :
  hasSpecialGet p = false ->
  mRecordsByPropId (mServerSidePropStore hw) !! p = Some rec ->
  tokenFunction rec = None ->
  areaPermitted rec a = true ->
  mValues (mServerSidePropStore hw) !! (p, a, 0) = Some x ->
  prop x = p -> areaId x = a ->
  let refreshed := setTimestamp (clockAt (clockReads hw)) x in
  mValues (mServerSidePropStore (refreshAction p a hw))
  = <[(p, a, 0) := refreshed]> (mValues (mServerSidePropStore hw))
  /\ propertyChangeEvents (refreshAction p a hw)
     = propertyChangeEvents hw ++
       match mOnPropertyChangeCallback hw with
       | Some callback =>
           if mOnValueChangeCallback (mServerSidePropStore hw)
           then [(callback, [refreshed])] else []
       | None => []
       end.
Proof.
  intros Hplain Hrec Htok Harea Hx Hp Ha refreshed.
  assert (Hget : getValue (keyValue p a) hw = (Ok x, hw)).
  { rewrite getValue_plain by done. f_equal. by apply (readValue_stored _ _ _ rec). }
  unfold refreshAction. rewrite Hget.
  change (elapsedRealtimeNano hw) with (clockAt (clockReads hw), (elapsedRealtimeNano hw).2).
  cbv beta iota. fold refreshed.
  set (hw1 := (elapsedRealtimeNano hw).2).
  change (mServerSidePropStore hw1) with (mServerSidePropStore hw).
  assert (Hrec' : mRecordsByPropId (mServerSidePropStore hw) !! prop refreshed = Some rec)
    by (change (prop refreshed) with (prop x); by rewrite Hp).
  rewrite (removeValue_stored refreshed _ rec) by done.
  change (prop refreshed) with (prop x). change (areaId refreshed) with (areaId x).
  rewrite Hp, Ha.
  set (s1 := withValues _ (mServerSidePropStore hw)).
  unfold storeWriteValue. cbn [mServerSidePropStore withStore].
  rewrite (writeValue_absent refreshed false s1 rec); cycle 1.
  { change (prop refreshed) with (prop x). by rewrite Hp. }
  { done. }
  { change (areaId refreshed) with (areaId x). by rewrite Ha. }
  { change (prop refreshed) with (prop x). change (areaId refreshed) with (areaId x).
    rewrite Hp, Ha. apply lookup_delete_eq. }
  change (prop refreshed) with (prop x). change (areaId refreshed) with (areaId x).
  rewrite Hp, Ha. cbn [s1 mValues withValues mOnValueChangeCallback].
  rewrite insert_delete_eq.
  unfold onValueChangeCallback.
  destruct (mOnValueChangeCallback (mServerSidePropStore hw));
    destruct (mOnPropertyChangeCallback hw) eqn:Hcb; simpl; rewrite ?Hcb; simpl;
    by rewrite ?app_nil_r.
Qed.

(** The cast of [updateSampleRate] is truncation: it yields [z] exactly when
    the double truncated is [z] and [z] is an [int64_t]. *)
Lemma float_to_int64_truncates (f : float) (z : Z) :
  float_to_int64 f = Some z <-> truncatesTo f z /\ - 2 ^ 63 <= z < 2 ^ 63.
Proof.
  unfold float_to_int64, truncatesTo.
  destruct (Prim2SF f) as [s|s| |s m e].
  - split; [intros [= <-]; split; [done|] | by intros [-> _]].
    change (2 ^ 63) with 9223372036854775808. lia.
  - split; [done|by intros [[] _]].
  - split; [done|by intros [[] _]].
  - set (bound := 2 ^ 63).
    assert (Hmag : forall mag,
              mag = (if 0 <=? e then Z.pos m * 2 ^ e else Z.pos m / 2 ^ (- e)) ->
              0 <= mag
              /\ forall k, 0 <= k ->
                   (k = mag <->
                    k * 2 ^ Z.max 0 (- e) <= Z.pos m * 2 ^ Z.max 0 e
                    /\ Z.pos m * 2 ^ Z.max 0 e < (k + 1) * 2 ^ Z.max 0 (- e))).
    { intros mag ->. destruct (0 <=? e) eqn:He.
      - apply Z.leb_le in He.
        rewrite (Z.max_l 0 (- e)), (Z.max_r 0 e) by lia.
        change (2 ^ 0) with 1.
        assert (0 < 2 ^ e) by (apply Z.pow_pos_nonneg; lia).
        split; [nia|]. intros k Hk. lia.
      - apply Z.leb_gt in He.
        rewrite (Z.max_r 0 (- e)), (Z.max_l 0 e) by lia.
        change (2 ^ 0) with 1.
        assert (Hpos : 0 < 2 ^ (- e)) by (apply Z.pow_pos_nonneg; lia).
        pose proof (Z.div_mod (Z.pos m) (2 ^ (- e)) ltac:(lia)) as Hdm.
        pose proof (Z.mod_pos_bound (Z.pos m) (2 ^ (- e)) Hpos) as Hmod.
        split; [apply Z.div_pos; lia|]. intros k Hk. split.
        + intros ->. nia.
        + intros [H1 H2]. nia. }
    destruct (Hmag _ eq_refl) as [Hnonneg Hunique].
    set (mag := if 0 <=? e then Z.pos m * 2 ^ e else Z.pos m / 2 ^ (- e)) in *.
    cbv zeta. split.
    + destruct ((- bound <=? (if s then - mag else mag))
                && ((if s then - mag else mag) <? bound)) eqn:Hrange; [|done].
      intros [= <-]. apply andb_true_iff in Hrange as [H1 H2].
      apply Z.leb_le in H1. apply Z.ltb_lt in H2.
      split; [|lia].
      assert (Habs : Z.abs (if s then - mag else mag) = mag) by (destruct s; lia).
      rewrite Habs. split; [destruct s; lia|]. by apply Hunique.
    + intros [(Hsign & Hlow & Hhigh) Hrange].
      assert (Hk : Z.abs z = mag) by (apply Hunique; [lia|done]).
      assert (Hz : z = if s then - mag else mag) by (destruct s; lia).
      rewrite <- Hz.
      rewrite (proj2 (Z.leb_le _ _)), (proj2 (Z.ltb_lt _ _)) by lia. done.
Qed.

(** A read changes neither the store nor the listener, the events or the
    timer. *)
Lemma getValue_untouched (v : VehiclePropValue) (hw : FakeVehicleHardware) :
  mServerSidePropStore (getValue v hw).2 = mServerSidePropStore hw
  /\ mOnPropertyChangeCallback (getValue v hw).2 = mOnPropertyChangeCallback hw
  /\ propertyChangeEvents (getValue v hw).2 = propertyChangeEvents hw
  /\ mRecurrentTimer (getValue v hw).2 = mRecurrentTimer hw.
Proof.
  unfold getValue, maybeGetSpecialValue, getUserHalProp, getEchoReverseBytes,
    elapsedRealtimeNano.
  repeat case_match; simplify_eq; done.
Qed.

(** A read does not depend on the timer. *)
Lemma getValue_withTimer (v : VehiclePropValue) (t : gmap nat TimerCallbackInfo)
    (hw : FakeVehicleHardware) :
  getValue v (withTimer t hw) = ((getValue v hw).1, withTimer t (getValue v hw).2).
Proof.
  assert (Hspecial : maybeGetSpecialValue v (withTimer t hw)
                     = ((maybeGetSpecialValue v hw).1,
                        withTimer t (maybeGetSpecialValue v hw).2)).
  { unfold maybeGetSpecialValue, getUserHalProp, getEchoReverseBytes,
      elapsedRealtimeNano.
    cbn [withTimer mServerSidePropStore mFakeUserHal clockReads].
    destruct (userHal_isSupported (prop v)).
    { by destruct (userHal_onGetProperty v (mFakeUserHal hw)) as [[[x|]|code] u]. }
    destruct (prop v =? OBD2_FREEZE_FRAME).
    { by destruct (obd2_getObd2FreezeFrame v (mServerSidePropStore hw)). }
    destruct (prop v =? OBD2_FREEZE_FRAME_INFO).
    { by destruct (obd2_getObd2DtcInfo (mServerSidePropStore hw)). }
    destruct (prop v =? ECHO_REVERSE_BYTES); [|done].
    by destruct (readValue v (mServerSidePropStore hw)). }
  unfold getValue. rewrite Hspecial.
  destruct (maybeGetSpecialValue v hw) as [[|[x|code]] h1]; cbn [fst snd]; try done.
  cbn [withTimer mServerSidePropStore].
  destruct (readValue v (mServerSidePropStore h1)) as [x|code]; [done|].
  by case_bool_decide.
Qed.

(** Writing a value right after removing it: the write is never taken for
    unchanged, so an accepted value is stored and notified; a value the store
    rejects for its area stays removed. *)
Lemma removeValue_writeValue (v : VehiclePropValue) (s : VehiclePropertyStore) :
  writeValue v false (removeValue v s)
  = match mRecordsByPropId s !! prop v with
    | Some rec =>
        let key := (prop v, areaId v, tokenOf rec v) in
        if areaPermitted rec (areaId v)
        then (Ok tt, withValues (<[key := v]> (mValues s)) s,
              if mOnValueChangeCallback s then Some v else None)
        else (Err INVALID_ARG, withValues (delete key (mValues s)) s, None)
    | None => (Err INVALID_ARG, s, None)
    end.
Proof.
  unfold removeValue, writeValue.
  destruct (mRecordsByPropId s !! prop v) as [rec|] eqn:Hrec; [|by rewrite Hrec].
  cbn [withValues mRecordsByPropId mValues mOnValueChangeCallback]. rewrite Hrec.
  destruct (areaPermitted rec (areaId v)); cbn [negb]; [|done].
  rewrite lookup_delete_eq. cbn [andb]. by rewrite insert_delete_eq.
Qed.

(** What a refresh of [(p, a)] does, whatever the property: nothing when the
    read fails; otherwise the value read, stamped with the clock reading
    after the read, is stored under its own key and notified. *)
Lemma refreshAction_effect (p a : Z) (h : FakeVehicleHardware) :
  mRecurrentTimer (refreshAction p a h) = mRecurrentTimer h
  /\ mOnPropertyChangeCallback (refreshAction p a h) = mOnPropertyChangeCallback h
  /\ match getValue (keyValue p a) h with
     | (Err _, _) =>
         mServerSidePropStore (refreshAction p a h) = mServerSidePropStore h
         /\ propertyChangeEvents (refreshAction p a h) = propertyChangeEvents h
     | (Ok x, h1) =>
         let refreshed := setTimestamp (clockAt (clockReads h1)) x in
         match mRecordsByPropId (mServerSidePropStore h) !! prop x with
         | Some rec =>
             let key := (prop x, areaId x, tokenOf rec refreshed) in
             if areaPermitted rec (areaId x) then
               mServerSidePropStore (refreshAction p a h)
               = withValues (<[key := refreshed]> (mValues (mServerSidePropStore h)))
                   (mServerSidePropStore h)
               /\ propertyChangeEvents (refreshAction p a h)
                  = propertyChangeEvents h ++ changeEvents h refreshed
             else
               mServerSidePropStore (refreshAction p a h)
               = withValues (delete key (mValues (mServerSidePropStore h)))
                   (mServerSidePropStore h)
               /\ propertyChangeEvents (refreshAction p a h) = propertyChangeEvents h
         | None =>
             mServerSidePropStore (refreshAction p a h) = mServerSidePropStore h
             /\ propertyChangeEvents (refreshAction p a h) = propertyChangeEvents h
         end
     end.
Proof.
  destruct (getValue_untouched (keyValue p a) h) as (Hstore & Hlistener & Hevents & Htimer).
  unfold refreshAction.
  destruct (getValue (keyValue p a) h) as [[x|code] h1]; cbn [snd] in *; [|done].
  change (elapsedRealtimeNano h1) with (clockAt (clockReads h1), (elapsedRealtimeNano h1).2).
  cbv beta iota zeta.
  set (refreshed := setTimestamp (clockAt (clockReads h1)) x).
  unfold storeWriteValue. cbn [mServerSidePropStore withStore elapsedRealtimeNano snd].
  rewrite removeValue_writeValue, Hstore.
  change (prop refreshed) with (prop x). change (areaId refreshed) with (areaId x).
  destruct (mRecordsByPropId (mServerSidePropStore h) !! prop x) as [rec|]; [|done].
  cbv zeta. destruct (areaPermitted rec (areaId x)); [|done].
  unfold changeEvents, onValueChangeCallback. cbn.
  rewrite <- Hlistener, <- Hevents.
  destruct (mOnValueChangeCallback (mServerSidePropStore h));
    destruct (mOnPropertyChangeCallback h1); cbn; by rewrite ?app_nil_r.
Qed.

(** C5.  On a facade whose recurrent actions are consistent (as they are in
    every state that [updateSampleRate] calls reach):
    - [updateSampleRate p a 0] returns [OK] and does not touch the store;
      afterwards no callback refreshing [(p, a)] is registered with the
      timer, and no callback that refreshed the key before can fire;
    - [updateSampleRate p a r] with [r] non-zero returns [OK] and registers
      one new callback for [(p, a)] whose interval is the double [1e9 / r]
      truncated (which must be an [int64_t]), first due one interval after
      the current clock reading; it is the key's entry in [mRecurrentActions]
      and the only callback registered for the key: the callback the key had
      before is no longer registered;
    - in every state, a due callback for [(p, a)] fires: it stays registered
      with its deadline moved on by its interval, and it reads the key with
      [getValue]; when the read fails nothing is written; otherwise the value
      read is stamped with the clock reading taken after the read and,
      because the stored value is removed first, the write of the stamped
      value is never taken for unchanged: once accepted it is stored under
      its key and notified to the listener (a write the store rejects for its
      area leaves the key without value);
    - for a stored plain property the value read is the stored one, so a
      firing leaves under the key the same value with the fresh timestamp and
      delivers it to the listener. *)
Theorem updateSampleRate_timer_callback (p a : Z) (r : float)
    (hw : FakeVehicleHardware) :
  recurrentActionsConsistent hw ->
  ((r =? 0)%float = true ->
   exists hw',
     updateSampleRate p a r hw = Some (OK, hw')
     /\ ~ timerRefreshes (p, a) hw'
     /\ (forall handle info,
           mRecurrentTimer hw !! handle = Some info ->
           actionKey (timerAction info) = (p, a) ->
           fireTimerCallback handle hw' = None)
     /\ (forall handle info,
           mRecurrentTimer hw' !! handle = Some info ->
           mRecurrentTimer hw !! handle = Some info)
     /\ mServerSidePropStore hw' = mServerSidePropStore hw)
  /\ (forall interval,
        (r =? 0)%float = false ->
        truncatesTo (1e9 / r)%float interval ->
        - 2 ^ 63 <= interval < 2 ^ 63 ->
        let action := {| actionHandle := allocatedActions hw;
                         actionPropId := p; actionAreaId := a |} in
        let info := {| timerAction := action; timerInterval := interval;
                       timerNextTime := clockAt (clockReads hw) + interval |} in
        exists hw',
          updateSampleRate p a r hw = Some (OK, hw')
          /\ mRecurrentActions hw' !! (p, a) = Some action
          /\ mRecurrentTimer hw' !! allocatedActions hw = Some info
          /\ (forall handle other,
                mRecurrentTimer hw' !! handle = Some other ->
                actionKey (timerAction other) = (p, a) ->
                handle = allocatedActions hw)
          /\ (forall old,
                mRecurrentActions hw !! (p, a) = Some old ->
                mRecurrentTimer hw' !! actionHandle old = None)
          /\ mServerSidePropStore hw' = mServerSidePropStore hw)
  /\ (forall (h : FakeVehicleHardware) handle info,
        mRecurrentTimer h !! handle = Some info ->
        actionKey (timerAction info) = (p, a) ->
        timerNextTime info <= clockAt (clockReads h) ->
        exists h',
          fireTimerCallback handle h = Some h'
          /\ mRecurrentTimer h' !! handle
             = Some {| timerAction := timerAction info;
                       timerInterval := timerInterval info;
                       timerNextTime := timerNextTime info + timerInterval info |}
          /\ match getValue (keyValue p a) (elapsedRealtimeNano h).2 with
             | (Err _, _) =>
                 mServerSidePropStore h' = mServerSidePropStore h
                 /\ propertyChangeEvents h' = propertyChangeEvents h
             | (Ok x, h1) =>
                 let refreshed := setTimestamp (clockAt (clockReads h1)) x in
                 match mRecordsByPropId (mServerSidePropStore h) !! prop x with
                 | Some rec =>
                     let key := (prop x, areaId x, tokenOf rec refreshed) in
                     if areaPermitted rec (areaId x) then
                       mServerSidePropStore h'
                       = withValues
                           (<[key := refreshed]> (mValues (mServerSidePropStore h)))
                           (mServerSidePropStore h)
                       /\ propertyChangeEvents h'
                          = propertyChangeEvents h ++ changeEvents h refreshed
                     else
                       mServerSidePropStore h'
                       = withValues (delete key (mValues (mServerSidePropStore h)))
                           (mServerSidePropStore h)
                       /\ propertyChangeEvents h' = propertyChangeEvents h
                 | None =>
                     mServerSidePropStore h' = mServerSidePropStore h
                     /\ propertyChangeEvents h' = propertyChangeEvents h
                 end
             end)
  /\ (forall (h : FakeVehicleHardware) handle info x rec,
        mRecurrentTimer h !! handle = Some info ->
        actionKey (timerAction info) = (p, a) ->
        timerNextTime info <= clockAt (clockReads h) ->
        hasSpecialGet p = false ->
        mRecordsByPropId (mServerSidePropStore h) !! p = Some rec ->
        tokenFunction rec = None ->
        areaPermitted rec a = true ->
        mValues (mServerSidePropStore h) !! (p, a, 0) = Some x ->
        prop x = p -> areaId x = a ->
        let refreshed := setTimestamp (clockAt (S (clockReads h))) x in
        exists h',
          fireTimerCallback handle h = Some h'
          /\ readValueById p a 0 (mServerSidePropStore h') = Ok refreshed
          /\ mValues (mServerSidePropStore h')
             = <[(p, a, 0) := refreshed]> (mValues (mServerSidePropStore h))
          /\ propertyChangeEvents h'
             = propertyChangeEvents h ++ changeEvents h refreshed).
Proof.
  intros Hc.
  assert (Hfire : forall (h : FakeVehicleHardware) handle info,
            mRecurrentTimer h !! handle = Some info ->
            actionKey (timerAction info) = (p, a) ->
            timerNextTime info <= clockAt (clockReads h) ->
            let rescheduled :=
              {| timerAction := timerAction info; timerInterval := timerInterval info;
                 timerNextTime := timerNextTime info + timerInterval info |} in
            let h0 := withTimer (<[handle := rescheduled]> (mRecurrentTimer h))
                        (elapsedRealtimeNano h).2 in
            fireTimerCallback handle h = Some (refreshAction p a h0)
            /\ mRecurrentTimer (refreshAction p a h0) !! handle = Some rescheduled).
  { intros h handle info Hinfo Hkey Hdue rescheduled h0.
    unfold actionKey in Hkey. injection Hkey as Hp Ha.
    split.
    - unfold fireTimerCallback. rewrite Hinfo.
      change (elapsedRealtimeNano h) with (clockAt (clockReads h), (elapsedRealtimeNano h).2).
      cbv beta iota. rewrite (proj2 (Z.leb_le _ _) Hdue). by rewrite Hp, Ha.
    - destruct (refreshAction_effect p a h0) as (-> & _). subst h0.
      cbn [withTimer mRecurrentTimer]. apply lookup_insert_eq. }
  split; [|split; [|split]].
  - intros Hr. eexists. split; [by apply updateSampleRate_zero|].
    destruct (updateSampleRate_step p a r OK hw _ Hc (updateSampleRate_zero p a r hw Hr)
                (p, a)) as [Hstep _].
    rewrite bool_decide_eq_true_2 in Hstep by done.
    pose proof Hc as (HT & HM & HU).
    split; [|split; [|split]].
    + intros H. apply Hstep in H. congruence.
    + intros handle info Hinfo Hkey. destruct (HT _ _ Hinfo) as [Hhandle Hmap].
      rewrite Hkey in Hmap. unfold fireTimerCallback. rewrite Hmap.
      cbn [withTimer mRecurrentTimer]. by rewrite Hhandle, lookup_delete_eq.
    + intros handle info. destruct (mRecurrentActions hw !! (p, a)); [|done].
      simpl. intros H. by apply lookup_delete_Some in H as [_ H].
    + by destruct (mRecurrentActions hw !! (p, a)).
  - intros interval Hr Htrunc Hrange action info.
    assert (Hi : float_to_int64 (1e9 / r)%float = Some interval)
      by (by apply float_to_int64_truncates).
    destruct (updateSampleRate_nonzero p a r interval hw Hr Hi)
      as (hw' & Hrun & Hmap & Htimer & Halloc & Hstore & _).
    exists hw'. split; [done|].
    pose proof (consistent_step _ _ _ _ _ _ Hc Hrun) as (HT & HM & HU).
    assert (Hnew : mRecurrentTimer hw' !! allocatedActions hw = Some info)
      by (rewrite Htimer; apply lookup_insert_eq).
    assert (Hact : mRecurrentActions hw' !! (p, a) = Some action)
      by (rewrite Hmap; apply lookup_insert_eq).
    split; [done|]. split; [done|]. split; [|split; [|done]].
    + intros handle other Hlook Hkey. destruct (HT _ _ Hlook) as [<- Hm].
      rewrite Hkey, Hact in Hm. by injection Hm as <-.
    + intros old Hold. pose proof Hc as (_ & HM0 & _).
      destruct (HM0 _ _ Hold) as [Hlt _].
      rewrite Htimer, Hold, lookup_insert_ne by lia. apply lookup_delete_eq.
  - intros h handle info Hinfo Hkey Hdue.
    destruct (Hfire h handle info Hinfo Hkey Hdue) as [Hrun Hstill].
    eexists. split; [exact Hrun|]. split; [exact Hstill|].
    destruct (refreshAction_effect p a
                (withTimer
                   (<[handle := {| timerAction := timerAction info;
                                   timerInterval := timerInterval info;
                                   timerNextTime := timerNextTime info + timerInterval info |}]>
                      (mRecurrentTimer h)) (elapsedRealtimeNano h).2))
      as (_ & _ & Heffect).
    rewrite getValue_withTimer in Heffect.
    destruct (getValue (keyValue p a) (elapsedRealtimeNano h).2) as [[x|code] h1];
      exact Heffect.
  - intros h handle info x rec Hinfo Hkey Hdue Hplain Hrec Htoken Harea Hx Hp Ha refreshed.
    destruct (Hfire h handle info Hinfo Hkey Hdue) as [Hrun _].
    eexists. split; [exact Hrun|].
    match goal with |- context [refreshAction p a ?h0] => set (hw0 := h0) end.
    destruct (refreshAction_stored p a hw0 x rec Hplain Hrec Htoken Harea Hx Hp Ha)
      as [Hvalues Hevents].
    change (clockReads hw0) with (S (clockReads h)) in Hvalues, Hevents.
    fold refreshed in Hvalues, Hevents.
    split; [|split; [exact Hvalues|exact Hevents]].
    unfold readValueById.
    assert (Hrecords : mRecordsByPropId (mServerSidePropStore (refreshAction p a hw0))
                       = mRecordsByPropId (mServerSidePropStore h)).
    { destruct (refreshAction_effect p a hw0) as (_ & _ & Heffect).
      destruct (getValue (keyValue p a) hw0) as [[y|code] h1].
      - cbv zeta in Heffect.
        destruct (mRecordsByPropId (mServerSidePropStore hw0) !! prop y) as [rec'|];
          [destruct (areaPermitted rec' (areaId y))|];
          destruct Heffect as [-> _]; done.
      - by destruct Heffect as [-> _]. }
    by rewrite Hrecords, Hrec, Hvalues, lookup_insert_eq.
Qed.

End SampleRate.

(** C3 as stated fails after a rate of 0: [updateSampleRate 1000 0 10]
    followed by [updateSampleRate 1000 0 0] leaves the entry for (1000, 0) in
    [mRecurrentActions] although the most recent rate is zero; only the timer
    callback is gone. *)
Lemma updateSampleRate_zero_keeps_map_entry :
  let calls := [(1000, 0, 10%float); (1000, 0, 0%float)] in
  let hw0 := @newHardware referencePlatform tt oneValueStore in
  let hw := afterUpdateSampleRate calls hw0 in
  runUpdateSampleRate calls hw0 = Some hw
  /\ lastRateNonzero (1000, 0) calls = false
  /\ mRecurrentActions hw !! (1000, 0)
     = Some {| actionHandle := 0; actionPropId := 1000; actionAreaId := 0 |}
  /\ mRecurrentTimer hw = ∅
  /\ ~ (is_Some (mRecurrentActions hw !! (1000, 0)) <->
        lastRateNonzero (1000, 0) calls = true).
Proof.
  intros calls hw0 hw.
  split; [reflexivity|]. split; [reflexivity|].
  split; [reflexivity|]. split; [reflexivity|].
  intros [Hiff _]. assert (Hfalse : false = true); [|discriminate Hfalse].
  apply Hiff. by eexists.
Qed.

(** C3 at a concrete sequence of calls. *)
Lemma updateSampleRate_recurrentActions_witness :
  let calls := [(1000, 0, 10%float); (1001, 0, 4%float); (1000, 0, 0%float)] in
  let hw0 := @newHardware referencePlatform tt oneValueStore in
  let hw := afterUpdateSampleRate calls hw0 in
  (timerRefreshes (1000, 0) hw <-> lastRateNonzero (1000, 0) calls = true)
  /\ (forall handle1 handle2 info1 info2,
        mRecurrentTimer hw !! handle1 = Some info1 ->
        mRecurrentTimer hw !! handle2 = Some info2 ->
        actionKey (timerAction info1) = (1000, 0) ->
        actionKey (timerAction info2) = (1000, 0) ->
        handle1 = handle2)
  /\ (is_Some (mRecurrentActions hw !! (1000, 0)) <->
      someRateNonzero (1000, 0) calls = true).
Proof.
  intros calls hw0 hw.
  apply (@updateSampleRate_recurrentActions referencePlatform calls hw0 hw (1000, 0));
    evaluate_sides.
Defined.

Lemma sampledHardware_consistent :
  @recurrentActionsConsistent referencePlatform sampledHardware.
Proof.
  apply (@consistent_step referencePlatform 1000 0 1000%float OK
           (@registerOnPropertyChangeEvent referencePlatform 1
              (@newHardware referencePlatform tt oneValueStore))).
  - by apply consistent_initial.
  - reflexivity.
Qed.

(** C5 at concrete states.  A rate of 1000 Hz for (1000, 0) on a facade with
    listener 1 registers callback 0 with interval 1000000, first due at
    1000000: this is [sampledHardware].  There the callback is due at the
    next clock reading; firing it leaves the stored 7 with the timestamp
    2000000 and delivers it to the listener.  A rate of 0 unregisters the
    callback, which can then no longer fire. *)
Lemma updateSampleRate_timer_callback_witness :
  (exists hw',
     @updateSampleRate referencePlatform 1000 0 1000%float
       (@registerOnPropertyChangeEvent referencePlatform 1
          (@newHardware referencePlatform tt oneValueStore))
     = Some (OK, hw')
     /\ mRecurrentTimer hw' !! 0%nat
        = Some {| timerAction := {| actionHandle := 0; actionPropId := 1000;
                                    actionAreaId := 0 |};
                  timerInterval := 1000000; timerNextTime := 1000000 |})
  /\ (exists h',
        @fireTimerCallback referencePlatform 0 sampledHardware = Some h'
        /\ readValueById 1000 0 0 (mServerSidePropStore h')
           = Ok (int32Value 1000 0 2000000 [7])
        /\ propertyChangeEvents h'
           = propertyChangeEvents sampledHardware
             ++ [(1%nat, [int32Value 1000 0 2000000 [7]])])
  /\ (exists hw',
        @updateSampleRate referencePlatform 1000 0 0%float sampledHardware
        = Some (OK, hw')
        /\ ~ timerRefreshes (1000, 0) hw'
        /\ @fireTimerCallback referencePlatform 0 hw' = None).
Proof.
  assert (Hcallback :
            mRecurrentTimer sampledHardware !! 0%nat
            = Some {| timerAction := {| actionHandle := 0; actionPropId := 1000;
                                        actionAreaId := 0 |};
                      timerInterval := 1000000; timerNextTime := 1000000 |})
    by evaluate_sides.
  split; [|split].
  - assert (Hinitial : @recurrentActionsConsistent referencePlatform
                         (@registerOnPropertyChangeEvent referencePlatform 1
                            (@newHardware referencePlatform tt oneValueStore)))
      by (by apply consistent_initial).
    destruct (@updateSampleRate_timer_callback referencePlatform 1000 0 1000%float
                _ Hinitial) as (_ & Hrate & _).
    destruct (Hrate 1000000) as (hw' & Hrun & _ & Htimer & _).
    + reflexivity.
    + unfold truncatesTo. vm_compute. repeat split; discriminate.
    + by vm_compute.
    + exists hw'. split; [exact Hrun|exact Htimer].
  - destruct (@updateSampleRate_timer_callback referencePlatform 1000 0 1000%float
                sampledHardware sampledHardware_consistent) as (_ & _ & _ & Hfire).
    destruct (Hfire sampledHardware 0%nat _ (int32Value 1000 0 5 [7])
                {| propConfig := globalConfig 1000; tokenFunction := None |} Hcallback)
      as (h' & Hrun & Hread & _ & Hevents).
    + reflexivity.
    + by vm_compute.
    + reflexivity.
    + evaluate_sides.
    + reflexivity.
    + reflexivity.
    + evaluate_sides.
    + reflexivity.
    + reflexivity.
    + assert (Hstamp : setTimestamp
                         (@clockAt referencePlatform (S (clockReads sampledHardware)))
                         (int32Value 1000 0 5 [7])
                       = int32Value 1000 0 2000000 [7]) by evaluate_sides.
      rewrite Hstamp in Hread, Hevents.
      assert (Hsent : changeEvents sampledHardware (int32Value 1000 0 2000000 [7])
                      = [(1%nat, [int32Value 1000 0 2000000 [7]])]) by evaluate_sides.
      rewrite Hsent in Hevents.
      exists h'. split; [exact Hrun|]. split; [exact Hread|exact Hevents].
  - destruct (@updateSampleRate_timer_callback referencePlatform 1000 0 0%float
                sampledHardware sampledHardware_consistent) as [Hzero _].
    destruct (Hzero eq_refl) as (hw' & Hrun & Hnone & Hsilent & _).
    exists hw'. split; [exact Hrun|]. split; [exact Hnone|].
    by apply (Hsilent 0%nat _ Hcallback).
Defined.

(** The interval of a rate: 10 Hz gives 100 ms, 3 Hz gives 1e9/3 truncated,
    and a rate too small for an [int64_t] interval is undefined. *)
Example updateSampleRate_intervals :
  float_to_int64 (1e9 / 10)%float = Some 100000000
  /\ float_to_int64 (1e9 / 3)%float = Some 333333333
  /\ float_to_int64 (1e9 / 0x1p-40)%float = None.
Proof. repeat split; reflexivity. Qed.

(** Truncation is towards zero, on either side of it, and leaves no other
    choice. *)
Example truncatesTo_examples :
  truncatesTo (1e9 / 3)%float 333333333
  /\ ~ truncatesTo (1e9 / 3)%float 333333334
  /\ truncatesTo (-1.75)%float (-1)
  /\ ~ truncatesTo (-1.75)%float (-2)
  /\ truncatesTo (-0.75)%float 0
  /\ float_to_int64 (-1.75)%float = Some (-1)
  /\ float_to_int64 0x1p63%float = None.
Proof.
  unfold truncatesTo. vm_compute.
  repeat split; try discriminate;
    intros (H1 & H2 & H3); first [by apply H1 | by apply H2 | by apply H3].
Qed.

(** Firing the callback of [sampledHardware] once it is due: the stored 7
    gets the timestamp of the firing, listener 1 receives it, and the next
    deadline is one interval later. *)
Example fireTimerCallback_refreshes :
  let hw' := afterFire 0 sampledHardware in
  @fireTimerCallback referencePlatform 0 sampledHardware = Some hw'
  /\ readValueById 1000 0 0 (mServerSidePropStore hw')
     = Ok (int32Value 1000 0 2000000 [7])
  /\ propertyChangeEvents hw' = [(1%nat, [int32Value 1000 0 2000000 [7]])]
  /\ (timerNextTime <$> mRecurrentTimer hw' !! 0%nat) = Some 2000000.
Proof. intros hw'. evaluate_sides. Qed.

(** Three get requests of one callback, the second for a property that was
    never written: the callback is invoked once, with the three results in
    order. *)
Example handleRequestsOnce_three_requests :
  let request id p := {| GetValueRequest.requestId := id;
                         GetValueRequest.prop := keyValue p 0 |} in
  let hw := (@getValues referencePlatform 5
               [request 11 1000; request 12 1001; request 13 1000]
               oneValueHardware).2 in
  (@handleGetRequestsOnce referencePlatform hw).1
  = [(5%nat,
      [{| GetValueResult.requestId := 11; GetValueResult.status := OK;
          GetValueResult.prop := Some (int32Value 1000 0 5 [7]) |};
       {| GetValueResult.requestId := 12; GetValueResult.status := NOT_AVAILABLE;
          GetValueResult.prop := None |};
       {| GetValueResult.requestId := 13; GetValueResult.status := OK;
          GetValueResult.prop := Some (int32Value 1000 0 5 [7]) |}])].
Proof. intros request hw. evaluate_sides. Qed.

(** * Properties of the dump-argument helpers *)

Section HexStrings.
Import DumpArgs.

Lemma hexDigit_range (c : ascii) (v : Z) :
  hexDigit c = Some v -> 0 <= v < 16.
Proof.
  unfold hexDigit. intros H.
  destruct ((48 <=? Z.of_N (N_of_ascii c)) && (Z.of_N (N_of_ascii c) <=? 57)) eqn:H1.
  - apply andb_true_iff in H1 as [?%Z.leb_le ?%Z.leb_le]. injection H as <-. lia.
  - destruct ((97 <=? Z.of_N (N_of_ascii c)) && (Z.of_N (N_of_ascii c) <=? 102)) eqn:H2;
      [|done].
    apply andb_true_iff in H2 as [?%Z.leb_le ?%Z.leb_le]. injection H as <-. lia.
Qed.

Lemma lowerString_length (s : string) :
  String.length (lowerString s) = String.length s.
Proof. induction s as [|c s IH]; simpl; [done | by rewrite IH]. Qed.

Lemma allHexDigits_lowerString (s : string) :
  allHexDigits (lowerString s) = allHexChars s.
Proof. induction s as [|c s IH]; simpl; [done|]. by rewrite IH. Qed.

Lemma parseHexDigits_pair (subs rest : string) (c1 c2 : ascii) (v1 v2 : Z)
    (bytes : list Z) :
  hexDigit c1 = Some v1 -> hexDigit c2 = Some v2 ->
  parseHexDigits subs (String c1 (String c2 rest)) bytes true
  = parseHexDigits subs rest (bytes ++ [v1 * 16 + v2]) true.
Proof.
  intros H1 H2. pose proof (hexDigit_range _ _ H1). pose proof (hexDigit_range _ _ H2).
  simpl. rewrite H1, H2. simpl. f_equal.
  rewrite length_app. simpl.
  replace (length bytes + 1 - 1)%nat with (length bytes + 0)%nat by lia.
  rewrite alter_app_r. simpl. do 2 f_equal.
  rewrite (Z.mod_small (v1 * 16)) by lia. apply Z.mod_small. lia.
Qed.

(** The loop on an even number of digits: one byte per pair. *)
Lemma parseHexDigits_even (subs : string) (n : nat) :
  forall (rest : string) (bytes : list Z),
    String.length rest = (2 * n)%nat ->
    allHexDigits rest = true ->
    exists out,
      parseHexDigits subs rest bytes true = inr (bytes ++ out)
      /\ length out = n
      /\ Forall (fun b => 0 <= b < 256) out.
Proof.
  induction n as [|n IH]; intros rest bytes Hlen Hall.
  - destruct rest; [|done]. exists []. simpl. by rewrite app_nil_r.
  - destruct rest as [|c1 [|c2 rest]]; [done | simpl in Hlen; lia |].
    simpl in Hlen, Hall.
    destruct (hexDigit c1) as [v1|] eqn:H1; [|done].
    destruct (hexDigit c2) as [v2|] eqn:H2; [|done].
    simpl in Hall.
    destruct (IH rest (bytes ++ [v1 * 16 + v2])) as (out & Hrun & Hn & Hrange);
      [lia | done |].
    exists ((v1 * 16 + v2) :: out). rewrite (parseHexDigits_pair _ _ _ _ v1 v2) by done.
    rewrite Hrun, <- app_assoc. split; [done|]. split; [simpl; lia|].
    constructor; [|done].
    pose proof (hexDigit_range _ _ H1). pose proof (hexDigit_range _ _ H2). lia.
Qed.

Lemma parseHexDigits_ok_digits (subs rest : string) :
  forall (bytes : list Z) (highDigit : bool) (out : list Z),
    parseHexDigits subs rest bytes highDigit = inr out ->
    allHexDigits rest = true.
Proof.
  induction rest as [|c rest IH]; intros bytes highDigit out; simpl; [done|].
  destruct (hexDigit c) as [v|]; [|done]. intros H. simpl. by eapply IH.
Qed.

Lemma StartsWith_0x (s : string) :
  StartsWith s "0x" = true <-> exists rest, s = String "0" (String "x" rest).
Proof.
  split.
  - destruct s as [|c1 [|c2 rest]]; simpl; rewrite ?andb_false_r; try done.
    intros [?%bool_decide_eq_true [?%bool_decide_eq_true _]%andb_true_iff]%andb_true_iff.
    subst. by eexists.
  - intros [rest ->]. by destruct rest.
Qed.

(** X1.  [parseHexString] succeeds exactly on the strings of even length
    that start with the lower-case prefix 0x and continue with hexadecimal
    digits of either case; the result then holds one byte, between 0 and
    255, for every two digits. *)
Theorem parseHexString_succeeds_iff (s : string) :
  ((exists bytes, parseHexString s = inr bytes) <->
   (String.length s mod 2 = 0)%nat
   /\ StartsWith s "0x" = true
   /\ allHexChars (substr 2 s) = true)
  /\ (forall bytes,
        parseHexString s = inr bytes ->
        String.length s = (2 * length bytes + 2)%nat
        /\ Forall (fun b => 0 <= b < 256) bytes).
Proof.
  unfold parseHexString.
  destruct (String.length s mod 2 =? 0)%nat eqn:Heven; simpl.
  2: { split; [|done]. apply Nat.eqb_neq in Heven. split; [by intros [? ?] | tauto]. }
  apply Nat.eqb_eq in Heven.
  destruct (StartsWith s "0x") eqn:Hprefix; simpl.
  2: { split; [|done]. split; [by intros [? ?] | by intros (_ & ? & _)]. }
  apply StartsWith_0x in Hprefix as [rest ->].
  cbn [substr]. cbn [String.length] in Heven.
  assert (Hn : exists n, String.length (lowerString rest) = (2 * n)%nat).
  { rewrite lowerString_length. exists (String.length rest / 2)%nat.
    pose proof (Nat.div_mod_eq (S (S (String.length rest))) 2) as Hs.
    pose proof (Nat.div_mod_eq (String.length rest) 2) as Hr.
    assert (String.length rest mod 2 = 0)%nat; [|lia].
    replace (S (S (String.length rest))) with (String.length rest + 1 * 2)%nat in Heven
      by lia.
    by rewrite Nat.Div0.mod_add in Heven. }
  destruct Hn as [n Hn]. split.
  - split.
    + intros [bytes Hrun]. split; [done|]. split; [done|].
      rewrite <- allHexDigits_lowerString. by eapply parseHexDigits_ok_digits.
    + intros (_ & _ & Hall). rewrite <- allHexDigits_lowerString in Hall.
      destruct (parseHexDigits_even (lowerString rest) n (lowerString rest) [] Hn Hall)
        as (out & Hrun & _). by exists out.
  - intros bytes Hrun.
    pose proof (parseHexDigits_ok_digits _ _ _ _ _ Hrun) as Hall.
    destruct (parseHexDigits_even (lowerString rest) n (lowerString rest) [] Hn Hall)
      as (out & Hrun' & Hlen & Hrange).
    rewrite Hrun in Hrun'. injection Hrun' as ->. simpl.
    rewrite lowerString_length in Hn. split; [lia | done].
Qed.

Lemma hexDigit_hexDigitChar (n : Z) :
  0 <= n < 16 ->
  hexDigit (spec_hexDigitChar n) = Some n
  /\ toLower (spec_hexDigitChar n) = spec_hexDigitChar n.
Proof.
  intros Hn. replace n with (Z.of_nat (Z.to_nat n)) by lia.
  assert (Hk : (Z.to_nat n < 16)%nat) by lia.
  revert Hk. generalize (Z.to_nat n) as k. intros k Hk.
  do 16 (destruct k as [|k]; [by vm_compute|]). lia.
Qed.

Lemma lowerString_hexOfBytes (bytes : list Z) :
  Forall (fun b => 0 <= b < 256) bytes ->
  lowerString (spec_hexOfBytes bytes) = spec_hexOfBytes bytes.
Proof.
  induction 1 as [|b bytes Hb _ IH]; simpl; [done|].
  destruct (hexDigit_hexDigitChar (b / 16)) as [_ ->];
    [split; [apply Z.div_pos; lia | apply Z.div_lt_upper_bound; lia]|].
  destruct (hexDigit_hexDigitChar (b mod 16)) as [_ ->];
    [apply Z.mod_pos_bound; lia|].
  by rewrite IH.
Qed.

Lemma parseHexDigits_hexOfBytes (subs : string) (bytes acc : list Z) :
  Forall (fun b => 0 <= b < 256) bytes ->
  parseHexDigits subs (spec_hexOfBytes bytes) acc true = inr (acc ++ bytes).
Proof.
  intros Hall. revert acc.
  induction Hall as [|b bytes Hb _ IH]; intros acc; simpl spec_hexOfBytes.
  - simpl. by rewrite app_nil_r.
  - destruct (hexDigit_hexDigitChar (b / 16)) as [H1 _];
      [split; [apply Z.div_pos; lia | apply Z.div_lt_upper_bound; lia]|].
    destruct (hexDigit_hexDigitChar (b mod 16)) as [H2 _];
      [apply Z.mod_pos_bound; lia|].
    rewrite (parseHexDigits_pair _ _ _ _ _ _ _ H1 H2), IH, <- app_assoc.
    simpl. do 3 f_equal. pose proof (Z.div_mod b 16 ltac:(lia)). lia.
Qed.

Lemma hexOfBytes_length (bytes : list Z) :
  String.length (spec_hexOfBytes bytes) = (2 * length bytes)%nat.
Proof. induction bytes as [|b bytes IH]; simpl; [done | rewrite IH; lia]. Qed.

(** X2.  Round trip: the text of any list of bytes, written 0x followed by
    two lower-case hexadecimal digits per byte, parses back to that list. *)
Theorem parseHexString_hexOfBytes (bytes : list Z) :
  Forall (fun b => 0 <= b < 256) bytes ->
  parseHexString (String "0" (String "x" (spec_hexOfBytes bytes))) = inr bytes.
Proof.
  intros Hall. unfold parseHexString. cbn [String.length substr].
  rewrite hexOfBytes_length.
  replace (S (S (2 * length bytes))) with (0 + (S (length bytes)) * 2)%nat by lia.
  rewrite Nat.Div0.mod_add. cbn [Nat.modulo Nat.eqb negb].
  rewrite (proj2 (StartsWith_0x _)) by eauto. cbn [negb].
  rewrite lowerString_hexOfBytes by done.
  by rewrite parseHexDigits_hexOfBytes.
Qed.

Lemma parseHexDigits_error (subs rest : string) :
  forall (bytes : list Z) (highDigit : bool) (c : ascii) (subs' : string),
    parseHexDigits subs rest bytes highDigit = inl (HexInvalidCharacter c subs') ->
    subs' = subs /\ hexDigit c = None
    /\ exists pre post,
         rest = (pre ++ String c post)%string /\ allHexDigits pre = true.
Proof.
  induction rest as [|a rest IH]; intros bytes highDigit c subs'; simpl; [done|].
  destruct (hexDigit a) as [v|] eqn:Ha.
  - intros H. destruct (IH _ _ _ _ H) as (-> & Hc & pre & post & -> & Hpre).
    split; [done|]. split; [done|]. exists (String a pre), post.
    split; [done|]. simpl. by rewrite Ha.
  - intros [= <- <-]. split; [done|]. split; [done|].
    by exists EmptyString, rest.
Qed.

Lemma parseHexDigits_no_other_error (subs rest : string) :
  forall (bytes : list Z) (highDigit : bool) (s : string),
    parseHexDigits subs rest bytes highDigit <> inl (HexOddSize s)
    /\ parseHexDigits subs rest bytes highDigit <> inl (HexNoPrefix s).
Proof.
  induction rest as [|a rest IH]; intros bytes highDigit s; simpl; [done|].
  destruct (hexDigit a); [apply IH | done].
Qed.

(** X3.  The failures of [parseHexString], in the order the code checks
    them: a string of odd length is rejected for its length, whatever its
    prefix; a string of even length that does not start with 0x is rejected
    for its prefix; otherwise the first character after the prefix that is
    not a hexadecimal digit is reported, in lower case, together with the
    lower-cased digits. *)
Theorem parseHexString_failures (s : string) :
  ((String.length s mod 2 <> 0)%nat -> parseHexString s = inl (HexOddSize s))
  /\ ((String.length s mod 2 = 0)%nat -> StartsWith s "0x" = false ->
      parseHexString s = inl (HexNoPrefix s))
  /\ (forall c subs,
        parseHexString s = inl (HexInvalidCharacter c subs) ->
        (String.length s mod 2 = 0)%nat
        /\ StartsWith s "0x" = true
        /\ subs = lowerString (substr 2 s)
        /\ hexDigit c = None
        /\ exists pre post,
             subs = (pre ++ String c post)%string /\ allHexDigits pre = true).
Proof.
  unfold parseHexString. split; [|split].
  - intros Hodd. by rewrite (proj2 (Nat.eqb_neq _ _) Hodd).
  - intros Heven Hprefix. by rewrite (proj2 (Nat.eqb_eq _ _) Heven), Hprefix.
  - intros c subs.
    destruct (String.length s mod 2 =? 0)%nat eqn:Heven; [|done].
    destruct (StartsWith s "0x") eqn:Hprefix; [|done]. simpl.
    intros H. apply parseHexDigits_error in H as (-> & Hc & pre & post & Hsplit & Hpre).
    apply Nat.eqb_eq in Heven. eauto 10.
Qed.

End HexStrings.

Lemma parseHexString_hexOfBytes_witness :
  DumpArgs.parseHexString "0xdeadbeef" = inr [222; 173; 190; 239].
Proof.
  apply (parseHexString_hexOfBytes [222; 173; 190; 239]).
  repeat constructor; lia.
Defined.

Section OptionValues.
Import DumpArgs.

Lemma getOptionValuesFrom_spec (rest : list string) :
  forall (values : list string) (index : nat),
    exists taken remaining,
      getOptionValuesFrom rest values index = (values ++ taken, (index + length taken)%nat)
      /\ rest = taken ++ remaining
      /\ Forall (fun o => o ∉ SET_PROP_OPTIONS) taken
      /\ match remaining with
         | [] => True
         | o :: _ => o ∈ SET_PROP_OPTIONS
         end.
Proof.
  induction rest as [|o rest IH]; intros values index; simpl.
  - exists [], []. rewrite app_nil_r, Nat.add_0_r. done.
  - case_bool_decide as Ho.
    + exists [], (o :: rest). rewrite app_nil_r, Nat.add_0_r. done.
    + destruct (IH (values ++ [o]) (S index)) as (taken & remaining & -> & -> & Hall & Hrem).
      exists (o :: taken), remaining. rewrite <- app_assoc. simpl.
      split; [f_equal; lia|]. split; [done|]. split; [by constructor | done].
Qed.

(** X4.  [getOptionValues] returns the longest run of options, starting at
    the index, that are not among the seven option names of [--set]
    (compared exactly, case included), and advances the index past that run:
    the index then is at the end of the options or at an option name.  An
    index at or beyond the end yields no value and stays. *)
Theorem getOptionValues_longest_run (options : list string) (index : nat) :
  let values := (getOptionValues options index).1 in
  let index' := (getOptionValues options index).2 in
  index' = (index + length values)%nat
  /\ drop index options = values ++ drop index' options
  /\ Forall (fun o => o ∉ SET_PROP_OPTIONS) values
  /\ (forall o, options !! index' = Some o -> o ∈ SET_PROP_OPTIONS)
  /\ ((length options <= index)%nat -> values = [] /\ index' = index).
Proof.
  unfold getOptionValues.
  destruct (getOptionValuesFrom_spec (drop index options) [] index)
    as (taken & remaining & Hrun & Hsplit & Hall & Hrem).
  rewrite Hrun. cbn [fst snd app].
  assert (Hdrop : drop (index + length taken) options = remaining).
  { rewrite <- drop_drop, Hsplit. by rewrite drop_app_length. }
  split; [done|]. split; [by rewrite Hdrop|]. split; [done|]. split.
  - intros o Ho.
    assert (Hhead : drop (index + length taken) options !! 0%nat = Some o)
      by (by rewrite lookup_drop, Nat.add_0_r).
    rewrite Hdrop in Hhead. by destruct remaining; simplify_eq/=.
  - intros Hlen. rewrite drop_ge in Hsplit by done.
    symmetry in Hsplit. apply app_eq_nil in Hsplit as [-> _]. simpl. split; [done | lia].
Qed.

End OptionValues.

Section ParsePropOptions.
Import DumpArgs.
Context {parsers : Parsers}.

Lemma getOptionValues_index (options : list string) (index : nat) :
  (index <= (getOptionValues options index).2)%nat
  /\ forall o, options !! (getOptionValues options index).2 = Some o ->
               o ∈ SET_PROP_OPTIONS.
Proof.
  unfold getOptionValues.
  destruct (getOptionValuesFrom_spec (drop index options) [] index)
    as (taken & remaining & Hrun & Hsplit & Hall & Hrem).
  rewrite Hrun. cbn [snd]. split; [lia|]. intros o Ho.
  assert (Hhead : drop (length taken) (drop index options) !! 0%nat = Some o)
    by (by rewrite drop_drop, lookup_drop, Nat.add_0_r).
  rewrite Hsplit, drop_app_length in Hhead. by destruct remaining; simplify_eq/=.
Qed.

Lemma parseValues_error parse wrap index argValues e :
  parseValues parse wrap index argValues = inl e -> exists s a, e = wrap s a.
Proof.
  revert index. induction argValues as [|s rest IH]; intros index; simpl; [done|].
  destruct (parse index s) as [a|x]; [intros [= <-]; eauto|].
  destruct (parseValues parse wrap (S index) rest) eqn:Hrest; [|done].
  intros [= <-]. eauto.
Qed.

Lemma parseOneOption_keeps (argType : string) (argValues : list string)
    (currentIndex : nat) (v v' : VehiclePropValue) :
  parseOneOption argType argValues currentIndex v = inr v' ->
  prop v' = prop v /\ status v' = status v.
Proof.
  unfold parseOneOption. intros H.
  repeat case_match; simplify_eq; done.
Qed.

Lemma parseOneOption_unknown (argType : string) (argValues : list string)
    (currentIndex : nat) (v : VehiclePropValue) (t : string) :
  parseOneOption argType argValues currentIndex v = inl (UnknownOption t) ->
  t = argType /\ argType ∉ SET_PROP_OPTIONS.
Proof.
  unfold parseOneOption. intros H.
  repeat case_match; simplify_eq;
    try match goal with
        | Hv : parseValues _ _ _ _ = inl _ |- _ =>
            apply parseValues_error in Hv as (? & ? & ?); done
        end.
  split; [done|]. intros Hin.
  repeat (apply elem_of_cons in Hin as [->|Hin]; [done|]).
  by apply elem_of_nil in Hin.
Qed.

Lemma parseOptionsLoop_spec (fuel : nat) (options : list string) :
  forall (optionIndex : nat) (parsedOptions : list string) (v : VehiclePropValue),
    (length options <= optionIndex + fuel)%nat ->
    exists r,
      parseOptionsLoop fuel options optionIndex parsedOptions v = Some r
      /\ (forall v', r = inr v' -> prop v' = prop v /\ status v' = status v)
      /\ (forall t, r = inl (UnknownOption t) ->
                    options !! optionIndex = Some t /\ t ∉ SET_PROP_OPTIONS).
Proof.
  induction fuel as [|fuel IH]; intros optionIndex parsedOptions v Hfuel.
  - simpl. rewrite lookup_ge_None_2 by lia. eexists. split; [done|].
    split; [by intros ? [= <-] | done].
  - simpl. destruct (options !! optionIndex) as [argType|] eqn:Harg.
    2: { eexists. split; [done|]. split; [by intros ? [= <-] | done]. }
    destruct (getOptionValues options (S optionIndex)) as [argValues optionIndex'] eqn:Hget.
    pose proof (getOptionValues_index options (S optionIndex)) as [Hle Hnext].
    rewrite Hget in Hle, Hnext. cbn [snd] in Hle, Hnext.
    case_bool_decide.
    { eexists. split; [done|]. split; [done | by intros ? [=]]. }
    destruct (parseOneOption argType argValues (S optionIndex) v) as [e|v1] eqn:Hone.
    { eexists. split; [done|]. split; [done|]. intros t [= ->].
      by apply parseOneOption_unknown in Hone as [-> ?]. }
    apply parseOneOption_keeps in Hone as [Hp Hs].
    destruct (IH optionIndex' (argType :: parsedOptions) v1) as (r & Hrun & Hkeep & Hunknown);
      [lia|].
    exists r. split; [done|]. split.
    + intros v' Hr. destruct (Hkeep v' Hr) as [-> ->]. done.
    + intros t Hr. destruct (Hunknown t Hr) as [Ht Hnot]. by apply Hnext in Ht.
Qed.

(** X5.  [parsePropOptions] on at least two options always returns; when it
    succeeds, the property id of the value is the second option as
    [ParseInt] reads it and the status is AVAILABLE, whatever options
    follow. *)
Theorem parsePropOptions_prop_and_status (options : list string) :
  (2 <= length options)%nat ->
  exists r,
    parsePropOptions options = Some r
    /\ forall v, r = inr v ->
         exists p, options !! 1%nat = Some p
                   /\ ParseInt32 p = Some (prop v)
                   /\ status v = AVAILABLE.
Proof.
  intros Hlen. unfold parsePropOptions.
  destruct (options !! 1%nat) as [p|] eqn:Hp;
    [|apply lookup_ge_None in Hp; lia].
  unfold safelyParseInt32. destruct (ParseInt32 p) as [propId|] eqn:Hparse.
  - destruct (parseOptionsLoop_spec (length options) options 2 [] (keyValue propId 0))
      as (r & Hrun & Hkeep & _); [lia|].
    exists r. split; [done|]. intros v Hr. destruct (Hkeep v Hr) as [Hprop Hstatus].
    exists p. rewrite Hprop, Hstatus. done.
  - eexists. split; [done|]. by intros v [=].
Qed.

(** X6.  An option that is not one of the seven option names spelled exactly
    (an upper-case [-I], a misspelling) is reported as unknown only when it
    is the first option after the property id; anywhere later it is taken as
    a value of the option before it. *)
Theorem parsePropOptions_unknown_option (options : list string) (t : string) :
  parsePropOptions options = Some (inl (UnknownOption t)) ->
  options !! 2%nat = Some t /\ t ∉ SET_PROP_OPTIONS.
Proof.
  unfold parsePropOptions. intros H.
  destruct (options !! 1%nat) as [p|] eqn:Hp; [|done].
  destruct (safelyParseInt32 1 p) as [e|propId]; [done|].
  destruct (parseOptionsLoop_spec (length options) options 2 [] (keyValue propId 0))
    as (r & Hrun & _ & Hunknown); [lia|].
  rewrite Hrun in H. injection H as ->. by apply Hunknown.
Qed.

(** X7.  The two forms that [--save-prop] and [--restore-prop] document:
    with the property id alone the value parsed is the key of the property
    at area 0; with [-a] (in either case) and one area id it is the key at
    that area. *)
Theorem parsePropOptions_key (command p flag a : string) (propId area : Z) :
  ParseInt32 p = Some propId ->
  ParseInt32 a = Some area ->
  EqualsIgnoreCase flag "-a" = true ->
  a ∉ SET_PROP_OPTIONS ->
  parsePropOptions [command; p] = Some (inr (keyValue propId 0))
  /\ parsePropOptions [command; p; flag; a] = Some (inr (keyValue propId area)).
Proof.
  intros Hp Ha Hflag Hnot. unfold parsePropOptions, safelyParseInt32. simpl.
  rewrite Hp. split; [done|]. simpl.
  unfold getOptionValues. simpl. rewrite bool_decide_eq_false_2 by done. simpl.
  unfold parseOneOption.
  assert (Hlower : lowerString flag = "-a"%string)
    by (by apply bool_decide_eq_true in Hflag).
  unfold EqualsIgnoreCase. rewrite !Hlower. simpl.
  unfold safelyParseInt32. by rewrite Ha.
Qed.

End ParsePropOptions.

Lemma parsePropOptions_prop_and_status_witness :
  exists r,
    @DumpArgs.parsePropOptions referenceParsers ["--set"; "291"; "-i"; "7"; "-a"; "4"]%string
    = Some r
    /\ forall v, r = inr v ->
         exists p, ["--set"; "291"; "-i"; "7"; "-a"; "4"]%string !! 1%nat = Some p
                   /\ @DumpArgs.ParseInt32 referenceParsers p = Some (prop v)
                   /\ status v = AVAILABLE.
Proof.
  apply (@parsePropOptions_prop_and_status referenceParsers). simpl. lia.
Defined.

Lemma parsePropOptions_unknown_option_witness :
  ["--set"; "291"; "-x"; "7"]%string !! 2%nat = Some "-x"%string
  /\ "-x"%string ∉ DumpArgs.SET_PROP_OPTIONS.
Proof.
  apply (@parsePropOptions_unknown_option referenceParsers). reflexivity.
Defined.

Lemma parsePropOptions_key_witness :
  @DumpArgs.parsePropOptions referenceParsers ["--save-prop"; "291"]%string
  = Some (inr (keyValue 291 0))
  /\ @DumpArgs.parsePropOptions referenceParsers ["--save-prop"; "291"; "-A"; "4"]%string
     = Some (inr (keyValue 291 4)).
Proof.
  apply (@parsePropOptions_key referenceParsers); try reflexivity.
  intros Hin. repeat (apply elem_of_cons in Hin as [Hin|Hin]; [discriminate Hin|]).
  by apply elem_of_nil in Hin.
Defined.

(** * The pending-request worker for set requests *)

Section SetWorker.
Context {P : Platform}.

Lemma handleSetValueRequest_result (request : SetValueRequest.t)
    (hw hw1 : FakeVehicleHardware) (result : SetValueResult.t) :
  handleSetValueRequest request hw = Some (result, hw1) ->
  SetValueResult.requestId result = SetValueRequest.requestId request
  /\ exists r,
       setValue (SetValueRequest.value request) hw = Some (r, hw1)
       /\ SetValueResult.status result
          = match r with Ok _ => OK | Err code => code end.
Proof.
  unfold handleSetValueRequest.
  destruct (setValue (SetValueRequest.value request) hw) as [[[[]|code] hw2]|];
    intros [= <- <-]; simpl; eauto.
Qed.

Lemma handleSetBatch_spec (batch : list (SetValueRequest.t * nat))
    (hw : FakeVehicleHardware) (m : gmap nat (list SetValueResult.t)) :
  handleSetBatch batch hw m =
  match spec_setBatchResults batch hw with
  | Some (results, hw') =>
      Some (foldl (fun acc x => pushResult x.1 x.2 acc) m results, hw')
  | None => None
  end.
Proof.
  revert hw m. induction batch as [|[request callback] rest IH]; intros hw m; simpl; [done|].
  destruct (handleSetValueRequest request hw) as [[result hw1]|]; [|done].
  rewrite IH. by destruct (spec_setBatchResults rest hw1) as [[results hw2]|].
Qed.

Lemma spec_setBatchResults_callbacks (batch : list (SetValueRequest.t * nat)) :
  forall (hw hw' : FakeVehicleHardware) results,
    spec_setBatchResults batch hw = Some (results, hw') ->
    results.*1 = batch.*2
    /\ (fun x => SetValueResult.requestId x.2) <$> results
       = (fun x => SetValueRequest.requestId x.1) <$> batch.
Proof.
  induction batch as [|[request callback] rest IH]; intros hw hw' results; simpl.
  - by intros [= <- <-].
  - destruct (handleSetValueRequest request hw) as [[result hw1]|] eqn:Hone; [|done].
    destruct (spec_setBatchResults rest hw1) as [[results1 hw2]|] eqn:Hrest; [|done].
    intros [= <- <-]. destruct (IH _ _ _ Hrest) as [IH1 IH2].
    apply handleSetValueRequest_result in Hone as [Hid _].
    rewrite !fmap_cons. cbn [fst snd]. by rewrite IH1, IH2, Hid.
Qed.

(** X8.  One cycle of the set worker that runs to completion on the batch it
    drains: every request yields exactly one result, in batch order,
    carrying the request's id (status [OK] when [setValue] succeeds, the
    error status otherwise); the callbacks invoked are pairwise distinct, a
    callback is invoked exactly when some request of the batch named it, and
    it receives the results of its own requests in batch order, so a failed
    request does not abort the others. *)
Theorem handleSetRequestsOnce_groups_by_callback
    (hw hw' : FakeVehicleHardware) (invocations : list (nat * list SetValueResult.t)) :
  handleSetRequestsOnce hw = Some (invocations, hw') ->
  let batch := queueItems (mPendingSetValueRequests hw) in
  let drained :=
    withSetQueue {| queueItems := [];
                    queueIsActive := queueIsActive (mPendingSetValueRequests hw) |} hw in
  exists results,
    spec_setBatchResults batch drained = Some (results, hw')
    /\ results.*1 = batch.*2
    /\ (fun x => SetValueResult.requestId x.2) <$> results
       = (fun x => SetValueRequest.requestId x.1) <$> batch
    /\ (forall request h h1 result,
          handleSetValueRequest request h = Some (result, h1) ->
          SetValueResult.requestId result = SetValueRequest.requestId request
          /\ exists r,
               setValue (SetValueRequest.value request) h = Some (r, h1)
               /\ SetValueResult.status result
                  = match r with Ok _ => OK | Err code => code end)
    /\ NoDup invocations.*1
    /\ (forall callback, callback ∈ invocations.*1 <-> callback ∈ batch.*2)
    /\ (forall callback rs,
          (callback, rs) ∈ invocations ->
          rs = spec_resultsFor callback results /\ rs ≠ []).
Proof.
  intros Hrun batch drained. unfold handleSetRequestsOnce, flush in Hrun.
  fold batch in Hrun. fold drained in Hrun. rewrite handleSetBatch_spec in Hrun.
  destruct (spec_setBatchResults batch drained) as [[results hw2]|] eqn:Hspec; [|done].
  injection Hrun as <- <-. exists results. split; [done|].
  destruct (spec_setBatchResults_callbacks _ _ _ _ Hspec) as [Hcb Hids].
  assert (Hlookup : forall callback rs,
            (callback, rs) ∈ map_to_list
              (foldl (fun acc x => pushResult x.1 x.2 acc) ∅ results) <->
            rs = spec_resultsFor callback results /\ rs ≠ []).
  { intros callback rs. rewrite elem_of_map_to_list, lookup_foldl_pushResult.
    rewrite lookup_empty. simpl.
    destruct (spec_resultsFor callback results) as [|r rs'] eqn:Hrs.
    - split; [done | by intros [-> ?]].
    - split; [by intros [= <-] | by intros [-> _]]. }
  split; [done|]. split; [done|].
  split; [intros request h h1 result; apply handleSetValueRequest_result|].
  split; [apply NoDup_fst_map_to_list|].
  split; [|intros callback rs; apply Hlookup].
  intros callback. rewrite <- Hcb. split.
  - intros Hin. apply list_elem_of_fmap in Hin as [[c rs] [-> Hin]]. simpl.
    apply Hlookup in Hin as [-> Hne].
    destruct (decide (c ∈ results.*1)) as [|Hnot]; [done|].
    by apply spec_resultsFor_nil in Hnot.
  - intros Hin. apply list_elem_of_fmap.
    exists (callback, spec_resultsFor callback results). split; [done|].
    apply Hlookup. split; [done|]. intros Hnil.
    by apply spec_resultsFor_nil in Hnil.
Qed.

End SetWorker.

Lemma handleSetRequestsOnce_groups_by_callback_witness :
  NoDup (afterSetRequestsOnce setBatchHardware).1.*1
  /\ (forall callback,
        callback ∈ (afterSetRequestsOnce setBatchHardware).1.*1 <->
        callback ∈ (queueItems (mPendingSetValueRequests setBatchHardware)).*2).
Proof.
  assert (Hrun : @handleSetRequestsOnce referencePlatform setBatchHardware
                 = Some ((afterSetRequestsOnce setBatchHardware).1,
                         (afterSetRequestsOnce setBatchHardware).2))
    by evaluate_sides.
  destruct (@handleSetRequestsOnce_groups_by_callback referencePlatform _ _ _ Hrun)
    as (results & _ & _ & _ & _ & Hnodup & Hcallbacks & _).
  split; [exact Hnodup | exact Hcallbacks].
Defined.

Example handleSetRequestsOnce_three_requests :
  (afterSetRequestsOnce setBatchHardware).1
  ≡ₚ [(5%nat, [{| SetValueResult.requestId := 21; SetValueResult.status := OK |};
               {| SetValueResult.requestId := 22;
                  SetValueResult.status := INVALID_ARG |}]);
      (6%nat, [{| SetValueResult.requestId := 23; SetValueResult.status := OK |}])].
Proof.
  let a := eval vm_compute in (afterSetRequestsOnce setBatchHardware).1 in
  change ((afterSetRequestsOnce setBatchHardware).1) with a.
  first [reflexivity | apply Permutation_swap].
Qed.

(** * Special properties *)

Section EchoReverseBytes.
Context {P : Platform} {HP : PlatformOk P}.

Lemma rev_is_reverse {A} (l : list A) : rev l = reverse l.
Proof. unfold reverse. apply rev_alt. Qed.

Lemma echoReverseLoop_prefix (l : list Z) (k : nat) :
  (k <= length l)%nat ->
  foldl (fun gotValue i => <[i := l !!! (length l - 1 - i)%nat]> gotValue) l (seq 0 k)
  = take k (reverse l) ++ drop k l.
Proof.
  induction k as [|k IH]; intros Hk; [done|].
  rewrite seq_S, foldl_app, IH by lia. simpl.
  assert (Hrev : reverse l !! k = l !! (length l - S k)%nat)
    by (apply reverse_lookup; lia).
  destruct (lookup_lt_is_Some_2 l (length l - S k)%nat) as [x Hx]; [lia|].
  destruct (lookup_lt_is_Some_2 l k) as [y Hy]; [lia|].
  rewrite Hx in Hrev.
  rewrite (take_S_r _ _ _ Hrev), (drop_S _ _ _ Hy), <- app_assoc.
  replace k with (length (take k (reverse l)) + 0)%nat at 1
    by (rewrite length_take, length_reverse; lia).
  rewrite insert_app_r. simpl. do 2 f_equal.
  replace (length l - 1 - k)%nat with (length l - S k)%nat by lia.
  by apply list_lookup_total_correct.
Qed.

(** The index loop of [getEchoReverseBytes] reverses the bytes. *)
Lemma echoReverseLoop_rev (l : list Z) : echoReverseLoop l = rev l.
Proof.
  unfold echoReverseLoop. rewrite echoReverseLoop_prefix by done.
  rewrite drop_all, app_nil_r, rev_is_reverse.
  apply take_ge. by rewrite length_reverse.
Qed.

(** X9.  A get of [ECHO_REVERSE_BYTES] reads the stored value and returns it
    with the bytes in reverse order, which is what the index loop computes,
    and with the timestamp of the call; every other field is the stored one
    and the store is not modified, so reversing the returned bytes gives the
    stored ones back.  When nothing can be read the error of the store is
    returned and the clock is not read. *)
Theorem getValue_echo_reverse_bytes (v : VehiclePropValue) (hw : FakeVehicleHardware) :
  prop v = ECHO_REVERSE_BYTES ->
  userHal_isSupported ECHO_REVERSE_BYTES = false ->
  match readValue v (mServerSidePropStore hw) with
  | Err code => getValue v hw = (Err code, hw)
  | Ok x =>
      exists y,
        getValue v hw = (Ok y, (elapsedRealtimeNano hw).2)
        /\ byteValues (value y) = echoReverseLoop (byteValues (value x))
        /\ byteValues (value y) = rev (byteValues (value x))
        /\ echoReverseLoop (byteValues (value y)) = byteValues (value x)
        /\ timestamp y = clockAt (clockReads hw)
        /\ setByteValues (byteValues (value x)) (setTimestamp (timestamp x) y) = x
        /\ mServerSidePropStore (elapsedRealtimeNano hw).2 = mServerSidePropStore hw
  end.
Proof.
  intros Hp Hu. destruct getSwitch_distinct as (_ & H1 & H2).
  unfold getValue, maybeGetSpecialValue, getEchoReverseBytes.
  rewrite Hp, Hu, Z.eqb_refl.
  rewrite (proj2 (Z.eqb_neq _ _)) by done.
  rewrite (proj2 (Z.eqb_neq _ _)) by done.
  destruct (readValue v (mServerSidePropStore hw)) as [x|code]; [|done].
  cbn [elapsedRealtimeNano]. eexists. split; [reflexivity|].
  cbn [setByteValues setTimestamp value byteValues timestamp].
  rewrite !echoReverseLoop_rev, rev_involutive.
  split; [done|]. split; [done|]. split; [done|]. split; [done|]. split; [|done].
  by destruct x as [? ? ? ? []].
Qed.

End EchoReverseBytes.

(** X9 at a concrete state: the bytes 1, 2, 3 stored at time 4 are returned
    as 3, 2, 1 with the time of the first clock reading. *)
Lemma getValue_echo_reverse_bytes_witness :
  exists y,
    @getValue referencePlatform (keyValue 560998930 0) echoHardware
    = (Ok y, (@elapsedRealtimeNano referencePlatform echoHardware).2)
    /\ byteValues (value y) = [3; 2; 1]
    /\ timestamp y = 0.
Proof.
  pose proof (@getValue_echo_reverse_bytes referencePlatform referencePlatform_ok
                (keyValue 560998930 0) echoHardware eq_refl eq_refl) as H.
  assert (Hread : readValue (keyValue 560998930 0)
                    (@mServerSidePropStore referencePlatform echoHardware)
                  = Ok echoStored) by evaluate_sides.
  rewrite Hread in H. destruct H as (y & Hget & _ & Hbytes & _ & Hts & _).
  exists y. split; [exact Hget|]. split; [exact Hbytes|exact Hts].
Defined.

Section SpecialProperties.
Context {P : Platform} {HP : PlatformOk P}.

(** X10.  [getValue] only reads: whatever the property, it leaves the
    property store, the listener and the events delivered to it, the saved
    properties, the timer and both request queues as they were.  It reads the
    clock at most once, and when it does the value it returns carries that
    reading as its timestamp; the user HAL state changes for user HAL
    properties only. *)
Theorem getValue_reads_only (v : VehiclePropValue) (hw : FakeVehicleHardware) :
  let hw' := (getValue v hw).2 in
  mServerSidePropStore hw' = mServerSidePropStore hw
  /\ mOnPropertyChangeCallback hw' = mOnPropertyChangeCallback hw
  /\ propertyChangeEvents hw' = propertyChangeEvents hw
  /\ mSavedProps hw' = mSavedProps hw
  /\ mRecurrentTimer hw' = mRecurrentTimer hw
  /\ mRecurrentActions hw' = mRecurrentActions hw
  /\ mPendingGetValueRequests hw' = mPendingGetValueRequests hw
  /\ mPendingSetValueRequests hw' = mPendingSetValueRequests hw
  /\ (clockReads hw' = clockReads hw
      \/ clockReads hw' = S (clockReads hw)
         /\ exists x, (getValue v hw).1 = Ok x /\ timestamp x = clockAt (clockReads hw))
  /\ (userHal_isSupported (prop v) = false -> mFakeUserHal hw' = mFakeUserHal hw).
Proof.
  unfold getValue, maybeGetSpecialValue, getUserHalProp, getEchoReverseBytes,
    elapsedRealtimeNano.
  repeat case_match; simplify_eq; cbn;
    (repeat (split; [done|]));
    (split; [first [by left | right; split; [done|eauto]] | intros; congruence]).
Qed.

(** X11.  A property the user HAL supports is served by the user HAL alone,
    before every other special case.  On a get the store is not consulted: an
    error of the HAL is returned as it is, no value from the HAL is an
    [INTERNAL_ERROR], and a value from the HAL is returned with the timestamp
    of the call.  On a set the requested value itself is never written: an
    error of the HAL is returned, no value from the HAL is a success that
    writes nothing, and a value from the HAL is written to the store as the
    HAL stamped it; the clock is not read. *)
Theorem userHal_properties_bypass_store (v : VehiclePropValue) (hw : FakeVehicleHardware) :
  userHal_isSupported (prop v) = true ->
  (let answer := userHal_onGetProperty v (mFakeUserHal hw) in
   let asked := withUserHal answer.2 hw in
   getValue v hw =
   match answer.1 with
   | Err code => (Err code, asked)
   | Ok None => (Err INTERNAL_ERROR, asked)
   | Ok (Some x) =>
       (Ok (setTimestamp (clockAt (clockReads hw)) x), (elapsedRealtimeNano asked).2)
   end)
  /\ (let answer := userHal_onSetProperty v (mFakeUserHal hw) in
      let asked := withUserHal answer.2 hw in
      setValue v hw =
      match answer.1 with
      | Err code => Some (Err code, asked)
      | Ok None => Some (Ok tt, asked)
      | Ok (Some updated) =>
          Some (match (storeWriteValue updated false asked).1 with
                | Ok _ => Ok tt
                | Err code => Err code
                end, (storeWriteValue updated false asked).2)
      end)
  /\ clockReads (afterSetValue v hw) = clockReads hw.
Proof.
  intros Hu.
  assert (Hset : let answer := userHal_onSetProperty v (mFakeUserHal hw) in
                 let asked := withUserHal answer.2 hw in
                 setValue v hw =
                 match answer.1 with
                 | Err code => Some (Err code, asked)
                 | Ok None => Some (Ok tt, asked)
                 | Ok (Some updated) =>
                     Some (match (storeWriteValue updated false asked).1 with
                           | Ok _ => Ok tt
                           | Err code => Err code
                           end, (storeWriteValue updated false asked).2)
                 end).
  { unfold setValue, maybeSetSpecialValue, setUserHalProp. rewrite Hu.
    destruct (userHal_onSetProperty v (mFakeUserHal hw)) as [[[x|]|code] u]; try done.
    cbn [fst snd].
    destruct (storeWriteValue x false (withUserHal u hw)) as [[[]|code] hw2]; done. }
  split; [|split; [exact Hset|]].
  - unfold getValue, maybeGetSpecialValue, getUserHalProp. rewrite Hu.
    destruct (userHal_onGetProperty v (mFakeUserHal hw)) as [[[x|]|code] u]; done.
  - unfold afterSetValue. cbv zeta in Hset. rewrite Hset.
    destruct (userHal_onSetProperty v (mFakeUserHal hw)) as [[[x|]|code] u];
      cbn [fst snd]; try done.
    by rewrite (proj2 (storeWriteValue_others x false (withUserHal u hw))).
Qed.

(** X12.  Setting [VEHICLE_MAP_SERVICE] succeeds and does nothing: the value
    is not stored, no event is sent and the clock is not read, so a get
    afterwards returns what it returned before. *)
Theorem setValue_vehicle_map_service (v : VehiclePropValue) (hw : FakeVehicleHardware) :
  prop v = VEHICLE_MAP_SERVICE ->
  userHal_isSupported VEHICLE_MAP_SERVICE = false ->
  VEHICLE_MAP_SERVICE ∉ HVAC_POWER_PROPERTIES ->
  setValue v hw = Some (Ok tt, hw).
Proof.
  intros Hp Hu Hh. destruct setSwitch_distinct as (H1 & _ & _).
  unfold setValue, maybeSetSpecialValue, isHvacPropAndHvacNotAvailable.
  rewrite Hp, Hu, bool_decide_eq_false_2 by done.
  rewrite (proj2 (Z.eqb_neq _ _)) by done.
  by rewrite Z.eqb_refl.
Qed.

(** X13.  [setValue] has exactly one undefined case: a power-state report
    without any int32 value that the store accepts, where the code indexes
    the empty vector.  When the store rejects the report, the error of the
    store is returned and nothing else is done, whether or not the report
    carries a state: no [AP_POWER_STATE_REQ] is created, the clock is read
    once only. *)
Theorem setValue_undefined_iff (v : VehiclePropValue) (hw : FakeVehicleHardware) :
  let stamped := setTimestamp (clockAt (clockReads hw)) v in
  let written := storeWriteValue stamped false (elapsedRealtimeNano hw).2 in
  (setValue v hw = None <->
   prop v = AP_POWER_STATE_REPORT
   /\ int32Values (value v) = []
   /\ ok written.1 = true)
  /\ (forall code,
        prop v = AP_POWER_STATE_REPORT ->
        written.1 = Err code ->
        setValue v hw = Some (Err code, written.2)).
Proof.
  destruct powerReport_plain as [Hu Hh].
  intros stamped written.
  assert (Hclock : elapsedRealtimeNano hw
                   = (clockAt (clockReads hw), (elapsedRealtimeNano hw).2)) by done.
  set (hw1 := (elapsedRealtimeNano hw).2) in *.
  subst stamped written. split.
  - unfold setValue, maybeSetSpecialValue.
    destruct (userHal_isSupported (prop v)) eqn:Hsup.
    { destruct (setUserHalProp v hw) as [[[]|code] hw2]; split; try done.
      all: intros (Hp & _); by rewrite Hp, Hu in Hsup. }
    destruct (isHvacPropAndHvacNotAvailable (prop v) hw) eqn:Hhvac.
    { split; [done|]. intros (Hp & _). unfold isHvacPropAndHvacNotAvailable in Hhvac.
      rewrite Hp, bool_decide_eq_false_2 in Hhvac; done. }
    destruct (prop v =? AP_POWER_STATE_REPORT) eqn:Hreport.
    + apply Z.eqb_eq in Hreport. unfold setApPowerStateReport.
      rewrite Hclock.
      destruct (storeWriteValue _ false hw1) as [[[]|code] hw2]; cbn [fst ok].
      * destruct (int32Values (value v)) as [|state rest]; [done|].
        split; [|by intros (_ & ? & _)]. intros Hnone. exfalso.
        destruct (isWaitForVhalCase state).
        { destruct (createApPowerStateReq _ _) as [req hw4].
          destruct (storeWriteValue req true hw4) as [[[]|?] ?]; done. }
        destruct (isWaitForFinishCase state); [|done].
        destruct (createApPowerStateReq _ _) as [req hw4].
        destruct (storeWriteValue req true hw4) as [[[]|?] ?]; done.
      * split; [done|]. by intros (_ & _ & ?).
    + apply Z.eqb_neq in Hreport.
      split; [|by intros (? & _)]. intros Hnone. exfalso.
      destruct (prop v =? VEHICLE_MAP_SERVICE); [done|].
      destruct (prop v =? OBD2_FREEZE_FRAME_CLEAR).
      { destruct (obd2_clearObd2FreezeFrames _ _) as [[[]|?] ?]; done. }
      rewrite Hclock in Hnone.
      destruct (storeWriteValue _ false hw1) as [[[]|?] ?]; done.
  - intros code Hp Hwrite.
    unfold setValue, maybeSetSpecialValue, isHvacPropAndHvacNotAvailable.
    rewrite Hp, Hu, bool_decide_eq_false_2, Z.eqb_refl by done.
    unfold setApPowerStateReport. rewrite Hclock.
    destruct (storeWriteValue _ false hw1) as [[[]|code'] hw2];
      cbn [fst snd] in *; [done|]. by injection Hwrite as ->.
Qed.

End SpecialProperties.

(** X11 on the reference platform, whose user HAL supports
    [INITIAL_USER_INFO] and answers every request with no value. *)
Lemma userHal_properties_bypass_store_witness :
  (@getValue referencePlatform (keyValue INITIAL_USER_INFO 0) oneValueHardware).1
  = Err INTERNAL_ERROR
  /\ fst <$> @setValue referencePlatform (int32Value INITIAL_USER_INFO 0 0 [1])
               oneValueHardware
     = Some (Ok tt).
Proof.
  split.
  - destruct (@userHal_properties_bypass_store referencePlatform
                (keyValue INITIAL_USER_INFO 0) oneValueHardware eq_refl) as [Hget _].
    cbv zeta in Hget. rewrite Hget. reflexivity.
  - destruct (@userHal_properties_bypass_store referencePlatform
                (int32Value INITIAL_USER_INFO 0 0 [1]) oneValueHardware eq_refl)
      as (_ & Hset & _).
    cbv zeta in Hset. rewrite Hset. reflexivity.
Defined.

(** X12 on the reference platform. *)
Lemma setValue_vehicle_map_service_witness :
  @setValue referencePlatform (int32Value 299895808 0 0 [1]) oneValueHardware
  = Some (Ok tt, oneValueHardware).
Proof.
  apply (@setValue_vehicle_map_service referencePlatform referencePlatform_ok).
  - reflexivity.
  - reflexivity.
  - intros Hp.
    repeat (apply elem_of_cons in Hp as [Hp|Hp]; [discriminate Hp|]).
    by apply elem_of_nil in Hp.
Defined.

(** X13 at a concrete state: a report without a state on [powerHardware],
    where the report property is registered. *)
Lemma setValue_undefined_iff_witness :
  @setValue referencePlatform (int32Value 289475073 0 0 []) powerHardware = None.
Proof.
  destruct (@setValue_undefined_iff referencePlatform referencePlatform_ok
              (int32Value 289475073 0 0 []) powerHardware) as [Hiff _].
  apply Hiff. split; [reflexivity|]. split; [reflexivity|]. evaluate_sides.
Defined.

(** * Sample rates: what a call leaves alone *)

Section SampleRateFrame.
Context {P : Platform}.

(** X14.  [updateSampleRate] checks nothing about the property: it returns
    [OK] for every property and area, registered or not, and is undefined
    only when the rate is not zero and the interval does not fit an
    [int64_t].  It never touches the property store, the events or the saved
    properties, and it leaves the callbacks of every other property and area
    as they are, with their intervals and deadlines. *)
Theorem updateSampleRate_frame (p a : Z) (r : float) (hw : FakeVehicleHardware) :
  recurrentActionsConsistent hw ->
  (updateSampleRate p a r hw = None <->
   (r =? 0)%float = false /\ float_to_int64 (1e9 / r)%float = None)
  /\ (forall status hw',
        updateSampleRate p a r hw = Some (status, hw') ->
        status = OK
        /\ mServerSidePropStore hw' = mServerSidePropStore hw
        /\ propertyChangeEvents hw' = propertyChangeEvents hw
        /\ mSavedProps hw' = mSavedProps hw
        /\ (forall key, key ≠ (p, a) ->
              mRecurrentActions hw' !! key = mRecurrentActions hw !! key)
        /\ (forall handle info,
              actionKey (timerAction info) ≠ (p, a) ->
              (mRecurrentTimer hw' !! handle = Some info <->
               mRecurrentTimer hw !! handle = Some info))).
Proof.
  intros Hc. pose proof Hc as (HT & HM & HU).
  destruct (r =? 0)%float eqn:Hr.
  - rewrite updateSampleRate_zero by done. split.
    { split; [done|]. by intros [? _]. }
    intros status hw' Hrun. injection Hrun as <- <-.
    assert (Htimer : mRecurrentTimer
              (match mRecurrentActions hw !! (p, a) with
               | Some action =>
                   withTimer (delete (actionHandle action) (mRecurrentTimer hw)) hw
               | None => hw
               end)
            = match mRecurrentActions hw !! (p, a) with
              | Some old => delete (actionHandle old) (mRecurrentTimer hw)
              | None => mRecurrentTimer hw
              end) by (by destruct (mRecurrentActions hw !! (p, a))).
    split; [done|].
    do 3 (split; [by destruct (mRecurrentActions hw !! (p, a))|]).
    split; [intros key Hkey; by destruct (mRecurrentActions hw !! (p, a))|].
    intros handle info Hkey. rewrite Htimer. split; intros H.
    + by eapply timer_after_unregister.
    + by apply timer_before_unregister.
  - destruct (float_to_int64 (1e9 / r)%float) as [interval|] eqn:Hinterval.
    + destruct (updateSampleRate_nonzero p a r interval hw Hr Hinterval)
        as (hw1 & Hrun & Hmap & Htimer & Halloc & Hstore & Hevents).
      split. { rewrite Hrun. split; [done|]. by intros [_ ?]. }
      intros status hw' Hrun'. rewrite Hrun in Hrun'. injection Hrun' as <- <-.
      split; [done|]. split; [done|]. split; [done|]. split.
      { unfold updateSampleRate in Hrun. rewrite Hr, Hinterval in Hrun.
        injection Hrun as <-. by destruct (mRecurrentActions hw !! (p, a)). }
      split.
      * intros key Hkey. rewrite Hmap. by rewrite lookup_insert_ne.
      * intros handle info Hkey. rewrite Htimer.
        destruct (decide (handle = allocatedActions hw)) as [->|Hne].
        -- rewrite lookup_insert_eq. split.
           ++ intros H. injection H as <-. by destruct Hkey.
           ++ intros H. destruct (HT _ _ H) as [Hh Hm].
              destruct (HM _ _ Hm) as [Hlt _]. lia.
        -- rewrite lookup_insert_ne by done. split.
           ++ intros H. by eapply timer_after_unregister.
           ++ intros H. by apply timer_before_unregister.
    + split. { unfold updateSampleRate. by rewrite Hr, Hinterval. }
      intros status hw'. unfold updateSampleRate. by rewrite Hr, Hinterval.
Qed.

End SampleRateFrame.

(** * The dump commands that parse a value *)

Section DumpCommands.
Context {P : Platform} {parsers : DumpArgs.Parsers}.

Lemma checkArgumentsSize_short (options : list string) (minSize : nat) :
  (length options < minSize)%nat ->
  checkArgumentsSize options minSize
  = Some (InvalidNumberOfArguments minSize (length options)).
Proof.
  intros H. unfold checkArgumentsSize.
  by rewrite (proj2 (Nat.leb_gt _ _)) by lia.
Qed.

(** X15.  The dump commands [--set], [--getWithArg] and [--inject-event]
    answer fewer than three options, or options that do not parse, with the
    message of the check and leave the facade untouched.  Otherwise they act
    on the parsed value exactly as [setValue], [getValue] and
    [eventFromVehicleBus] do: the same special-property handling, the same
    result, the same state afterwards. *)
Theorem dump_commands_agree (options : list string) (hw : FakeVehicleHardware) :
  ((length options < 3)%nat ->
   let rejected :=
     Some (ArgumentsRejected (InvalidNumberOfArguments 3 (length options)), hw) in
   dumpSetProperties options hw = rejected
   /\ dumpGetPropertyWithArg options hw = rejected
   /\ dumpInjectEvent options hw = rejected)
  /\ (forall e,
        (3 <= length options)%nat ->
        DumpArgs.parsePropOptions options = Some (inl e) ->
        dumpSetProperties options hw = Some (OptionsRejected e, hw)
        /\ dumpGetPropertyWithArg options hw = Some (OptionsRejected e, hw)
        /\ dumpInjectEvent options hw = Some (OptionsRejected e, hw))
  /\ (forall v,
        (3 <= length options)%nat ->
        DumpArgs.parsePropOptions options = Some (inr v) ->
        dumpSetProperties options hw
        = match setValue v hw with
          | None => None
          | Some (Ok _, hw1) => Some (PropertySet v, hw1)
          | Some (Err code, hw1) => Some (FailedToSetProperty v code, hw1)
          end
        /\ dumpGetPropertyWithArg options hw
           = match getValue v hw with
             | (Ok x, hw1) => Some (GetPropertyResult x, hw1)
             | (Err code, hw1) => Some (FailedToReadPropertyValue (prop v) code, hw1)
             end
        /\ dumpInjectEvent options hw
           = Some (EventInjected (prop v), eventFromVehicleBus v hw)).
Proof.
  unfold dumpSetProperties, dumpGetPropertyWithArg, dumpInjectEvent.
  split; [|split].
  - intros Hshort. by rewrite checkArgumentsSize_short.
  - intros e Hlen Hparse. by rewrite checkArgumentsSize_enough, Hparse.
  - intros v Hlen Hparse. rewrite checkArgumentsSize_enough, Hparse by done.
    split; [|split; [|done]].
    + unfold setValue.
      destruct (maybeSetSpecialValue v hw) as [[[|[[]|code]] hw1]|]; try done.
      destruct (elapsedRealtimeNano hw1) as [now hw2].
      by destruct (storeWriteValue (setTimestamp now v) false hw2) as [[[]|code] hw3].
    + unfold getValue.
      destruct (maybeGetSpecialValue v hw) as [[|[x|code]] hw1]; try done.
      destruct (readValue v (mServerSidePropStore hw1)) as [x|code]; [done|].
      by case_bool_decide.
Qed.

End DumpCommands.

(** X14 at a concrete state: a rate of 2 Hz for (1001, 0) on
    [sampledHardware], where (1000, 0) is sampled. *)
Lemma updateSampleRate_frame_witness :
  mServerSidePropStore (afterUpdateSampleRate [(1001, 0, 2%float)] sampledHardware)
  = mServerSidePropStore sampledHardware
  /\ mRecurrentActions (afterUpdateSampleRate [(1001, 0, 2%float)] sampledHardware)
       !! (1000, 0)
     = mRecurrentActions sampledHardware !! (1000, 0).
Proof.
  destruct (@updateSampleRate_frame referencePlatform 1001 0 2%float sampledHardware
              sampledHardware_consistent) as [_ Hframe].
  assert (Hrun : @updateSampleRate referencePlatform 1001 0 2%float sampledHardware
                 = Some (OK, afterUpdateSampleRate [(1001, 0, 2%float)] sampledHardware))
    by evaluate_sides.
  destruct (Hframe _ _ Hrun) as (_ & Hstore & _ & _ & Hmap & _).
  split; [exact Hstore|]. apply Hmap. discriminate.
Defined.

(** * The HVAC gate of the set path *)

Section HvacGate.
Context {P : Platform} {HP : PlatformOk P}.

(** X16.  A set of an HVAC-power-dependent property is refused with
    [NOT_AVAILABLE], leaving everything as it was, when the stored
    [HVAC_POWER_ON] of the [HVAC_ALL] area (whatever the area of the value
    being set) holds the single int32 0.  In every other case the gate lets
    the set pass: a power value that cannot be read, or that holds no or
    several int32 values, counts as on, and the set proceeds like that of any
    plain property, stamping the value with the time of the call and writing
    it to the store. *)
Theorem setValue_hvac_gate (v : VehiclePropValue) (hw : FakeVehicleHardware) :
  prop v ∈ HVAC_POWER_PROPERTIES ->
  prop v ≠ VEHICLE_MAP_SERVICE ->
  prop v ≠ OBD2_FREEZE_FRAME_CLEAR ->
  let powerOff :=
    exists powerOn,
      readValueById HVAC_POWER_ON HVAC_ALL 0 (mServerSidePropStore hw) = Ok powerOn
      /\ int32Values (value powerOn) = [0] in
  let written :=
    storeWriteValue (setTimestamp (clockAt (clockReads hw)) v) false
      (elapsedRealtimeNano hw).2 in
  (powerOff -> setValue v hw = Some (Err NOT_AVAILABLE, hw))
  /\ (~ powerOff ->
      setValue v hw
      = Some (match written.1 with Err code => Err code | Ok _ => Ok tt end, written.2)).
Proof.
  intros Hin Hvms Hclear powerOff written.
  destruct powerReport_plain as [_ Hreport].
  assert (Hplain : hasSpecialSet (prop v) = false).
  { unfold hasSpecialSet. rewrite (hvac_not_userHal _ Hin).
    rewrite !(proj2 (Z.eqb_neq _ _)); [done..|]. by intros Heq; rewrite Heq in Hin. }
  assert (Hgate : isHvacPropAndHvacNotAvailable (prop v) hw = true <-> powerOff).
  { unfold isHvacPropAndHvacNotAvailable, powerOff.
    rewrite bool_decide_eq_true_2 by done.
    destruct (readValueById _ _ _ _) as [x|code].
    - destruct (int32Values (value x)) as [|state [|more rest]] eqn:Hints.
      + split; [done|]. intros (y & Hy & Hzero). injection Hy as <-. congruence.
      + rewrite Z.eqb_eq. split.
        * intros ->. by exists x.
        * intros (y & Hy & Hzero). injection Hy as <-. congruence.
      + split; [done|]. intros (y & Hy & Hzero). injection Hy as <-. congruence.
    - split; [done|]. by intros (y & Hy & _). }
  rewrite (setValue_plain v hw Hplain). split.
  - intros Hoff. by rewrite (proj2 Hgate Hoff).
  - intros Hon.
    destruct (isHvacPropAndHvacNotAvailable (prop v) hw); [by destruct Hon; apply Hgate|].
    subst written.
    by destruct (storeWriteValue _ false (elapsedRealtimeNano hw).2) as [[[]|code] hw1].
Qed.

End HvacGate.

(** X16 at a concrete state: fan speed cannot be set on [hvacOffHardware],
    whose [HVAC_POWER_ON] holds 0. *)
Lemma setValue_hvac_gate_witness :
  @setValue referencePlatform (int32Value HVAC_FAN_SPEED 117 0 [4]) hvacOffHardware
  = Some (Err NOT_AVAILABLE, hvacOffHardware).
Proof.
  apply (@setValue_hvac_gate referencePlatform referencePlatform_ok
           (int32Value HVAC_FAN_SPEED 117 0 [4]) hvacOffHardware).
  - simpl. apply list_elem_of_here.
  - discriminate.
  - discriminate.
  - exists (int32Value 354419984 117 10 [0]). split; reflexivity.
Defined.

(** * Construction *)

Section Construction.
Context {P : Platform} {D : DefaultConfigs}.

Lemma foldl_seq_lookup_total {A} (f : Z -> A -> A) (l pre : list Z) (x : A) :
  foldl (fun h i => f ((pre ++ l) !!! i) h) x (seq (length pre) (length l))
  = foldl (fun h a => f a h) x l.
Proof.
  revert pre x. induction l as [|a l IH]; intros pre x; [done|].
  cbn [length seq foldl].
  rewrite list_lookup_total_middle by done.
  replace (pre ++ a :: l) with ((pre ++ [a]) ++ l) by (by rewrite <- app_assoc).
  replace (S (length pre)) with (length (pre ++ [a])) by (rewrite length_app; simpl; lia).
  apply IH.
Qed.

(** [storePropInitialValue] visits the areas of [initialAreas] in order. *)
Lemma storePropInitialValue_areas (decl : ConfigDeclaration) (hw : FakeVehicleHardware) :
  storePropInitialValue decl hw
  = foldl (fun h area =>
             storeAreaInitialValue decl (config_prop (config decl)) area h)
          hw (initialAreas decl).
Proof.
  unfold storePropInitialValue, initialAreas.
  destruct (isGlobalProp (config_prop (config decl))); [done|].
  apply (foldl_seq_lookup_total
           (fun area h => storeAreaInitialValue decl (config_prop (config decl)) area h)
           (config_areaIds (config decl)) []).
Qed.

Lemma storeWriteValue_quiet (v : VehiclePropValue) (updateStatus : bool)
    (hw : FakeVehicleHardware) :
  mOnValueChangeCallback (mServerSidePropStore hw) = false ->
  propertyChangeEvents (storeWriteValue v updateStatus hw).2 = propertyChangeEvents hw.
Proof.
  intros Hquiet. unfold storeWriteValue, writeValue. rewrite Hquiet.
  repeat case_match; simplify_eq; done.
Qed.

(** What every iteration leaves alone. *)
Lemma storeAreaInitialValue_frame (decl : ConfigDeclaration) (p a : Z)
    (hw : FakeVehicleHardware) :
  let hw' := storeAreaInitialValue decl p a hw in
  clockReads hw' = S (clockReads hw)
  /\ mRecordsByPropId (mServerSidePropStore hw') = mRecordsByPropId (mServerSidePropStore hw)
  /\ mOnValueChangeCallback (mServerSidePropStore hw')
     = mOnValueChangeCallback (mServerSidePropStore hw)
  /\ mOnPropertyChangeCallback hw' = mOnPropertyChangeCallback hw
  /\ (mOnValueChangeCallback (mServerSidePropStore hw) = false ->
      propertyChangeEvents hw' = propertyChangeEvents hw).
Proof.
  unfold storeAreaInitialValue.
  change (elapsedRealtimeNano hw) with (clockAt (clockReads hw), (elapsedRealtimeNano hw).2).
  cbv beta iota.
  set (hw1 := (elapsedRealtimeNano hw).2).
  assert (Hsame : forall v,
            let hw' := (storeWriteValue v true hw1).2 in
            clockReads hw' = S (clockReads hw)
            /\ mRecordsByPropId (mServerSidePropStore hw')
               = mRecordsByPropId (mServerSidePropStore hw)
            /\ mOnValueChangeCallback (mServerSidePropStore hw')
               = mOnValueChangeCallback (mServerSidePropStore hw)
            /\ mOnPropertyChangeCallback hw' = mOnPropertyChangeCallback hw
            /\ (mOnValueChangeCallback (mServerSidePropStore hw) = false ->
                propertyChangeEvents hw' = propertyChangeEvents hw)).
  { intros v. destruct (storeWriteValue_frame v true hw1) as (H1 & H2 & H3 & H4 & _).
    cbv zeta. rewrite H1, H2, H3, H4. repeat split; try done.
    intros Hquiet. by rewrite storeWriteValue_quiet. }
  repeat case_match; first [apply Hsame | done].
Qed.

(** What an iteration stores for a registered property without token
    function, at a permitted area. *)
Lemma storeAreaInitialValue_values (decl : ConfigDeclaration) (p a : Z)
    (hw : FakeVehicleHardware) (rec : PropRecord) :
  mRecordsByPropId (mServerSidePropStore hw) !! p = Some rec ->
  tokenFunction rec = None ->
  areaPermitted rec a = true ->
  mValues (mServerSidePropStore (storeAreaInitialValue decl p a hw))
  = match initialValueFor decl a with
    | Some raw =>
        <[(p, a, 0) := {| timestamp := clockAt (clockReads hw); areaId := a; prop := p;
                          status := AVAILABLE; value := raw |}]>
          (mValues (mServerSidePropStore hw))
    | None => mValues (mServerSidePropStore hw)
    end.
Proof.
  intros Hrec Htoken Harea.
  assert (Hwrite : forall raw,
            mValues (mServerSidePropStore
                       (storeWriteValue
                          {| timestamp := clockAt (clockReads hw); areaId := a; prop := p;
                             status := AVAILABLE; value := raw |} true
                          (elapsedRealtimeNano hw).2).2)
            = <[(p, a, 0) := {| timestamp := clockAt (clockReads hw); areaId := a;
                                prop := p; status := AVAILABLE; value := raw |}]>
                (mValues (mServerSidePropStore hw))).
  { intros raw.
    rewrite (proj2 (storeWriteValue_store _ true (elapsedRealtimeNano hw).2)).
    unfold writeValue. cbn [elapsedRealtimeNano snd mServerSidePropStore prop areaId].
    rewrite Hrec, Harea. cbn [negb]. rewrite andb_false_r.
    unfold tokenOf. by rewrite Htoken. }
  unfold storeAreaInitialValue, initialValueFor.
  change (elapsedRealtimeNano hw) with (clockAt (clockReads hw), (elapsedRealtimeNano hw).2).
  cbv beta iota.
  repeat case_match; first [apply Hwrite | done].
Qed.

Lemma storeInitialValues_spec (decl : ConfigDeclaration) (p : Z) (rec : PropRecord)
    (areas : list Z) (hw : FakeVehicleHardware) :
  mRecordsByPropId (mServerSidePropStore hw) !! p = Some rec ->
  tokenFunction rec = None ->
  Forall (fun area => areaPermitted rec area = true) areas ->
  let hw' := foldl (fun h area => storeAreaInitialValue decl p area h) hw areas in
  mRecordsByPropId (mServerSidePropStore hw') = mRecordsByPropId (mServerSidePropStore hw)
  /\ clockReads hw' = (clockReads hw + length areas)%nat
  /\ (forall q a t,
        q ≠ p \/ a ∉ areas \/ t ≠ 0 ->
        mValues (mServerSidePropStore hw') !! (q, a, t)
        = mValues (mServerSidePropStore hw) !! (q, a, t))
  /\ (forall area,
        area ∈ areas ->
        match initialValueFor decl area with
        | Some raw =>
            exists x i,
              mValues (mServerSidePropStore hw') !! (p, area, 0) = Some x
              /\ value x = raw /\ status x = AVAILABLE
              /\ areaId x = area /\ prop x = p
              /\ (i < length areas)%nat
              /\ timestamp x = clockAt (clockReads hw + i)
        | None =>
            mValues (mServerSidePropStore hw') !! (p, area, 0)
            = mValues (mServerSidePropStore hw) !! (p, area, 0)
        end).
Proof.
  intros Hrec Htoken Hareas. revert hw Hrec.
  induction Hareas as [|a0 rest Ha0 Hrest IH]; intros hw Hrec.
  { cbn. split; [done|]. split; [lia|]. split; [done|].
    intros area Hin. by apply elem_of_nil in Hin. }
  cbn [foldl length]. set (hw1 := storeAreaInitialValue decl p a0 hw).
  destruct (storeAreaInitialValue_frame decl p a0 hw) as (Hclock1 & Hrec1 & _).
  fold hw1 in Hclock1, Hrec1.
  pose proof (storeAreaInitialValue_values decl p a0 hw rec Hrec Htoken Ha0) as Hval1.
  fold hw1 in Hval1.
  assert (Hrec' : mRecordsByPropId (mServerSidePropStore hw1) !! p = Some rec)
    by (by rewrite Hrec1).
  destruct (IH hw1 Hrec') as (HrecN & HclockN & HframeN & HvalsN).
  assert (Hother : forall q a t,
            (q, a, t) ≠ (p, a0, 0) ->
            mValues (mServerSidePropStore hw1) !! (q, a, t)
            = mValues (mServerSidePropStore hw) !! (q, a, t)).
  { intros q a t Hne. rewrite Hval1.
    destruct (initialValueFor decl a0); [|done]. by rewrite lookup_insert_ne. }
  split; [congruence|]. split; [lia|]. split.
  - intros q a t Hkey. rewrite HframeN.
    + apply Hother. intros Heq. injection Heq as -> -> ->.
      destruct Hkey as [?|[Hnotin|?]]; [done| |done]. apply Hnotin, list_elem_of_here.
    + destruct Hkey as [?|[Hnotin|?]]; [by left| |by right; right].
      right; left. intros Hin. apply Hnotin. by apply list_elem_of_further.
  - intros area Hin.
    destruct (decide (area ∈ rest)) as [Hinrest|Hnotin].
    + specialize (HvalsN area Hinrest).
      destruct (initialValueFor decl area) as [raw|] eqn:Hinit.
      * destruct HvalsN as (x & i & Hx & Hv & Hs & Ha & Hp & Hi & Hts).
        exists x, (S i). repeat split; try done; [lia|].
        rewrite Hts, Hclock1. f_equal. lia.
      * rewrite HvalsN, Hval1.
        destruct (initialValueFor decl a0) as [raw0|] eqn:Hinit0; [|done].
        apply lookup_insert_ne. intros Heq. injection Heq as ->. congruence.
    + apply elem_of_cons in Hin as [->|?]; [|done].
      rewrite HframeN by (right; by left). rewrite Hval1.
      destruct (initialValueFor decl a0) as [raw|]; [|done].
      eexists _, 0%nat. rewrite lookup_insert_eq.
      split; [reflexivity|]. cbn [value status areaId prop timestamp length].
      do 4 (split; [done|]). split; [lia|]. f_equal. lia.
Qed.

(** X17.  [storePropInitialValue], for a property registered without token
    function at whose areas writes are permitted, visits area 0 alone for a
    global property and the declared areas otherwise, reading the clock once
    per area.  When the declaration gives no per-area values, every area
    visited receives the common initial value, unless that value is empty;
    when it gives any, an area receives its own value and an area without
    one receives nothing, the common initial value being ignored.  A value
    stored is AVAILABLE and stamped with one of the clock readings of the
    call.  Nothing else in the store changes. *)
Theorem storePropInitialValue_values (decl : ConfigDeclaration)
    (hw : FakeVehicleHardware) (rec : PropRecord) :
  let propId := config_prop (config decl) in
  let hw' := storePropInitialValue decl hw in
  mRecordsByPropId (mServerSidePropStore hw) !! propId = Some rec ->
  tokenFunction rec = None ->
  Forall (fun area => areaPermitted rec area = true) (initialAreas decl) ->
  (forall area,
     area ∈ initialAreas decl ->
     match initialValueFor decl area with
     | Some raw =>
         exists x i,
           readValueById propId area 0 (mServerSidePropStore hw') = Ok x
           /\ value x = raw /\ status x = AVAILABLE
           /\ areaId x = area /\ prop x = propId
           /\ (i < length (initialAreas decl))%nat
           /\ timestamp x = clockAt (clockReads hw + i)
     | None =>
         mValues (mServerSidePropStore hw') !! (propId, area, 0)
         = mValues (mServerSidePropStore hw) !! (propId, area, 0)
     end)
  /\ (forall q a t,
        q ≠ propId \/ a ∉ initialAreas decl \/ t ≠ 0 ->
        mValues (mServerSidePropStore hw') !! (q, a, t)
        = mValues (mServerSidePropStore hw) !! (q, a, t))
  /\ clockReads hw' = (clockReads hw + length (initialAreas decl))%nat
  /\ mRecordsByPropId (mServerSidePropStore hw')
     = mRecordsByPropId (mServerSidePropStore hw).
Proof.
  intros propId hw' Hrec Htoken Hareas. subst hw'.
  rewrite storePropInitialValue_areas.
  destruct (storeInitialValues_spec decl propId rec (initialAreas decl) hw
              Hrec Htoken Hareas) as (HrecN & HclockN & HframeN & HvalsN).
  split; [|done]. intros area Hin. specialize (HvalsN area Hin).
  destruct (initialValueFor decl area) as [raw|]; [|done].
  destruct HvalsN as (x & i & Hx & Hrest). exists x, i. split; [|done].
  unfold readValueById. fold propId. by rewrite HrecN, Hrec, Hx.
Qed.

Lemma quietStep_refl (hw : FakeVehicleHardware) : quietStep hw hw.
Proof. by unfold quietStep. Qed.

Lemma quietStep_trans (hw1 hw2 hw3 : FakeVehicleHardware) :
  quietStep hw1 hw2 -> quietStep hw2 hw3 -> quietStep hw1 hw3.
Proof.
  intros (A1 & B1 & C1) (A2 & B2 & C2). unfold quietStep.
  split; [congruence|]. split; [congruence|].
  intros Hq. rewrite C2 by congruence. by apply C1.
Qed.

Lemma foldl_preserves {A} (step : FakeVehicleHardware -> A -> FakeVehicleHardware)
    (l : list A) (hw : FakeVehicleHardware) :
  (forall h a,
     quietStep h (step h a)
     /\ mRecordsByPropId (mServerSidePropStore (step h a))
        = mRecordsByPropId (mServerSidePropStore h)) ->
  quietStep hw (foldl step hw l)
  /\ mRecordsByPropId (mServerSidePropStore (foldl step hw l))
     = mRecordsByPropId (mServerSidePropStore hw).
Proof.
  intros Hstep. revert hw. induction l as [|a l IH]; intros hw.
  - split; [apply quietStep_refl|done].
  - cbn [foldl]. destruct (IH (step hw a)) as [Hq Hr]. destruct (Hstep hw a) as [Hq1 Hr1].
    split; [by eapply quietStep_trans|congruence].
Qed.

Lemma storePropInitialValue_quiet (decl : ConfigDeclaration) (hw : FakeVehicleHardware) :
  quietStep hw (storePropInitialValue decl hw)
  /\ mRecordsByPropId (mServerSidePropStore (storePropInitialValue decl hw))
     = mRecordsByPropId (mServerSidePropStore hw).
Proof.
  rewrite storePropInitialValue_areas. apply foldl_preserves. intros h a.
  destruct (storeAreaInitialValue_frame decl (config_prop (config decl)) a h)
    as (_ & Hr & Hf & Hl & He).
  by repeat split.
Qed.

Lemma maybeOverrideProperties_quiet (hw : FakeVehicleHardware) :
  quietStep hw (maybeOverrideProperties hw)
  /\ mRecordsByPropId (mServerSidePropStore (maybeOverrideProperties hw))
     = mRecordsByPropId (mServerSidePropStore hw).
Proof.
  unfold maybeOverrideProperties, overrideProperties.
  destruct overrideEnabled; [|split; [apply quietStep_refl|done]].
  apply foldl_preserves. intros h v.
  change (elapsedRealtimeNano h) with (clockAt (clockReads h), (elapsedRealtimeNano h).2).
  cbv beta iota.
  destruct (storeWriteValue_frame (setTimestamp (clockAt (clockReads h)) v) true
              (elapsedRealtimeNano h).2) as (Hr & Hf & Hl & _ & _).
  cbv zeta in Hr, Hf, Hl. unfold quietStep. rewrite Hr, Hf, Hl.
  repeat split; try done. intros Hq. by rewrite storeWriteValue_quiet.
Qed.

Lemma initConfig_spec (decl : ConfigDeclaration) (hw : FakeVehicleHardware) :
  quietStep hw (initConfig decl hw)
  /\ mRecordsByPropId (mServerSidePropStore (initConfig decl hw))
     = <[config_prop (config decl) := recordOf decl]>
         (mRecordsByPropId (mServerSidePropStore hw)).
Proof.
  unfold initConfig.
  set (hw1 := withStore _ hw).
  assert (H1 : quietStep hw hw1
               /\ mRecordsByPropId (mServerSidePropStore hw1)
                  = <[config_prop (config decl) := recordOf decl]>
                      (mRecordsByPropId (mServerSidePropStore hw)))
    by (by unfold quietStep).
  destruct (isDiagnosticProperty (config decl)); [done|].
  destruct H1 as [Hq1 Hr1]. destruct (storePropInitialValue_quiet decl hw1) as [Hq2 Hr2].
  split; [by eapply quietStep_trans|congruence].
Qed.

Lemma initConfigs_spec (decls : list ConfigDeclaration) (hw : FakeVehicleHardware) :
  let hw' := foldl (fun h decl => initConfig decl h) hw decls in
  quietStep hw hw'
  /\ (forall p rec,
        mRecordsByPropId (mServerSidePropStore hw') !! p = Some rec ->
        (exists decl,
           decl ∈ decls /\ config_prop (config decl) = p /\ rec = recordOf decl)
        \/ mRecordsByPropId (mServerSidePropStore hw) !! p = Some rec)
  /\ (forall p,
        is_Some (mRecordsByPropId (mServerSidePropStore hw) !! p)
        \/ p ∈ (fun decl => config_prop (config decl)) <$> decls ->
        is_Some (mRecordsByPropId (mServerSidePropStore hw') !! p)).
Proof.
  revert hw. induction decls as [|d decls IH]; intros hw; cbn [foldl].
  { split; [apply quietStep_refl|]. split; [by right|].
    intros p [?|Hin]; [done|]. by apply elem_of_nil in Hin. }
  destruct (initConfig_spec d hw) as [Hq1 Hr1].
  destruct (IH (initConfig d hw)) as (Hq & Hsome & Hdom).
  split; [by eapply quietStep_trans|]. split.
  - intros p rec Hlook. destruct (Hsome p rec Hlook) as [(decl & Hin & Hp & Hrec)|Hold].
    + left. exists decl. split; [by apply list_elem_of_further|done].
    + rewrite Hr1 in Hold.
      destruct (decide (config_prop (config d) = p)) as [Heq|Hne].
      * rewrite Heq, lookup_insert_eq in Hold. injection Hold as <-.
        left. exists d. split; [apply list_elem_of_here|done].
      * rewrite lookup_insert_ne in Hold by done. by right.
  - intros p Hp. apply Hdom. rewrite Hr1.
    destruct (decide (config_prop (config d) = p)) as [Heq|Hne].
    + left. rewrite Heq, lookup_insert_eq. by eexists.
    + rewrite lookup_insert_ne by done.
      destruct Hp as [?|Hin]; [by left|]. right.
      rewrite fmap_cons in Hin. apply elem_of_cons in Hin as [?|?]; [congruence|done].
Qed.

(** X18.  [init] on a facade whose store has no property registered yet,
    with OBD2 initialisers that register and unregister nothing: it runs to
    completion exactly when both [OBD2_LIVE_FRAME] and [OBD2_FREEZE_FRAME] are
    among the default configurations.  Afterwards the registered properties
    are those of the default configurations, each with the configuration of
    one of its declarations, and [OBD2_FREEZE_FRAME] alone has a token
    function; the store's change listener is installed; when the store had
    no listener before, no event was delivered for the initial and override
    values written on the way; the facade's own listener is as before. *)
Theorem init_registers_default_configs (hw : FakeVehicleHardware) :
  mRecordsByPropId (mServerSidePropStore hw) = ∅ ->
  (forall cfg s, mRecordsByPropId (initObd2LiveFrame cfg s) = mRecordsByPropId s) ->
  (forall cfg s, mRecordsByPropId (initObd2FreezeFrame cfg s) = mRecordsByPropId s) ->
  let props := (fun decl => config_prop (config decl)) <$> getDefaultConfigs in
  (is_Some (init hw) <-> OBD2_LIVE_FRAME ∈ props /\ OBD2_FREEZE_FRAME ∈ props)
  /\ (forall hw',
        init hw = Some hw' ->
        mOnValueChangeCallback (mServerSidePropStore hw') = true
        /\ (forall p,
              is_Some (mRecordsByPropId (mServerSidePropStore hw') !! p) <-> p ∈ props)
        /\ (forall p rec,
              mRecordsByPropId (mServerSidePropStore hw') !! p = Some rec ->
              (is_Some (tokenFunction rec) <-> p = OBD2_FREEZE_FRAME)
              /\ exists decl,
                   decl ∈ getDefaultConfigs
                   /\ config_prop (config decl) = p
                   /\ propConfig rec = config decl)
        /\ (mOnValueChangeCallback (mServerSidePropStore hw) = false ->
            propertyChangeEvents hw' = propertyChangeEvents hw)
        /\ mOnPropertyChangeCallback hw' = mOnPropertyChangeCallback hw).
Proof.
  intros Hempty Hlive Hfreeze props.
  destruct (initConfigs_spec getDefaultConfigs hw) as (Hq1 & Hsome & Hdom).
  cbv zeta in Hq1, Hsome, Hdom.
  unfold init.
  set (hw1 := foldl (fun h decl => initConfig decl h) hw getDefaultConfigs) in *.
  destruct (maybeOverrideProperties_quiet hw1) as [Hq2 Hr2].
  set (hw2 := maybeOverrideProperties hw1) in *.
  pose proof (quietStep_trans _ _ _ Hq1 Hq2) as (_ & Hlistener & Hevents).
  assert (Hrecords : forall p,
            is_Some (mRecordsByPropId (mServerSidePropStore hw2) !! p) <-> p ∈ props).
  { intros p. rewrite Hr2. split.
    - intros [rec Hrec]. destruct (Hsome p rec Hrec) as [(decl & Hin & Hp & _)|Hold].
      + subst props. apply list_elem_of_fmap. by exists decl.
      + by rewrite Hempty, lookup_empty in Hold.
    - intros Hin. apply Hdom. by right. }
  assert (Hgetconfig : forall p s,
            mRecordsByPropId s = mRecordsByPropId (mServerSidePropStore hw2) ->
            (exists cfg, getConfig p s = Ok cfg) <-> p ∈ props).
  { intros p s Hs. rewrite <- Hrecords, <- Hs. unfold getConfig.
    destruct (mRecordsByPropId s !! p) as [rec|].
    - split; [by eexists|]. intros _. by eexists.
    - split; [by intros [? ?]|]. by intros [? ?]. }
  split.
  - destruct (getConfig OBD2_LIVE_FRAME (mServerSidePropStore hw2)) as [liveCfg|code]
      eqn:Hgetlive.
    + assert (Hinlive : OBD2_LIVE_FRAME ∈ props).
      { apply (Hgetconfig _ (mServerSidePropStore hw2) eq_refl). by eexists. }
      cbn [withStore mServerSidePropStore].
      destruct (getConfig OBD2_FREEZE_FRAME
                  (initObd2LiveFrame liveCfg (mServerSidePropStore hw2)))
        as [freezeCfg|code] eqn:Hgetfreeze.
      * split; [|by eexists]. intros _. split; [done|].
        apply (Hgetconfig _ _ (Hlive liveCfg _)). by eexists.
      * split; [by intros [? ?]|]. intros [_ Hin].
        apply (Hgetconfig _ _ (Hlive liveCfg _)) in Hin as [cfg Hcfg]. congruence.
    + split; [by intros [? ?]|]. intros [Hin _].
      apply (Hgetconfig _ (mServerSidePropStore hw2) eq_refl) in Hin as [cfg Hcfg].
      congruence.
  - intros hw' Hinit.
    destruct (getConfig OBD2_LIVE_FRAME (mServerSidePropStore hw2)) as [liveCfg|code];
      [|done].
    cbn [withStore mServerSidePropStore] in Hinit.
    destruct (getConfig OBD2_FREEZE_FRAME
                (initObd2LiveFrame liveCfg (mServerSidePropStore hw2)))
      as [freezeCfg|code]; [|done].
    injection Hinit as <-. cbn [withStore mServerSidePropStore].
    unfold setOnValueChangeCallback. cbn [mRecordsByPropId mOnValueChangeCallback].
    rewrite Hfreeze, Hlive.
    split; [done|]. split; [exact Hrecords|]. split; [|split; [exact Hevents|exact Hlistener]].
    intros p rec Hrec. rewrite Hr2 in Hrec.
    destruct (Hsome p rec Hrec) as [(decl & Hin & Hp & ->)|Hold];
      [|by rewrite Hempty, lookup_empty in Hold].
    split; [|by exists decl].
    unfold recordOf. cbn [tokenFunction]. rewrite Hp.
    destruct (p =? OBD2_FREEZE_FRAME) eqn:Heq.
    + apply Z.eqb_eq in Heq. split; [done|]. intros _. by eexists.
    + apply Z.eqb_neq in Heq. split; [by intros [? ?]|done].
Qed.

End Construction.

(** X17 at a concrete state: [HVAC_FAN_SPEED] declared for the seats 49 and
    68 with an initial value for seat 49 only. *)
Lemma storePropInitialValue_values_witness :
  (exists x i,
     readValueById 356517120 49 0
       (mServerSidePropStore
          (@storePropInitialValue referencePlatform referenceConfigs fanSpeedDecl
             fanSpeedHardware))
     = Ok x
     /\ value x = fanSpeedInitial /\ status x = AVAILABLE
     /\ areaId x = 49 /\ prop x = 356517120
     /\ (i < 2)%nat
     /\ timestamp x = 1000000 * Z.of_nat (0 + i))
  /\ mValues
       (mServerSidePropStore
          (@storePropInitialValue referencePlatform referenceConfigs fanSpeedDecl
             fanSpeedHardware)) !! (356517120, 68, 0)
     = None.
Proof.
  assert (Hareas : @initialAreas referenceConfigs fanSpeedDecl = [49; 68])
    by evaluate_sides.
  assert (Hrec : mRecordsByPropId (mServerSidePropStore fanSpeedHardware)
                   !! config_prop (config fanSpeedDecl)
                 = Some {| propConfig := config fanSpeedDecl; tokenFunction := None |})
    by evaluate_sides.
  assert (Hpermitted :
            Forall (fun area =>
                      areaPermitted
                        {| propConfig := config fanSpeedDecl; tokenFunction := None |}
                        area = true)
              (@initialAreas referenceConfigs fanSpeedDecl)).
  { rewrite Hareas. repeat constructor. }
  destruct (@storePropInitialValue_values referencePlatform referenceConfigs
              fanSpeedDecl fanSpeedHardware _ Hrec eq_refl Hpermitted)
    as (Hvalues & _).
  rewrite Hareas in Hvalues. split.
  - assert (Hin : 49 ∈ [49; 68]) by apply list_elem_of_here.
    apply Hvalues in Hin.
    assert (Hinit : initialValueFor fanSpeedDecl 49 = Some fanSpeedInitial)
      by evaluate_sides.
    rewrite Hinit in Hin. exact Hin.
  - assert (Hin : 68 ∈ [49; 68]) by apply list_elem_of_further, list_elem_of_here.
    apply Hvalues in Hin.
    assert (Hinit : initialValueFor fanSpeedDecl 68 = None) by evaluate_sides.
    rewrite Hinit in Hin. exact Hin.
Defined.

(** X18 on the reference configurations. *)
Lemma init_registers_default_configs_witness :
  is_Some (@init referencePlatform referenceConfigs blankHardware)
  /\ propertyChangeEvents (@afterInit referencePlatform referenceConfigs blankHardware)
     = propertyChangeEvents blankHardware.
Proof.
  destruct (@init_registers_default_configs referencePlatform referenceConfigs
              blankHardware eq_refl (fun _ _ => eq_refl) (fun _ _ => eq_refl))
    as [Hdefined Hafter].
  assert (Hrun : @init referencePlatform referenceConfigs blankHardware
                 = Some (@afterInit referencePlatform referenceConfigs blankHardware))
    by evaluate_sides.
  split.
  - apply Hdefined. split.
    + apply list_elem_of_fmap. exists (frameDecl 299896064).
      split; [reflexivity|]. do 2 apply list_elem_of_further. apply list_elem_of_here.
    + apply list_elem_of_fmap. exists (frameDecl 299896065).
      split; [reflexivity|]. do 3 apply list_elem_of_further. apply list_elem_of_here.
  - destruct (Hafter _ Hrun) as (_ & _ & _ & Hevents & _). by apply Hevents.
Defined.

Example init_reference_values :
  (@getValue referencePlatform (keyValue 291504388 0)
     (@afterInit referencePlatform referenceConfigs blankHardware)).1
  = Ok {| timestamp := 0; areaId := 0; prop := 291504388; status := AVAILABLE;
          value := initialValue fuelCapacityDecl |}
  /\ (@getValue referencePlatform (keyValue 356517120 49)
        (@afterInit referencePlatform referenceConfigs blankHardware)).1
     = Ok {| timestamp := 1000000; areaId := 49; prop := 356517120;
             status := AVAILABLE; value := fanSpeedInitial |}
  /\ (@getValue referencePlatform (keyValue 356517120 68)
        (@afterInit referencePlatform referenceConfigs blankHardware)).1
     = Err NOT_AVAILABLE
  /\ (@getValue referencePlatform (keyValue 1000 0)
        (@afterInit referencePlatform referenceConfigs blankHardware)).1
     = Err INVALID_ARG.
Proof. evaluate_sides. Qed.

(** * Generating fake data *)

Section GenFakeData.
Context {P : Platform} {parsers : DumpArgs.Parsers} {G : Generators}.

(** X19.  [--genfakedata --keypress] with a key code and a display that
    parse reads the clock twice and hands the listener two events of
    [HW_KEY_INPUT], key down and then key up, stamped with the two readings;
    they are delivered directly and never written to the property store, so
    no get sees them.  Without a listener nothing is delivered and the
    command still reports success. *)
Theorem genFakeDataCommand_keypress (program key display : string)
    (keyCode targetDisplay : Z) (hub : GeneratorHub) (hw : FakeVehicleHardware) :
  DumpArgs.ParseInt32 key = Some keyCode ->
  DumpArgs.ParseInt32 display = Some targetDisplay ->
  let down := hwKeyInput ACTION_DOWN keyCode targetDisplay (clockAt (clockReads hw)) in
  let up := hwKeyInput ACTION_UP keyCode targetDisplay (clockAt (S (clockReads hw))) in
  exists hw',
    genFakeDataCommand [program; "--keypress"; key; display] hub hw
    = (KeypressGenerated, hub, hw')
    /\ propertyChangeEvents hw'
       = propertyChangeEvents hw
         ++ match mOnPropertyChangeCallback hw with
            | Some callback => [(callback, [down]); (callback, [up])]
            | None => []
            end
    /\ mServerSidePropStore hw' = mServerSidePropStore hw
    /\ mOnPropertyChangeCallback hw' = mOnPropertyChangeCallback hw
    /\ clockReads hw' = S (S (clockReads hw)).
Proof.
  intros Hkey Hdisplay down up.
  unfold genFakeDataCommand. cbn [lookup list_lookup length].
  rewrite (bool_decide_eq_false_2 ("--keypress" = "--startlinear")) by discriminate.
  rewrite (bool_decide_eq_false_2 ("--keypress" = "--stoplinear")) by discriminate.
  rewrite (bool_decide_eq_false_2 ("--keypress" = "--startjson")) by discriminate.
  rewrite (bool_decide_eq_false_2 ("--keypress" = "--stopjson")) by discriminate.
  rewrite (bool_decide_eq_true_2 ("--keypress" = "--keypress")) by done.
  cbn -[DumpArgs.ParseInt32 createHwInputKeyProp].
  rewrite Hkey, Hdisplay.
  unfold createHwInputKeyProp, onValueChangeCallback, elapsedRealtimeNano.
  cbn [mOnPropertyChangeCallback].
  destruct (mOnPropertyChangeCallback hw) as [callback|] eqn:Hcb; cbn.
  - eexists. split; [reflexivity|]. cbn. rewrite <- app_assoc. done.
  - eexists. split; [reflexivity|]. cbn. by rewrite app_nil_r.
Qed.

(** X20.  Whatever its options, [genFakeDataCommand] never touches the
    property store or the listener, and changes the facade at all only when
    it reports a key press.  The generator hub is changed only by a command
    that reports a generator started, stopped or not found: a wrong argument
    count, an argument that does not parse, an invalid JSON source, a missing
    or unknown subcommand leave it as it was.  The subcommand is compared
    exactly, case included.  [--startjson] with four options whose source
    kind is neither [--path] nor [--content] registers the null generator and
    reports success. *)
Theorem genFakeDataCommand_effects (options : list string) (hub : GeneratorHub)
    (hw : FakeVehicleHardware) :
  let output := (genFakeDataCommand options hub hw).1.1 in
  let hub' := (genFakeDataCommand options hub hw).1.2 in
  let hw' := (genFakeDataCommand options hub hw).2 in
  mServerSidePropStore hw' = mServerSidePropStore hw
  /\ mOnPropertyChangeCallback hw' = mOnPropertyChangeCallback hw
  /\ (output ≠ KeypressGenerated -> hw' = hw)
  /\ match output with
     | LinearStarted | LinearStopped | NoLinearGenerator _
     | JsonStarted _ | JsonStopped | NoJsonGenerator _ => True
     | _ => hub' = hub
     end
  /\ (forall command,
        options !! 1%nat = Some command ->
        command ∉ ["--startlinear"; "--stoplinear"; "--startjson"; "--stopjson";
                   "--keypress"] ->
        output = UnknownCommand command)
  /\ (forall program kind source,
        options = [program; "--startjson"; kind; source] ->
        kind ≠ "--path" -> kind ≠ "--content" ->
        output = JsonStarted (hashString source)
        /\ hub' = registerGenerator (hashString source) NullGenerator hub).
Proof.
  cbv zeta. split; [|split; [|split; [|split; [|split]]]].
  - unfold genFakeDataCommand, createHwInputKeyProp, onValueChangeCallback,
      elapsedRealtimeNano.
    repeat case_match; simplify_eq; done.
  - unfold genFakeDataCommand, createHwInputKeyProp, onValueChangeCallback,
      elapsedRealtimeNano.
    repeat case_match; simplify_eq; cbn in *; congruence.
  - unfold genFakeDataCommand.
    repeat case_match; simplify_eq; done.
  - unfold genFakeDataCommand.
    repeat case_match; simplify_eq; done.
  - intros command Hcommand Hnot. unfold genFakeDataCommand. rewrite Hcommand.
    rewrite !bool_decide_eq_false_2; [done|..];
      intros ->; apply Hnot; repeat constructor.
  - intros program kind source -> Hpath Hcontent.
    unfold genFakeDataCommand. cbn [lookup list_lookup length].
    rewrite (bool_decide_eq_false_2 ("--startjson" = "--startlinear")) by discriminate.
    rewrite (bool_decide_eq_false_2 ("--startjson" = "--stoplinear")) by discriminate.
    rewrite (bool_decide_eq_true_2 ("--startjson" = "--startjson")) by done.
    cbn. by rewrite !bool_decide_eq_false_2.
Qed.

End GenFakeData.

(** X19 at a concrete state: key 66 on display 0, on [powerHardware], where
    listener 1 is registered and the clock was never read. *)
Lemma genFakeDataCommand_keypress_witness :
  exists hw',
    @genFakeDataCommand referencePlatform referenceParsers referenceGenerators
      ["--genfakedata"; "--keypress"; "66"; "0"] [] powerHardware
    = (KeypressGenerated, [], hw')
    /\ propertyChangeEvents hw'
       = propertyChangeEvents powerHardware
         ++ [(1%nat, [int32Value 289475088 0 0 [0; 66; 0]]);
             (1%nat, [int32Value 289475088 0 1000000 [1; 66; 0]])]
    /\ mServerSidePropStore hw' = mServerSidePropStore powerHardware.
Proof.
  destruct (@genFakeDataCommand_keypress referencePlatform referenceParsers
              referenceGenerators "--genfakedata" "66" "0" 66 0 [] powerHardware
              eq_refl eq_refl) as (hw' & Hrun & Hevents & Hstore & _).
  exists hw'. split; [exact Hrun|]. split; [exact Hevents|exact Hstore].
Defined.

(** The dump commands on [oneValueHardware]: property 1000 is set to 8 and
    read back with the time of the set; an event injected for it keeps the
    timestamp given. *)
Example dump_set_then_get :
  (fst <$> @dumpSetProperties referencePlatform referenceParsers
             ["--set"; "1000"; "-i"; "8"] oneValueHardware)
  = Some (PropertySet (int32Value 1000 0 0 [8]))
  /\ (fst <$> @dumpGetPropertyWithArg referencePlatform referenceParsers
                ["--getWithArg"; "1000"; "-a"; "0"]
                (afterSetValue (int32Value 1000 0 0 [8]) oneValueHardware))
     = Some (GetPropertyResult (int32Value 1000 0 7000000 [8]))
  /\ (@getValue referencePlatform (keyValue 1000 0)
        (default oneValueHardware
           (snd <$> @dumpInjectEvent referencePlatform referenceParsers
                      ["--inject-event"; "1000"; "-i"; "9"; "-t"; "42"]
                      oneValueHardware))).1
     = Ok (int32Value 1000 0 42 [9]).
Proof. evaluate_sides. Qed.

(** [ParseInt] as the examples use it: the bounds of the type are checked,
    white space in front, a sign and the hexadecimal prefix are accepted,
    anything left over is not. *)
Example ParseInt_examples :
  @DumpArgs.ParseInt32 referenceParsers "2147483647" = Some 2147483647
  /\ @DumpArgs.ParseInt32 referenceParsers "2147483648" = None
  /\ @DumpArgs.ParseInt64 referenceParsers "2147483648" = Some 2147483648
  /\ @DumpArgs.ParseInt32 referenceParsers "-2147483648" = Some (-2147483648)
  /\ @DumpArgs.ParseInt32 referenceParsers "0x1F" = Some 31
  /\ @DumpArgs.ParseInt32 referenceParsers "0X1f" = Some 31
  /\ @DumpArgs.ParseInt32 referenceParsers "+5" = Some 5
  /\ @DumpArgs.ParseInt32 referenceParsers " 7" = Some 7
  /\ @DumpArgs.ParseInt32 referenceParsers "0x" = None
  /\ @DumpArgs.ParseInt32 referenceParsers "-0x5" = None
  /\ @DumpArgs.ParseInt32 referenceParsers "12a" = None
  /\ @DumpArgs.ParseInt32 referenceParsers "7 " = None
  /\ @DumpArgs.ParseInt32 referenceParsers "-" = None
  /\ @DumpArgs.ParseInt32 referenceParsers "" = None.
Proof. repeat split; reflexivity. Qed.

(** The save and restore commands take their key from every form
    [parsePropOptions] accepts. *)
Example referenceParsePropOptions_examples :
  @parsePropOptions referencePlatform ["--save-prop"; "1000"] = inr (keyValue 1000 0)
  /\ @parsePropOptions referencePlatform ["--save-prop"; "1000"; "-A"; "0x31"]
     = inr (keyValue 1000 49)
  /\ @parsePropOptions referencePlatform ["--save-prop"; "1000"; "-t"; "5"]
     = inr (setTimestamp 5 (keyValue 1000 0))
  /\ @parsePropOptions referencePlatform ["--save-prop"; "1000"; "-x"] = inl "-x"
  /\ @parsePropOptions referencePlatform ["--save-prop"; "ten"] = inl "ten".
Proof. repeat split; reflexivity. Qed.
